(** * The embedding-indexed document store of Ragpoc

    A shallow embedding of [backend/vector_store.py]: the [Document] record,
    the [SimpleVectorStore] class with its persistence ([_load], [_save]),
    its similarity index ([_rebuild_index], [search]) and its group operations
    ([add], [delete_by_doc_id], [get_document_content]), followed by the
    properties of the store that the specification states.

    Conventions.
    - A Python [dict] is an association list in insertion order ([Py.dict]);
      assigning to a key that is present keeps the key's position.
    - A [float] is an IEEE-754 binary64 number (Rocq's primitive floats), as
      in numpy's [float64] arrays.  The order in which numpy adds up a sum,
      and the order [np.argsort] gives to equal values, are not fixed: these
      routines are the fields of the class [Np.Routines].
    - A method is a computation over the process state [World]; an exception
      leaves the state as it was mutated up to the point of the raise.
    - The libraries the module calls and the repository does not define
      (the sentence encoder, [hashlib.md5], numpy's global generator, the
      wall clock) are parameters of the development, and so is what the
      operating system answers to an operation on a file (the class
      [OS]): a file operation raises what the system answers. *)

From Stdlib Require Import String Ascii.
From Stdlib Require Import List ZArith Lia Bool Arith.
From Stdlib Require Import Permutation Sorted.
From Stdlib Require Import DecimalNat DecimalString.
From Stdlib Require Import Floats.
Import ListNotations.

Set Implicit Arguments.

(** ** Exceptions and results *)

Inductive exn : Type :=
| ValueError
| TypeError
| KeyError
| IndexError
| JSONDecodeError
| EncoderError
| OSError
| UnicodeEncodeError.

Inductive result (A : Type) : Type :=
| Ok (a : A)
| Raise (e : exn).

Arguments Ok {A} a.
Arguments Raise {A} e.

Definition is_ok {A : Type} (r : result A) : bool :=
  match r with Ok _ => true | Raise _ => false end.

(** ** Python values: ordered dictionaries, slices, sorting *)

Module Py.

(** [dict V]: the entries of a [dict] in insertion order. *)
Definition dict (V : Type) : Type := list (string * V).

Section Dict.
Context {V : Type}.

Fixpoint get (k : string) (d : dict V) : option V :=
  match d with
  | [] => None
  | (k', v) :: d' => if String.eqb k k' then Some v else get k d'
  end.

(** [d[k] = v]: replaces in place when [k] is present, appends otherwise. *)
Fixpoint set (k : string) (v : V) (d : dict V) : dict V :=
  match d with
  | [] => [(k, v)]
  | (k', v') :: d' =>
      if String.eqb k k' then (k, v) :: d' else (k', v') :: set k v d'
  end.

(** [del d[k]] *)
Fixpoint del (k : string) (d : dict V) : dict V :=
  match d with
  | [] => []
  | (k', v') :: d' =>
      if String.eqb k k' then d' else (k', v') :: del k d'
  end.

Definition keys (d : dict V) : list string := map fst d.
Definition values (d : dict V) : list V := map snd d.

(** A Python [dict] holds each key once. *)
Definition wf (d : dict V) : Prop := NoDup (keys d).

(** [d.get(k, default)] *)
Definition get_default (k : string) (default : V) (d : dict V) : V :=
  match get k d with Some v => v | None => default end.
End Dict.

(** [str(i)] for a non-negative [int]. *)
Definition str_of_nat (n : nat) : string :=
  NilEmpty.string_of_uint (Nat.to_uint n).

(** [l[:k]]: a negative [k] counts from the end. *)
Definition slice_to {A : Type} (k : Z) (l : list A) : list A :=
  if (0 <=? k)%Z then firstn (Z.to_nat k) l
  else firstn (length l - Z.to_nat (- k)) l.

(** A stable sort by insertion: [insert lt x l] puts [x], which comes
    before every element of [l] in the input, in front of the first element
    that is not smaller than [x]. *)
Section Sort.
Context {A : Type} (lt : A -> A -> bool).

Fixpoint insert (x : A) (l : list A) : list A :=
  match l with
  | [] => [x]
  | y :: l' => if lt y x then y :: insert x l' else x :: y :: l'
  end.

Definition stable_sort (l : list A) : list A :=
  fold_right insert [] l.
End Sort.

End Py.

(** ** numpy: vectors, matrices, norms, argsort *)

Module Np.

Definition vector : Type := list float.
Definition matrix : Type := list vector.

(** The routines of numpy whose result is not fixed by the arithmetic of
    floats.  The entry of [np.dot(E, q)] for a row ([dot]), the norm of the
    query [np.linalg.norm(q)] ([norm]) and the entry of
    [np.linalg.norm(E, axis=1)] for a row ([row_norm]) add up rounded terms
    in an order that depends on the routine and on the build (BLAS, pairwise
    summation); [np.argsort], called with its default kind, promises no
    order among equal values.  They are taken as given: each entry as a
    function of its row and the query, the order as a function of the
    array. *)
Class Routines : Type := {
  dot : vector -> vector -> float;
  norm : vector -> float;
  row_norm : vector -> float;
  argsort : vector -> list nat
}.

(** [np.array(rows)]: a two-dimensional array needs rows of one length;
    otherwise numpy raises [ValueError] (inhomogeneous shape). *)
Definition array (rows : list vector) : result matrix :=
  match rows with
  | [] => Ok []
  | r :: rest =>
      if forallb (fun r' => Nat.eqb (length r') (length r)) rest
      then Ok rows else Raise ValueError
  end.

(** [np.dot(E, q)]: every row of [E] against [q]; the inner dimensions
    must agree. *)
Definition matvec {numpy : Routines} (E : matrix) (q : vector)
  : result vector :=
  if forallb (fun r => Nat.eqb (length r) (length q)) E
  then Ok (map (fun r => dot r q) E) else Raise ValueError.

(** [np.linalg.norm(E, axis=1)] *)
Definition row_norms {numpy : Routines} (E : matrix) : vector :=
  map row_norm E.

(** The order numpy sorts floats by: IEEE [<], with NaN after everything. *)
Definition lt (a b : float) : bool :=
  (a <? b)%float || (negb (PrimFloat.is_nan a) && PrimFloat.is_nan b).

End Np.

(** ** Data model *)

(** A metadata value ([Dict[str, Any]]): the integers and strings the
    callers store there. *)
Inductive mval : Type :=
| MInt (z : Z)
| MStr (s : string).

(** The [Document] dataclass. *)
Record Document : Type := mkDocument {
  id : string;
  doc_id : string;
  content : string;
  embedding : list float;
  metadata : Py.dict mval;
  created_at : string
}.

(** ** The snapshot file

    [documents.json] holds a JSON array of objects.  Its text is modelled at
    the grain [json.dump] writes it and [json.load] needs it: the opening
    bracket, one piece per element, the closing bracket.  An element is
    either an object carrying exactly the six [Document] fields, or any
    other value, which the [Document] constructor rejects. *)

Inductive jvalue : Type :=
| JDocument (d : Document)
| JMalformed.

Inductive token : Type :=
| ArrayOpen
| Element (v : jvalue)
| ArrayClose.

Definition file : Type := list token.

(** [asdict(doc)] *)
Definition asdict (d : Document) : jvalue := JDocument d.

(** The text [json.dump(data, f)] writes, piece by piece. *)
Definition json_dump (data : list jvalue) : list token :=
  ArrayOpen :: map Element data ++ [ArrayClose].

Fixpoint json_elements (ts : list token) : option (list jvalue) :=
  match ts with
  | [ArrayClose] => Some []
  | Element v :: ts' =>
      match json_elements ts' with
      | Some vs => Some (v :: vs)
      | None => None
      end
  | _ => None
  end.

(** [json.load(f)]: the array the text denotes, [JSONDecodeError] when the
    text is not a complete array. *)
Definition json_load (f : file) : result (list jvalue) :=
  match f with
  | ArrayOpen :: ts =>
      match json_elements ts with
      | Some vs => Ok vs
      | None => Raise JSONDecodeError
      end
  | _ => Raise JSONDecodeError
  end.

(** The [Document] constructor applied to the keys of a decoded element. *)
Definition Document_of (v : jvalue) : result Document :=
  match v with
  | JDocument d => Ok d
  | JMalformed => Raise TypeError
  end.

(** Operations on the file system, at the grain at which an interruption
    can cut a save short: opening a file for writing, which truncates it,
    and appending a piece of text; besides these, creating a directory
    ([os.makedirs(path, exist_ok=True)]) and opening a file to read its
    text, which change no file. *)
Inductive fs_op : Type :=
| OpenW (path : string)
| Write (path : string) (t : token)
| MakeDirs (path : string)
| OpenR (path : string).

Definition fs_step (fs : Py.dict file) (op : fs_op) : Py.dict file :=
  match op with
  | OpenW p => Py.set p [] fs
  | Write p t =>
      match Py.get p fs with
      | Some c => Py.set p (c ++ [t]) fs
      | None => fs
      end
  | MakeDirs _ => fs
  | OpenR _ => fs
  end.

(** What the operating system and the encoder of the text answer to an
    operation on the files as they are: the exception it raises ([OSError]
    for a directory that cannot be created or a file that cannot be opened,
    read or written, [TypeError] and [UnicodeEncodeError] of [json.dump] for
    a value it cannot write), or [None] when it is carried out. *)
Class OS : Type := {
  os_error : fs_op -> Py.dict file -> option exn
}.

Definition fs_run (ops : list fs_op) (fs : Py.dict file) : Py.dict file :=
  fold_left fs_step ops fs.

Fixpoint ends_with_slash (s : string) : bool :=
  match s with
  | EmptyString => false
  | String c EmptyString => Ascii.eqb c "/"
  | String _ s' => ends_with_slash s'
  end.

(** [os.path.join(a, b)] for a relative [b]. *)
Definition os_path_join (a b : string) : string :=
  match a with
  | EmptyString => b
  | _ => if ends_with_slash a then (a ++ b)%string else (a ++ "/" ++ b)%string
  end.

(** What the module prints: the message of [_load] for the exception it
    caught, and the warning of [get_embedding_model] that the package is
    missing. *)
Inductive line : Type :=
| LoadErrorLine (e : exn)
| InstallWarningLine.

(** ** Computations over the process state *)

Definition M (S A : Type) : Type := S -> result A * S.

Definition ret {S A : Type} (a : A) : M S A := fun w => (Ok a, w).

Definition raise {S A : Type} (e : exn) : M S A := fun w => (Raise e, w).

Definition bind {S A B : Type} (m : M S A) (k : A -> M S B) : M S B :=
  fun w =>
    match m w with
    | (Ok a, w') => k a w'
    | (Raise e, w') => (Raise e, w')
    end.

Definition lift {S A : Type} (r : result A) : M S A := fun w => (r, w).

(** [try: body  except Exception as e: handler e] *)
Definition try_except {S A : Type} (body : M S A) (handler : exn -> M S A)
  : M S A :=
  fun w =>
    match body w with
    | (Ok a, w') => (Ok a, w')
    | (Raise e, w') => handler e w'
    end.

Notation "x <- c ;; k" := (bind c (fun x => k))
  (at level 61, c at next level, right associativity).
Notation "c ;;; k" := (bind c (fun _ => k))
  (at level 61, right associativity).

(** [for x in l: body x] *)
Fixpoint for_each {S A : Type} (l : list A) (body : A -> M S unit)
  : M S unit :=
  match l with
  | [] => ret tt
  | x :: l' => body x ;;; for_each l' body
  end.

(** [[f x for x in l]] with a fallible [f]. *)
Fixpoint collect {S A B : Type} (l : list A) (f : A -> M S B)
  : M S (list B) :=
  match l with
  | [] => ret []
  | x :: l' => y <- f x ;; ys <- collect l' f ;; ret (y :: ys)
  end.

(** ** Results handed to the callers *)

(** One entry of [search]'s result list. *)
Record hit : Type := mkHit {
  hit_content : string;
  hit_metadata : Py.dict mval;
  similarity : float
}.

(** One entry of [chunks_detail]. *)
Record chunk : Type := mkChunk {
  index : mval;
  chunk_content : string
}.

(** The dictionary [get_document_content] returns. *)
Record document_content : Type := mkContent {
  dc_doc_id : string;
  name : mval;
  chunks : nat;
  full_content : string;
  chunks_detail : list chunk
}.

(** The order of Python's [<] on the metadata values; integers and strings
    do not compare with each other. *)
Definition mval_lt (a b : mval) : bool :=
  match a, b with
  | MInt x, MInt y => (x <? y)%Z
  | MStr x, MStr y => String.ltb x y
  | _, _ => false
  end.

Definition same_type (a b : mval) : bool :=
  match a, b with
  | MInt _, MInt _ => true
  | MStr _, MStr _ => true
  | _, _ => false
  end.

(** [l.sort(key=...)]: stable; a comparison between an [int] and a [str]
    raises [TypeError], and sorting two or more keys of mixed types makes
    one. *)
Definition list_sort {A : Type} (key : A -> mval) (l : list A)
  : result (list A) :=
  match l with
  | [] => Ok []
  | x :: rest =>
      if forallb (fun y => same_type (key x) (key y)) rest
      then Ok (Py.stable_sort (fun a b => mval_lt (key a) (key b)) l)
      else Raise TypeError
  end.

Definition paragraph_separator : string :=
  String "010"%char (String "010"%char EmptyString).

(** The cosine similarity of every row of [E] with [q]:
    [np.dot(E, q) / (np.linalg.norm(E, axis=1) * np.linalg.norm(q))].
    A division by zero yields NaN or an infinity, as numpy's does. *)
Definition cosine_similarities {numpy : Np.Routines} (E : Np.matrix)
    (q : Np.vector) : result Np.vector :=
  match Np.matvec E q with
  | Ok dots =>
      let norms := map (fun n => (n * Np.norm q)%float) (Np.row_norms E) in
      Ok (map (fun p => (fst p / snd p)%float) (combine dots norms))
  | Raise e => Raise e
  end.

(** ** The store *)

Record SimpleVectorStore : Type := mkStore {
  persist_path : string;
  documents : Py.dict Document;
  embeddings : option Np.matrix;
  doc_ids : list string
}.

Definition with_documents (d : Py.dict Document) (s : SimpleVectorStore) :=
  mkStore (persist_path s) d (embeddings s) (doc_ids s).
Definition with_embeddings (e : option Np.matrix) (s : SimpleVectorStore) :=
  mkStore (persist_path s) (documents s) e (doc_ids s).
Definition with_doc_ids (l : list string) (s : SimpleVectorStore) :=
  mkStore (persist_path s) (documents s) (embeddings s) l.

Definition data_file (s : SimpleVectorStore) : string :=
  os_path_join (persist_path s) "documents.json".

(** The file operations of one [_save]: open the data file for writing,
    which truncates it, then write the text of the whole record set. *)
Definition _save_ops (s : SimpleVectorStore) : list fs_op :=
  OpenW (data_file s)
  :: map (Write (data_file s))
       (json_dump (map asdict (Py.values (documents s)))).

Section VectorStore.

(** numpy's global generator: its state, [np.random.seed] and
    [np.random.randn]. *)
Variable rng : Type.
Variable np_random_seed : Z -> rng.
Variable np_random_randn : nat -> rng -> list float * rng.
(** [int(hashlib.md5(text.encode()).hexdigest(), 16)].  A text is a string
    of bytes, the UTF-8 encoding of the Python string: the texts of the
    model are those [str.encode] accepts. *)
Variable md5_int : string -> Z.
(** What [get_embedding_model()] returns: the sentence encoder, or [None]
    when the package is missing.  An encoder that raises on every text
    stands for a model whose loading raises. *)
Variable encoder : option (string -> result (list float)).
(** [datetime.now().isoformat()] at the n-th reading of the clock. *)
Variable isoformat : nat -> string.
(** numpy's routines and the operating system. *)
Context {numpy : Np.Routines} {os : OS}.

Record World : Type := mkWorld {
  self : SimpleVectorStore;
  fs : Py.dict file;
  stdout : list line;
  np_random : rng;
  clock : nat
}.

Definition with_self (s : SimpleVectorStore) (w : World) : World :=
  mkWorld s (fs w) (stdout w) (np_random w) (clock w).
Definition with_fs (f : Py.dict file) (w : World) : World :=
  mkWorld (self w) f (stdout w) (np_random w) (clock w).
Definition with_stdout (l : list line) (w : World) : World :=
  mkWorld (self w) (fs w) l (np_random w) (clock w).
Definition with_np_random (r : rng) (w : World) : World :=
  mkWorld (self w) (fs w) (stdout w) r (clock w).
Definition with_clock (n : nat) (w : World) : World :=
  mkWorld (self w) (fs w) (stdout w) (np_random w) n.

Definition get_self : M World SimpleVectorStore := fun w => (Ok (self w), w).
Definition modify_self (f : SimpleVectorStore -> SimpleVectorStore)
  : M World unit :=
  fun w => (Ok tt, with_self (f (self w)) w).
Definition print (l : line) : M World unit :=
  fun w => (Ok tt, with_stdout (stdout w ++ [l]) w).
Definition datetime_now : M World string :=
  fun w => (Ok (isoformat (clock w)), with_clock (S (clock w)) w).

(** [_rebuild_index] *)
Definition _rebuild_index : M World unit :=
  s <- get_self ;;
  match documents s with
  | _ :: _ =>
      modify_self (with_doc_ids (Py.keys (documents s))) ;;;
      rows <- collect (Py.keys (documents s))
                (fun doc_id =>
                   match Py.get doc_id (documents s) with
                   | Some doc => ret (embedding doc)
                   | None => raise KeyError
                   end) ;;
      E <- lift (Np.array rows) ;;
      modify_self (with_embeddings (Some E))
  | [] =>
      modify_self (with_embeddings None) ;;;
      modify_self (with_doc_ids [])
  end.

(** One operation on the file system: it raises what the system answers,
    or is carried out. *)
Definition os_call (op : fs_op) : M World unit :=
  fun w =>
    match os_error op (fs w) with
    | Some e => (Raise e, w)
    | None => (Ok tt, with_fs (fs_step (fs w) op) w)
    end.

(** [_save]: the file operations in turn, up to the first that raises. *)
Definition _save : M World unit :=
  s <- get_self ;;
  for_each (_save_ops s) os_call.

(** A [_save] cut short after [n] of its file operations. *)
Definition _save_interrupted (n : nat) (w : World) : World :=
  with_fs (fs_run (firstn n (_save_ops (self w))) (fs w)) w.

(** The [try] block of [_load], for the text [f] of the data file. *)
Definition load_body (f : file) : M World unit :=
  data <- lift (json_load f) ;;
  for_each data
    (fun doc_data =>
       doc <- lift (Document_of doc_data) ;;
       modify_self
         (fun s => with_documents (Py.set (id doc) doc (documents s)) s)) ;;;
  _rebuild_index.

(** [_load]: the file is opened inside the [try] block. *)
Definition _load : M World unit :=
  s <- get_self ;;
  fun w =>
    match Py.get (data_file s) (fs w) with
    | Some f =>
        try_except (os_call (OpenR (data_file s)) ;;; load_body f)
          (fun e => print (LoadErrorLine e)) w
    | None => (Ok tt, w)
    end.

(** [__init__] *)
Definition __init__ (path : string) : M World unit :=
  modify_self (fun _ => mkStore path [] None []) ;;;
  os_call (MakeDirs path) ;;;
  _load.

(** [get_embedding_model]: while the package is missing every call prints
    the warning and returns [None]. *)
Definition get_embedding_model
  : M World (option (string -> result (list float))) :=
  match encoder with
  | Some model => ret (Some model)
  | None => print InstallWarningLine ;;; ret None
  end.

(** [_get_embedding] *)
Definition _get_embedding (text : string) : M World (list float) :=
  model <- get_embedding_model ;;
  match model with
  | None =>
      fun w =>
        let hash_val := md5_int text in
        let seeded := np_random_seed (hash_val mod 2 ^ 32)%Z in
        let (v, r) := np_random_randn 384 seeded in
        (Ok v, with_np_random r w)
  | Some model => lift (model text)
  end.

Definition chunk_id_of (doc_id : string) (i : nat) : string :=
  (doc_id ++ "_chunk_" ++ Py.str_of_nat i)%string.

(** The loop of [add], from position [i] on, with [added] counted so far. *)
Fixpoint add_loop (doc_id : string) (metadata : Py.dict mval)
    (i : nat) (texts : list string) (added : nat) : M World nat :=
  match texts with
  | [] => ret added
  | text :: rest =>
      let chunk_id := chunk_id_of doc_id i in
      embedding <- _get_embedding text ;;
      now <- datetime_now ;;
      let doc :=
        mkDocument chunk_id doc_id text embedding
          (Py.set "chunk_index" (MInt (Z.of_nat i)) metadata) now in
      modify_self (fun s => with_documents (Py.set chunk_id doc (documents s)) s) ;;;
      add_loop doc_id metadata (S i) rest (S added)
  end.

(** [add] *)
Definition add (doc_id : string) (texts : list string)
    (metadata : Py.dict mval) : M World nat :=
  added <- add_loop doc_id metadata 0 texts 0 ;;
  _rebuild_index ;;;
  _save ;;;
  ret added.

(** The body of [search]'s result loop for one index. *)
Definition result_at (s : SimpleVectorStore) (similarities : Np.vector)
    (idx : nat) : M World hit :=
  match nth_error (doc_ids s) idx with
  | None => raise IndexError
  | Some doc_id =>
      match Py.get doc_id (documents s) with
      | None => raise KeyError
      | Some doc =>
          match nth_error similarities idx with
          | None => raise IndexError
          | Some sim => ret (mkHit (content doc) (metadata doc) sim)
          end
      end
  end.

(** [search] *)
Definition search (query : string) (top_k : Z) : M World (list hit) :=
  s <- get_self ;;
  match documents s, embeddings s with
  | [], _ => ret []
  | _ :: _, None => ret []
  | _ :: _, Some E =>
      query_embedding <- _get_embedding query ;;
      similarities <- lift (cosine_similarities E query_embedding) ;;
      let top_indices :=
        Py.slice_to top_k (rev (Np.argsort similarities)) in
      collect top_indices (result_at s similarities)
  end.

(** [delete_by_doc_id] *)
Definition delete_by_doc_id (doc_id_ : string) : M World bool :=
  s <- get_self ;;
  let to_delete :=
    map fst (filter (fun kv => String.eqb (doc_id (snd kv)) doc_id_)
               (documents s)) in
  match to_delete with
  | [] => ret false
  | _ :: _ =>
      for_each to_delete
        (fun k => modify_self (fun s => with_documents (Py.del k (documents s)) s)) ;;;
      _rebuild_index ;;;
      _save ;;;
      ret true
  end.

(** [get_document_content]; [None] is the not-found marker. *)
Definition get_document_content (doc_id_ : string)
  : M World (option document_content) :=
  s <- get_self ;;
  let members :=
    filter (fun doc => String.eqb (doc_id doc) doc_id_)
      (Py.values (documents s)) in
  let gathered :=
    map (fun doc =>
           mkChunk (Py.get_default "chunk_index" (MInt 0) (metadata doc))
             (content doc))
      members in
  match members with
  | [] => ret None
  | first :: _ =>
      sorted <- lift (list_sort index gathered) ;;
      let full := String.concat paragraph_separator
                    (map chunk_content sorted) in
      ret (Some (mkContent doc_id_
                   (Py.get_default "source" (MStr "Unknown") (metadata first))
                   (List.length sorted) full sorted))
  end.

End VectorStore.

Arguments mkWorld {rng}.

(** ** The list of sources *)

(** One entry of the list [get_all_sources] returns. *)
Record source_entry : Type := mkSource {
  source_id : string;
  source_name : mval;
  source_chunks : nat
}.

(** The body of the loop of [get_all_sources] for one record: the group
    gets an entry with no chunks when it has none yet, then the count of
    its entry goes up by one. *)
Definition count_source (sources : Py.dict source_entry) (doc : Document)
  : result (Py.dict source_entry) :=
  let doc_id_ := doc_id doc in
  let sources1 :=
    match Py.get doc_id_ sources with
    | None =>
        Py.set doc_id_
          (mkSource doc_id_
             (Py.get_default "source" (MStr "Unknown") (metadata doc)) 0)
          sources
    | Some _ => sources
    end in
  match Py.get doc_id_ sources1 with
  | Some e =>
      Ok (Py.set doc_id_
            (mkSource (source_id e) (source_name e) (S (source_chunks e)))
            sources1)
  | None => Raise KeyError
  end.

Fixpoint count_sources (docs : list Document)
    (sources : Py.dict source_entry) : result (Py.dict source_entry) :=
  match docs with
  | [] => Ok sources
  | doc :: rest =>
      match count_source sources doc with
      | Ok sources' => count_sources rest sources'
      | Raise e => Raise e
      end
  end.

Section Sources.
Context {rng : Type}.

(** [get_all_sources] *)
Definition get_all_sources : M (World rng) (list source_entry) :=
  s <- get_self (rng := rng) ;;
  sources <- lift (count_sources (Py.values (documents s)) []) ;;
  ret (Py.values sources).

End Sources.

(** ** The chunker of [document_processor.py]

    A Python [str] is a list of characters.  The alphabet is a parameter,
    given with what the code asks of a character: whether it is whitespace
    ([\s] of the pattern and of [strip]), whether it is one of the sentence
    ends [.!?], and which one is the space the loop appends. *)

(** [x or default] for an optional [int]: [None] and [0] are false. *)
Definition int_or (x : option Z) (default : Z) : Z :=
  match x with
  | None => default
  | Some 0%Z => default
  | Some v => v
  end.

Module Str.
Section Str.
Context {char : Type} (isspace : char -> bool).

Fixpoint lstrip (s : list char) : list char :=
  match s with
  | [] => []
  | c :: s' => if isspace c then lstrip s' else s
  end.

Definition rstrip (s : list char) : list char := rev (lstrip (rev s)).

(** [s.strip()] *)
Definition strip (s : list char) : list char := lstrip (rstrip s).

End Str.

(** [s[a:]]: a negative [a] counts from the end; the start is clamped to
    the string. *)
Definition slice_from {char : Type} (a : Z) (s : list char) : list char :=
  let len := Z.of_nat (length s) in
  skipn (Z.to_nat (if (a <? 0)%Z then Z.max (len + a) 0 else Z.min a len)) s.

End Str.

Section Chunker.

Variable char : Type.
Variable isspace : char -> bool.
Variable is_sentence_end : char -> bool.
Variable space : char.
(** [settings.CHUNK_SIZE] and [settings.CHUNK_OVERLAP] *)
Variable CHUNK_SIZE : Z.
Variable CHUNK_OVERLAP : Z.

(** [re.split(r'(?<=[.!?])\s+', text)], read from [text] on: [piece] is
    the current piece, last character first; [after_end] tells that the
    character before is a sentence end; [in_gap] that a separating run of
    whitespace is being skipped.  A run of whitespace separates two pieces
    when the character before it is a sentence end. *)
Fixpoint split_from (text piece : list char) (after_end in_gap : bool)
  : list (list char) :=
  match text with
  | [] => [rev piece]
  | c :: rest =>
      if in_gap then
        if isspace c then split_from rest [] false true
        else split_from rest [c] (is_sentence_end c) false
      else if isspace c && after_end then
        rev piece :: split_from rest [] false true
      else split_from rest (c :: piece) (is_sentence_end c) false
  end.

Definition split_sentences (text : list char) : list (list char) :=
  split_from text [] false false.

(** The loop of [chunk_text] over the sentences: the chunks so far and the
    chunk being filled. *)
Fixpoint chunk_loop (chunk_size overlap : Z) (sentences : list (list char))
    (chunks : list (list char)) (current_chunk : list char)
  : list (list char) * list char :=
  match sentences with
  | [] => (chunks, current_chunk)
  | sentence :: rest =>
      if (Z.of_nat (length current_chunk) + Z.of_nat (length sentence)
          <=? chunk_size)%Z
      then chunk_loop chunk_size overlap rest chunks
             (current_chunk ++ sentence ++ [space])
      else
        let chunks' :=
          match current_chunk with
          | [] => chunks
          | _ :: _ => chunks ++ [Str.strip isspace current_chunk]
          end in
        let overlap_text :=
          if (overlap <? Z.of_nat (length current_chunk))%Z
          then Str.slice_from (- overlap) current_chunk
          else current_chunk in
        chunk_loop chunk_size overlap rest chunks'
          (overlap_text ++ sentence ++ [space])
  end.

(** [chunk_text] *)
Definition chunk_text (text : list char) (chunk_size overlap : option Z)
  : list (list char) :=
  let chunk_size := int_or chunk_size CHUNK_SIZE in
  let overlap := int_or overlap CHUNK_OVERLAP in
  let sentences := split_sentences text in
  let (chunks, current_chunk) :=
    chunk_loop chunk_size overlap sentences [] [] in
  match Str.strip isspace current_chunk with
  | [] => chunks
  | _ :: _ => chunks ++ [Str.strip isspace current_chunk]
  end.

End Chunker.


(** ** Stand-ins for the collaborators

    Small, total versions of the encoder, the hash, the generator, the
    clock, numpy's routines and the operating system, used to run the store
    on concrete inputs. *)

Module Double.

Definition rng : Type := nat.

Definition np_random_seed (z : Z) : rng := Z.to_nat z.

Definition np_random_randn (n : nat) (r : rng) : list float * rng :=
  (repeat (PrimFloat.of_uint63 (Uint63.of_Z (Z.of_nat r))) n, S r).

Definition md5_int (s : string) : Z := Z.of_nat (String.length s).

Definition isoformat (n : nat) : string := "2026-01-01T00:00:00".

(** An encoder into the plane that fails on one text. *)
Definition model (text : string) : result (list float) :=
  if String.eqb text "boom" then Raise EncoderError
  else if String.eqb text "zero" then Ok [0%float; 0%float]
  else if String.eqb text "east" then Ok [1%float; 0%float]
  else if String.eqb text "north" then Ok [0%float; 1%float]
  else Ok [1%float; 1%float].

Definition empty_store : SimpleVectorStore :=
  mkStore "data" [] None [].

Definition world_of (s : SimpleVectorStore) (files : Py.dict file)
  : World rng :=
  mkWorld s files [] 0 0.

(** [np.dot] and [np.linalg.norm] adding up from left to right. *)
Definition dot (u v : Np.vector) : float :=
  fold_left (fun acc p => (acc + fst p * snd p)%float) (combine u v) 0%float.

Definition norm (v : Np.vector) : float :=
  PrimFloat.sqrt (fold_left (fun acc x => (acc + x * x)%float) v 0%float).

(** [np.argsort] as a stable insertion sort: one of the orders numpy's
    default kind may return, and the one it returns for two values. *)
Definition argsort (v : Np.vector) : list nat :=
  map fst
    (Py.stable_sort (fun p q : nat * float => Np.lt (snd p) (snd q))
       (combine (seq 0 (length v)) v)).

#[local] Instance numpy : Np.Routines :=
  {| Np.dot := dot; Np.norm := norm; Np.row_norm := norm;
     Np.argsort := argsort |}.

(** A file system that carries out every operation. *)
#[local] Instance os : OS :=
  {| os_error := fun _ _ => None |}.

(** A file system that lets no file be opened for writing. *)
Definition read_only : OS :=
  {| os_error := fun op _ =>
                   match op with
                   | OpenW _ => Some OSError
                   | _ => None
                   end |}.

Definition add := add np_random_seed np_random_randn md5_int (Some model) isoformat.
Definition search := search np_random_seed np_random_randn md5_int (Some model).
Definition fallback_embedding :=
  _get_embedding np_random_seed np_random_randn md5_int None.

Local Open Scope string_scope.

(** Sample records: chunk [i] of group [g]. *)
Definition doc (i : nat) (g text : string) (e : list float) : Document :=
  mkDocument (chunk_id_of g i) g text e
    [("source", MStr "pets.txt"); ("chunk_index", MInt (Z.of_nat i))]
    (isoformat 0).

Definition doc_east : Document := doc 0 "g" "alpha" [1%float; 0%float].
Definition doc_north : Document := doc 1 "g" "beta" [0%float; 1%float].
Definition doc_zero : Document := doc 0 "h" "gamma" [0%float; 0%float].

(** The store holding [docs], with its index built. *)
Definition store_of (docs : list Document) : SimpleVectorStore :=
  mkStore "data" (map (fun d => (id d, d)) docs)
    (match docs with [] => None | _ :: _ => Some (map embedding docs) end)
    (map id docs).

(** A file system whose snapshot holds [docs]. *)
Definition snapshot_of (docs : list Document) : Py.dict file :=
  [("data/documents.json", json_dump (map asdict docs))].


End Double.

(** ** Texts of ASCII characters

    The chunker on lists of [ascii]: whitespace is what [str.isspace]
    accepts among the ASCII characters, the sentence ends are those of the
    pattern, and the sizes are the defaults of [config.py]. *)

Module Plain.

Definition isspace (c : ascii) : bool :=
  let n := nat_of_ascii c in
  Nat.eqb n 32
  || (Nat.leb 9 n && Nat.leb n 13)
  || (Nat.leb 28 n && Nat.leb n 31).

Definition is_sentence_end (c : ascii) : bool :=
  Ascii.eqb c "." || Ascii.eqb c "!" || Ascii.eqb c "?".

Definition space : ascii := " ".

Definition CHUNK_SIZE : Z := 500.
Definition CHUNK_OVERLAP : Z := 50.

Definition chunk_text (text : string) (chunk_size overlap : option Z)
  : list string :=
  map string_of_list_ascii
    (chunk_text isspace is_sentence_end space CHUNK_SIZE CHUNK_OVERLAP
       (list_ascii_of_string text) chunk_size overlap).

Local Open Scope string_scope.

(** A record of group [h] with an embedding of three entries. *)
Definition doc_three : Document :=
  mkDocument (chunk_id_of "h" 0) "h" "delta"
    [1%float; 0%float; 0%float]
    [("source", MStr "notes.txt"); ("chunk_index", MInt 0)]
    "2026-01-01T00:00:00".

End Plain.


(** ** Vocabulary of the properties *)

(** The rows of the similarity index; there is none when [embeddings] is
    [None]. *)
Definition index_rows (s : SimpleVectorStore) : Np.matrix :=
  match embeddings s with
  | Some E => E
  | None => []
  end.

(** The id list is the record ids in record order, and row [i] of the index
    is the embedding of record [i]. *)
Definition aligned (s : SimpleVectorStore) : Prop :=
  doc_ids s = Py.keys (documents s)
  /\ index_rows s = map embedding (Py.values (documents s)).

(** All the embeddings of a record set have one length, so [np.array]
    accepts them. *)
Definition uniform_dim (docs : Py.dict Document) : bool :=
  is_ok (Np.array (map embedding (Py.values docs))).

(** The encoder raises [e] on [text]. *)
Definition embedding_raises (encoder : option (string -> result (list float)))
    (text : string) (e : exn) : Prop :=
  exists model, encoder = Some model /\ model text = Raise e.

(** The encoder, when there is one, accepts [text]; the fallback always
    produces a vector. *)
Definition embedding_succeeds
    (encoder : option (string -> result (list float))) (text : string) : Prop :=
  forall model, encoder = Some model -> is_ok (model text) = true.

(** What the loop leaves alone. *)
Definition loop_frame {rng : Type} (w w1 : World rng) : Prop :=
  fs w1 = fs w
  /\ persist_path (self w1) = persist_path (self w)
  /\ embeddings (self w1) = embeddings (self w)
  /\ doc_ids (self w1) = doc_ids (self w).

(** [doc] is the record built for the text at position [fst p]. *)
Definition chunk_of (g : string) (md : Py.dict mval) (p : nat * string)
    (doc : Document) : Prop :=
  id doc = chunk_id_of g (fst p) /\ doc_id doc = g /\ content doc = snd p
  /\ metadata doc = Py.set "chunk_index" (MInt (Z.of_nat (fst p))) md.

(** [self.documents[doc.id] = doc] for each of [docs] in turn. *)
Definition store_all (docs : list Document) (d : Py.dict Document)
  : Py.dict Document :=
  fold_left (fun d doc => Py.set (id doc) doc d) docs d.

(** [del self.documents[k]] for each of [ks] in turn. *)
Definition delete_all (ks : list string) (d : Py.dict Document)
  : Py.dict Document :=
  fold_left (fun d k => Py.del k d) ks d.

(** [k] is not a key of [d] yet. *)
Definition fresh_in (d : Py.dict Document) (k : string) : bool :=
  negb (existsb (String.eqb k) (Py.keys d)).

(** The file an operation addresses. *)
Definition op_path (op : fs_op) : string :=
  match op with
  | OpenW p => p
  | Write p _ => p
  | MakeDirs p => p
  | OpenR p => p
  end.

(** The store the constructor starts from. *)
Definition empty_at (path : string) : SimpleVectorStore :=
  mkStore path [] None [].

(** The records of group [g], in storage order. *)
Definition members (g : string) (s : SimpleVectorStore) : list Document :=
  filter (fun doc => String.eqb (doc_id doc) g) (Py.values (documents s)).

(** The chunk entry [get_document_content] gathers for a record. *)
Definition chunk_entry (doc : Document) : chunk :=
  mkChunk (Py.get_default "chunk_index" (MInt 0) (metadata doc)) (content doc).

(** [a <= b] for two metadata values of one type. *)
Definition mval_le (a b : mval) : Prop := mval_lt b a = false.

(** Classes of IEEE values: the zeros, and the zeros together with NaN. *)
Definition sf_zero (x : spec_float) : bool :=
  match x with S754_zero _ => true | _ => false end.

Definition sf_zero_or_nan (x : spec_float) : bool :=
  match x with S754_zero _ | S754_nan => true | _ => false end.

(** Every entry of [v] is a zero, of either sign. *)
Definition zero_vector (v : Np.vector) : Prop :=
  Forall (fun x => PrimFloat.is_zero x = true) v.

(** What every summation order gives for vectors of zeros: the norm of a
    zero vector is a zero, by either routine, and the product of two vectors
    of one length of which one is zero is a zero, or NaN when the other
    holds an infinity or NaN. *)
Definition zero_sums (numpy : Np.Routines) : Prop :=
  (forall v, zero_vector v -> sf_zero (Prim2SF (Np.norm v)) = true)
  /\ (forall v, zero_vector v -> sf_zero (Prim2SF (Np.row_norm v)) = true)
  /\ (forall r q,
        length r = length q ->
        zero_vector r \/ zero_vector q ->
        sf_zero_or_nan (Prim2SF (Np.dot r q)) = true).

(** The similarity of one row with the query. *)
Definition cosine_row {numpy : Np.Routines} (r q : Np.vector) : float :=
  (Np.dot r q / (Np.row_norm r * Np.norm q))%float.

(** Index [i] may stand before index [j] in the ascending order of [v]:
    [v[j]] is not below [v[i]]. *)
Definition ascending (v : Np.vector) (i j : nat) : Prop :=
  exists x y,
    nth_error v i = Some x /\ nth_error v j = Some y /\ Np.lt y x = false.

(** What numpy documents of [argsort]: the indices of the array, each once,
    in ascending order of value, NaN last. *)
Definition sorts_ascending (argsort : Np.vector -> list nat) : Prop :=
  forall v,
    Permutation (argsort v) (seq 0 (length v))
    /\ Sorted (ascending v) (argsort v).

(** The same for a stable sort: of two entries neither of which is below
    the other the earlier index comes first. *)
Definition rank_le (v : Np.vector) (i j : nat) : Prop :=
  exists x y,
    nth_error v i = Some x /\ nth_error v j = Some y
    /\ Np.lt y x = false /\ (Np.lt x y = false -> i < j).

(** The hit [search] builds for index [idx], or the exception the lookup
    raises. *)
Definition result_of (s : SimpleVectorStore) (similarities : Np.vector)
    (idx : nat) : result hit :=
  match nth_error (doc_ids s) idx with
  | None => Raise IndexError
  | Some doc_id =>
      match Py.get doc_id (documents s) with
      | None => Raise KeyError
      | Some doc =>
          match nth_error similarities idx with
          | None => Raise IndexError
          | Some sim => Ok (mkHit (content doc) (metadata doc) sim)
          end
      end
  end.

(** The results of a list of steps, up to the first that raises. *)
Fixpoint sequence {A : Type} (l : list (result A)) : result (list A) :=
  match l with
  | [] => Ok []
  | Ok a :: l' =>
      match sequence l' with
      | Ok l0 => Ok (a :: l0)
      | Raise e => Raise e
      end
  | Raise e :: _ => Raise e
  end.

(** A hit is sorted before another when its similarity is not below the
    other's in numpy's order (in which NaN is the greatest value). *)
Definition descending (h1 h2 : hit) : Prop :=
  Np.lt (similarity h1) (similarity h2) = false.

(** The hit built from record [d] for the query embedding [qe]. *)
Definition hit_of {numpy : Np.Routines} (qe : Np.vector) (d : Document)
  : hit :=
  mkHit (content d) (metadata d) (cosine_row (embedding d) qe).

(** The similarities of all records with [qe], in record order. *)
Definition similarities_of {numpy : Np.Routines} (s : SimpleVectorStore)
    (qe : Np.vector) : Np.vector :=
  map (fun d => cosine_row (embedding d) qe) (Py.values (documents s)).

(** The record set without the records of group [g], the others in their
    order. *)
Definition without_group (g : string) (docs : Py.dict Document)
  : Py.dict Document :=
  filter (fun kv => negb (String.eqb (doc_id (snd kv)) g)) docs.

(** Every record is stored under its own id. *)
Definition keyed_by_id (docs : Py.dict Document) : Prop :=
  Forall (fun kv => fst kv = id (snd kv)) docs.

(** The text of the snapshot of a record set. *)
Definition snapshot_text (docs : Py.dict Document) : file :=
  json_dump (map asdict (Py.values docs)).


(** The entry [kv] of the source list is right for the records [counted]:
    it is keyed by its id, its group has records among them, its name is
    the source of the first, its count their number. *)
Definition entry_counts (counted : list Document)
    (kv : string * source_entry) : Prop :=
  source_id (snd kv) = fst kv
  /\ exists first rest,
       filter (fun d => String.eqb (doc_id d) (fst kv)) counted = first :: rest
       /\ source_name (snd kv)
          = Py.get_default "source" (MStr "Unknown") (metadata first)
       /\ source_chunks (snd kv) = length (first :: rest).

(** The source list [sources] is right for the records [counted]. *)
Definition sources_count (sources : Py.dict source_entry)
    (counted : list Document) : Prop :=
  Py.wf sources
  /\ Forall (entry_counts counted) sources
  /\ (forall d, In d counted -> In (doc_id d) (Py.keys sources))
  /\ list_sum (map source_chunks (Py.values sources)) = length counted.


(** [s] holds a character that is not whitespace. *)
Definition has_text {char : Type} (isspace : char -> bool) (s : list char)
  : bool :=
  existsb (fun c => negb (isspace c)) s.

(** [c] is not empty and neither begins nor ends with whitespace. *)
Definition trimmed {char : Type} (isspace : char -> bool) (c : list char)
  : bool :=
  match c, rev c with
  | x :: _, y :: _ => negb (isspace x) && negb (isspace y)
  | _, _ => false
  end.

(** [s] occurs in [c] as a run of consecutive characters. *)
Definition occurs_in {char : Type} (s c : list char) : Prop :=
  exists pre post, c = pre ++ s ++ post.

(** The characters of [s] that are not whitespace, in order. *)
Definition text_of {char : Type} (isspace : char -> bool) (s : list char)
  : list char :=
  filter (fun c => negb (isspace c)) s.

(** The sentences written one after the other, a space after each. *)
Definition spaced {char : Type} (space : char) (sentences : list (list char))
  : list char :=
  concat (map (fun s => s ++ [space]) sentences).


(** The chunk being filled is empty, or a body of at most [chunk_size]
    characters followed by the space the loop appends. *)
Definition fills {char : Type} (space : char) (chunk_size : Z)
    (current_chunk : list char) : Prop :=
  current_chunk = []
  \/ exists body,
       current_chunk = body ++ [space]
       /\ (Z.of_nat (length body) <= chunk_size)%Z.

(** 1 for a string that is not empty, 0 for the empty one. *)
Definition pending {char : Type} (current_chunk : list char) : nat :=
  match current_chunk with
  | [] => 0
  | _ :: _ => 1
  end.


(** ** Facts about dictionaries *)

Section DictFacts.
Context {V : Type}.
Implicit Types (d : Py.dict V) (k : string) (v : V).

Lemma get_set_same k v d : Py.get k (Py.set k v d) = Some v.
Proof.
  induction d as [| [k' v'] d IH]; simpl.
  - now rewrite String.eqb_refl.
  - destruct (String.eqb k k') eqn:E; simpl; rewrite ?String.eqb_refl, ?E; auto.
Qed.

Lemma get_set_other k k' v d :
  k <> k' -> Py.get k' (Py.set k v d) = Py.get k' d.
Proof.
  intros Hne. induction d as [| [k0 v0] d IH]; simpl.
  - destruct (String.eqb_spec k' k); congruence.
  - destruct (String.eqb_spec k k0) as [-> | Hk]; simpl.
    + destruct (String.eqb_spec k' k0); congruence.
    + destruct (String.eqb_spec k' k0); auto.
Qed.

Lemma keys_set_in k v d :
  In k (Py.keys d) -> Py.keys (Py.set k v d) = Py.keys d.
Proof.
  induction d as [| [k0 v0] d IH]; simpl; [tauto |].
  intros [-> | Hin].
  - now rewrite String.eqb_refl.
  - destruct (String.eqb_spec k k0) as [-> | Hk]; simpl; [reflexivity |].
    f_equal. now apply IH.
Qed.

Lemma keys_set_notin k v d :
  ~ In k (Py.keys d) -> Py.keys (Py.set k v d) = Py.keys d ++ [k].
Proof.
  induction d as [| [k0 v0] d IH]; simpl; [reflexivity |].
  intros Hnin. destruct (String.eqb_spec k k0) as [-> | Hk]; [tauto |].
  simpl. f_equal. apply IH. tauto.
Qed.

Lemma wf_set k v d : Py.wf d -> Py.wf (Py.set k v d).
Proof.
  unfold Py.wf. intros Hwf.
  destruct (in_dec string_dec k (Py.keys d)) as [Hin | Hnin].
  - now rewrite keys_set_in.
  - rewrite keys_set_notin by assumption.
    apply NoDup_app; [assumption | repeat constructor; simpl; tauto |].
    intros x Hx [<- | []]. contradiction.
Qed.

Lemma keys_del_incl k d : incl (Py.keys (Py.del k d)) (Py.keys d).
Proof.
  induction d as [| [k0 v0] d IH]; simpl; [apply incl_refl |].
  destruct (String.eqb k k0); simpl.
  - apply incl_tl, incl_refl.
  - intros x [<- | Hx]; [now left | right; now apply IH].
Qed.

Lemma wf_del k d : Py.wf d -> Py.wf (Py.del k d).
Proof.
  unfold Py.wf. induction d as [| [k0 v0] d IH]; simpl; [auto |].
  intros Hwf. inversion Hwf as [| ? ? Hnin Hnd]; subst.
  destruct (String.eqb k k0); simpl; [assumption |].
  constructor; [| now apply IH].
  intros Hin. apply Hnin. now apply (keys_del_incl k d).
Qed.

Lemma get_of_keys d :
  Py.wf d -> map (fun k => Py.get k d) (Py.keys d) = map Some (Py.values d).
Proof.
  unfold Py.wf. induction d as [| [k0 v0] d IH]; simpl; [reflexivity |].
  intros Hwf. inversion Hwf as [| ? ? Hnin Hnd]; subst.
  rewrite String.eqb_refl. f_equal.
  rewrite <- IH by assumption. apply map_ext_in.
  intros k Hk. destruct (String.eqb_spec k k0) as [-> | _]; [contradiction | reflexivity].
Qed.

Lemma get_some_in_keys k v d : Py.get k d = Some v -> In k (Py.keys d).
Proof.
  induction d as [| [k0 v0] d IH]; simpl; [discriminate |].
  destruct (String.eqb_spec k k0) as [-> | _]; [now left | right; auto].
Qed.

Lemma get_none_notin_keys k d : Py.get k d = None -> ~ In k (Py.keys d).
Proof.
  induction d as [| [k0 v0] d IH]; simpl; [tauto |].
  destruct (String.eqb_spec k k0) as [-> | Hne]; [discriminate |].
  intros Hg [<- | Hin]; [congruence | now apply IH].
Qed.

End DictFacts.

(** ** The store invariant *)

Lemma array_ok_eq rows E : Np.array rows = Ok E -> E = rows.
Proof.
  destruct rows as [| r rest]; simpl.
  - now intros [= <-].
  - destruct (forallb (fun r' => Nat.eqb (length r') (length r)) rest);
      [now intros [= <-] | discriminate].
Qed.

Lemma aligned_lengths s :
  aligned s ->
  length (index_rows s) = length (documents s)
  /\ length (doc_ids s) = length (documents s).
Proof.
  intros [Hids Hrows]. rewrite Hids, Hrows. unfold Py.keys, Py.values.
  now rewrite !length_map.
Qed.

Section Properties.

Variable rng : Type.
Variable np_random_seed : Z -> rng.
Variable np_random_randn : nat -> rng -> list float * rng.
Variable md5_int : string -> Z.
Variable encoder : option (string -> result (list float)).
Variable isoformat : nat -> string.
Context {numpy : Np.Routines} {os : OS}.

Local Abbreviation get_embedding_ :=
  (_get_embedding np_random_seed np_random_randn md5_int encoder).
Local Abbreviation add_loop_ :=
  (add_loop np_random_seed np_random_randn md5_int encoder isoformat).
Local Abbreviation add_ :=
  (add np_random_seed np_random_randn md5_int encoder isoformat).
Local Abbreviation search_ :=
  (search np_random_seed np_random_randn md5_int encoder).

Implicit Types (w : World rng) (s : SimpleVectorStore).

(** *** Index rebuild *)

Lemma collect_lookup (docs : Py.dict Document) w ks vs :
  map (fun k => Py.get k docs) ks = map Some vs ->
  collect ks
    (fun doc_id =>
       match Py.get doc_id docs with
       | Some doc => ret (embedding doc)
       | None => raise KeyError
       end) w
  = (Ok (map embedding vs), w).
Proof.
  revert vs. induction ks as [| k ks IH]; intros [| v vs]; simpl; try discriminate.
  - reflexivity.
  - intros [= Hk Hks]. unfold bind at 1. rewrite Hk. unfold ret at 1.
    unfold bind at 1. now rewrite (IH vs Hks).
Qed.

(** What [_rebuild_index] does to a record set without repeated keys: on an
    empty one it clears the index; otherwise it sets the id list and then,
    when [np.array] accepts the rows, the matrix. *)
Lemma rebuild_index_eq w :
  Py.wf (documents (self w)) ->
  _rebuild_index w =
  match documents (self w) with
  | [] => (Ok tt, with_self (mkStore (persist_path (self w)) [] None []) w)
  | _ :: _ =>
      let ids := Py.keys (documents (self w)) in
      let rows := map embedding (Py.values (documents (self w))) in
      match Np.array rows with
      | Ok E =>
          (Ok tt,
           with_self (mkStore (persist_path (self w)) (documents (self w))
                        (Some E) ids) w)
      | Raise e =>
          (Raise e,
           with_self (mkStore (persist_path (self w)) (documents (self w))
                        (embeddings (self w)) ids) w)
      end
  end.
Proof.
  intros Hwf. unfold _rebuild_index, bind at 1, get_self.
  destruct (documents (self w)) as [| kv docs] eqn:Hdocs.
  - unfold bind, modify_self, with_self, with_embeddings, with_doc_ids; simpl.
    now rewrite Hdocs.
  - rewrite <- Hdocs in *. cbv zeta.
    unfold bind at 1, modify_self at 1. unfold bind at 1.
    rewrite collect_lookup with (vs := Py.values (documents (self w)))
      by (apply get_of_keys, Hwf).
    unfold bind at 1, lift.
    destruct (Np.array _) as [E | e]; [| reflexivity].
    unfold modify_self, with_self, with_embeddings, with_doc_ids; simpl.
    reflexivity.
Qed.

(** However [_rebuild_index] ends, the record set is the one it found. *)
Lemma rebuild_index_documents w r w' :
  Py.wf (documents (self w)) ->
  _rebuild_index w = (r, w') -> documents (self w') = documents (self w).
Proof.
  intros Hwf. rewrite (rebuild_index_eq _ Hwf).
  destruct (documents (self w)) as [| kv docs] eqn:Hdocs.
  - intros [= _ <-]. reflexivity.
  - cbv zeta. destruct (Np.array _); intros [= _ <-]; reflexivity.
Qed.

Lemma rebuild_index_aligned w w' :
  Py.wf (documents (self w)) ->
  _rebuild_index w = (Ok tt, w') ->
  aligned (self w')
  /\ documents (self w') = documents (self w)
  /\ fs w' = fs w /\ stdout w' = stdout w.
Proof.
  intros Hwf. rewrite (rebuild_index_eq _ Hwf).
  destruct (documents (self w)) as [| kv docs] eqn:Hdocs.
  - intros [= <-]. unfold aligned, index_rows; simpl. auto.
  - cbv zeta. destruct (Np.array _) as [E | e] eqn:HE; [| discriminate].
    intros [= <-]. apply array_ok_eq in HE. subst E.
    unfold aligned, index_rows; simpl. auto.
Qed.

(** *** Embedding *)

Lemma get_embedding_frame text w r w' :
  get_embedding_ text w = (r, w') ->
  self w' = self w /\ fs w' = fs w
  /\ stdout w'
     = match encoder with
       | Some _ => stdout w
       | None => stdout w ++ [InstallWarningLine]
       end
  /\ clock w' = clock w.
Proof.
  unfold _get_embedding, get_embedding_model, bind at 1.
  destruct encoder as [model |].
  - unfold ret, lift. intros [= _ <-]. auto.
  - unfold bind, print, ret.
    destruct (np_random_randn 384 _) as [v r0]. intros [= _ <-]. simpl. auto.
Qed.

Lemma get_embedding_succeeds text w :
  embedding_succeeds encoder text ->
  exists v w', get_embedding_ text w = (Ok v, w').
Proof.
  unfold embedding_succeeds, _get_embedding, get_embedding_model, bind at 1.
  intros Hok. destruct encoder as [model |].
  - specialize (Hok model eq_refl). unfold ret, lift.
    destruct (model text) as [v | e]; [eauto | discriminate].
  - unfold bind, print, ret.
    destruct (np_random_randn 384 _) as [v r0]. eauto.
Qed.

Lemma get_embedding_raises text e w :
  embedding_raises encoder text e -> get_embedding_ text w = (Raise e, w).
Proof.
  intros (model & Henc & Hm).
  unfold _get_embedding, get_embedding_model, bind at 1. rewrite Henc.
  unfold ret, lift. now rewrite Hm.
Qed.

(** *** Saving *)

(** File operations that all complete leave the files as [fs_run] says and
    nothing else changed. *)
Lemma os_calls_ok ops : forall w w',
  for_each ops (os_call (rng := rng)) w = (Ok tt, w') ->
  w' = with_fs (fs_run ops (fs w)) w.
Proof.
  induction ops as [| op ops IH]; intros w w'; simpl.
  - unfold ret. intros [= <-]. now destruct w.
  - unfold bind at 1, os_call at 1.
    destruct (os_error op (fs w)) as [e |]; [discriminate |].
    intros H. apply IH in H. subst w'. reflexivity.
Qed.

(** File operations of which one raises: the files are as the operations
    before it left them. *)
Lemma os_calls_raise ops : forall w e w',
  for_each ops (os_call (rng := rng)) w = (Raise e, w') ->
  exists n op,
    nth_error ops n = Some op
    /\ w' = with_fs (fs_run (firstn n ops) (fs w)) w
    /\ os_error op (fs w') = Some e.
Proof.
  induction ops as [| op ops IH]; intros w e w'; simpl.
  - unfold ret. discriminate.
  - unfold bind at 1, os_call at 1.
    destruct (os_error op (fs w)) as [e0 |] eqn:Hop.
    + intros [= <- <-]. exists 0, op. simpl.
      split; [reflexivity | split; [now destruct w | exact Hop]].
    + intros H. apply IH in H. destruct H as (n & op' & Hn & -> & He).
      exists (S n), op'. simpl. auto.
Qed.

(** On a file system that accepts them, the operations all complete. *)
Lemma os_calls_accepted ops : forall w,
  (forall op, In op ops -> forall fs0, os_error op fs0 = None) ->
  for_each ops (os_call (rng := rng)) w = (Ok tt, with_fs (fs_run ops (fs w)) w).
Proof.
  induction ops as [| op ops IH]; intros w Hacc; simpl.
  - unfold ret. now destruct w.
  - unfold bind at 1, os_call at 1. rewrite (Hacc op) by now left.
    rewrite IH by (intros op' Hin; apply Hacc; now right). reflexivity.
Qed.

Lemma save_ok w w' :
  _save w = (Ok tt, w') ->
  w' = with_fs (fs_run (_save_ops (self w)) (fs w)) w.
Proof. unfold _save, bind, get_self. apply os_calls_ok. Qed.

Lemma save_raise w e w' :
  _save w = (Raise e, w') ->
  exists n, n < length (_save_ops (self w)) /\ w' = _save_interrupted n w.
Proof.
  unfold _save, bind, get_self. intros H. apply os_calls_raise in H.
  destruct H as (n & op & Hn & -> & _). exists n. split; [| reflexivity].
  apply nth_error_Some. congruence.
Qed.

Lemma save_accepted w :
  (forall op, In op (_save_ops (self w)) ->
     forall fs0, os_error op fs0 = None) ->
  _save w = (Ok tt, with_fs (fs_run (_save_ops (self w)) (fs w)) w).
Proof. unfold _save, bind, get_self. apply os_calls_accepted. Qed.

(** However it ends, a save changes nothing but the files. *)
Lemma save_frame w r w' :
  _save w = (r, w') ->
  self w' = self w /\ stdout w' = stdout w /\ clock w' = clock w.
Proof.
  destruct r as [[] | e]; intros H.
  - apply save_ok in H. subst w'. auto.
  - apply save_raise in H. destruct H as (n & _ & ->). auto.
Qed.

(** *** The loop of [add] *)

Lemma loop_frame_refl w : loop_frame w w.
Proof. unfold loop_frame; auto. Qed.

Lemma loop_frame_trans w0 w1 w2 :
  loop_frame w0 w1 -> loop_frame w1 w2 -> loop_frame w0 w2.
Proof. unfold loop_frame. intuition congruence. Qed.

(** The loop over a prefix of texts the encoder accepts stores one record
    per text and continues with the rest. *)
Lemma add_loop_prefix g md pre : forall rest i added w,
  Forall (embedding_succeeds encoder) pre ->
  exists w1 docs,
    add_loop_ g md i (pre ++ rest) added w
    = add_loop_ g md (i + length pre) rest (added + length pre) w1
    /\ loop_frame w w1
    /\ Forall2 (chunk_of g md) (combine (seq i (length pre)) pre) docs
    /\ documents (self w1) = store_all docs (documents (self w)).
Proof.
  induction pre as [| text pre IH]; intros rest i added w Hok.
  - exists w, []. simpl. rewrite !Nat.add_0_r.
    repeat split; auto using loop_frame_refl.
  - inversion Hok as [| ? ? Htext Hpre]; subst.
    destruct (get_embedding_succeeds w Htext) as (v & w0 & Hemb).
    destruct (get_embedding_frame _ _ Hemb) as (Hs & Hf & Ho & Hc).
    set (doc := mkDocument (chunk_id_of g i) g text v
                  (Py.set "chunk_index" (MInt (Z.of_nat i)) md)
                  (isoformat (clock w0))).
    set (w0' := with_self (with_documents
                             (Py.set (chunk_id_of g i) doc (documents (self w0)))
                             (self w0))
                  (with_clock (S (clock w0)) w0)).
    destruct (IH rest (S i) (S added) w0' Hpre)
      as (w1 & docs & Heq & Hfr & Hdocs & Hstore).
    exists w1, (doc :: docs).
    split; [| split; [| split]].
    + simpl app. simpl add_loop. unfold bind at 1. rewrite Hemb.
      unfold bind at 1, datetime_now at 1. unfold bind at 1, modify_self at 1.
      simpl length. rewrite !Nat.add_succ_r. exact Heq.
    + eapply loop_frame_trans; [| exact Hfr].
      unfold loop_frame, w0'; simpl. rewrite Hs, Hf. auto.
    + simpl. constructor; [| exact Hdocs].
      unfold chunk_of; simpl. auto.
    + rewrite Hstore. unfold w0'; simpl. now rewrite Hs.
Qed.

Lemma wf_store_all docs : forall d, Py.wf d -> Py.wf (store_all docs d).
Proof.
  induction docs as [| doc docs IH]; intros d Hwf; simpl; [assumption |].
  apply IH. now apply wf_set.
Qed.

(** However the loop ends, the record set keeps one entry per key. *)
Lemma add_loop_wf g md texts : forall i added w r w1,
  add_loop_ g md i texts added w = (r, w1) ->
  Py.wf (documents (self w)) -> Py.wf (documents (self w1)).
Proof.
  induction texts as [| text texts IH]; intros i added w r w1; simpl.
  - unfold ret. now intros [= _ <-].
  - unfold bind at 1.
    destruct (get_embedding_ text w) as [[v | e] w0] eqn:Hemb.
    + destruct (get_embedding_frame _ _ Hemb) as (Hs & _).
      unfold bind at 1, datetime_now at 1. unfold bind at 1, modify_self at 1.
      intros Hloop Hwf. apply IH in Hloop; [assumption |].
      simpl. rewrite Hs. now apply wf_set.
    + destruct (get_embedding_frame _ _ Hemb) as (Hs & _).
      intros [= _ <-]. now rewrite Hs.
Qed.

(** A loop that completes has counted every text and stored one record per
    text. *)
Lemma add_loop_inv g md texts : forall i added w n w1,
  add_loop_ g md i texts added w = (Ok n, w1) ->
  n = added + length texts
  /\ exists docs,
       Forall2 (chunk_of g md) (combine (seq i (length texts)) texts) docs
       /\ documents (self w1) = store_all docs (documents (self w)).
Proof.
  induction texts as [| text texts IH]; intros i added w n w1; simpl.
  - unfold ret. intros [= <- <-]. split; [lia |].
    exists []. split; [constructor | reflexivity].
  - unfold bind at 1.
    destruct (get_embedding_ text w) as [[v | e] w0] eqn:Hemb; [| discriminate].
    destruct (get_embedding_frame _ _ Hemb) as (Hs & _).
    unfold bind at 1, datetime_now at 1. unfold bind at 1, modify_self at 1.
    intros Hloop. apply IH in Hloop. destruct Hloop as (-> & docs & Hdocs & Hst).
    split; [lia |].
    exists (mkDocument (chunk_id_of g i) g text v
              (Py.set "chunk_index" (MInt (Z.of_nat i)) md)
              (isoformat (clock w0)) :: docs).
    split.
    + constructor; [| exact Hdocs]. unfold chunk_of; simpl. auto.
    + rewrite Hst. simpl. now rewrite Hs.
Qed.

(** The three stages of a completed [add]. *)
Lemma add_inv g texts md w n w' :
  add_ g texts md w = (Ok n, w') ->
  exists w1 w2,
    add_loop_ g md 0 texts 0 w = (Ok n, w1)
    /\ _rebuild_index w1 = (Ok tt, w2)
    /\ w' = with_fs (fs_run (_save_ops (self w2)) (fs w2)) w2.
Proof.
  unfold add, bind at 1.
  destruct (add_loop_ g md 0 texts 0 w) as [[added | e] w1] eqn:Hloop;
    [| discriminate].
  unfold bind at 1.
  destruct (_rebuild_index w1) as [[[] | e] w2] eqn:Hre; [| discriminate].
  unfold bind at 1.
  destruct (_save w2) as [[[] | e] w3] eqn:Hsave; [| discriminate].
  unfold ret. intros [= <- <-]. apply save_ok in Hsave.
  exists w1, w2. repeat split; assumption || reflexivity.
Qed.


(** When the loop completes and [np.array] accepts the rows, [add] rebuilds
    the index and ends as the save of the rebuilt store ends. *)
Lemma add_after_rebuild g texts md w n w1 :
  add_loop_ g md 0 texts 0 w = (Ok n, w1) ->
  Py.wf (documents (self w1)) ->
  uniform_dim (documents (self w1)) = true ->
  exists w2,
    _rebuild_index w1 = (Ok tt, w2)
    /\ documents (self w2) = documents (self w1)
    /\ aligned (self w2)
    /\ fs w2 = fs w1
    /\ add_ g texts md w
       = match _save w2 with
         | (Ok _, w') => (Ok n, w')
         | (Raise e, w') => (Raise e, w')
         end.
Proof.
  intros Hloop Hwf Hdim. unfold add, bind at 1. rewrite Hloop.
  unfold bind at 1. rewrite (rebuild_index_eq _ Hwf).
  unfold uniform_dim in Hdim.
  destruct (documents (self w1)) as [| kv docs] eqn:Hdocs.
  - eexists. split; [reflexivity |]. simpl.
    split; [auto | split; [unfold aligned, index_rows; simpl; auto |]].
    split; [reflexivity |]. unfold bind, ret.
    now destruct (_save _) as [[[] | e] w3].
  - cbv zeta. destruct (Np.array _) as [E | e] eqn:HE; [| discriminate].
    apply array_ok_eq in HE. subst E.
    eexists. split; [reflexivity |]. simpl.
    split; [reflexivity | split; [unfold aligned, index_rows; simpl; auto |]].
    split; [reflexivity |]. unfold bind, ret.
    now destruct (_save _) as [[[] | e] w3].
Qed.

(** The file system carries out every operation. *)
Hypothesis os_accepts : forall op fs0, os_error op fs0 = None.

(** When the loop completes and [np.array] accepts the rows, so does [add]
    on a file system that accepts the save. *)
Lemma add_after_loop g texts md w n w1 :
  add_loop_ g md 0 texts 0 w = (Ok n, w1) ->
  Py.wf (documents (self w1)) ->
  uniform_dim (documents (self w1)) = true ->
  exists w',
    add_ g texts md w = (Ok n, w')
    /\ documents (self w') = documents (self w1)
    /\ aligned (self w').
Proof.
  intros Hloop Hwf Hdim.
  destruct (@add_after_rebuild g texts md w n w1 Hloop Hwf Hdim)
    as (w2 & _ & Hd & Hal & _ & ->).
  rewrite save_accepted by (intros op _; apply os_accepts).
  eexists. split; [reflexivity |]. simpl. auto.
Qed.

(** *** Deleting a group *)

Lemma wf_delete_all ks : forall d, Py.wf d -> Py.wf (delete_all ks d).
Proof.
  induction ks as [| k ks IH]; intros d Hwf; simpl; [assumption |].
  apply IH. now apply wf_del.
Qed.

Lemma for_each_del ks : forall w,
  for_each ks
    (fun k => modify_self
                (fun s => with_documents (Py.del k (documents s)) s)) w
  = (Ok tt,
     with_self (with_documents (delete_all ks (documents (self w))) (self w)) w).
Proof.
  induction ks as [| k ks IH]; intros w; simpl.
  - unfold ret, with_self, with_documents. now destruct w as [[] ? ? ? ?].
  - unfold bind at 1, modify_self at 1. now rewrite IH.
Qed.

Lemma delete_true_inv doc_id_ w w' :
  delete_by_doc_id doc_id_ w = (Ok true, w') ->
  exists w1 w2,
    Py.wf (documents (self w)) -> Py.wf (documents (self w1)) /\
    _rebuild_index w1 = (Ok tt, w2)
    /\ self w' = self w2.
Proof.
  unfold delete_by_doc_id, bind at 1, get_self.
  destruct (map fst _) as [| k ks]; [unfold ret; discriminate |].
  unfold bind at 1. rewrite for_each_del. unfold bind at 1.
  match goal with |- context [_rebuild_index ?w0] => set (w1 := w0) end.
  destruct (_rebuild_index w1) as [[[] | e] w2] eqn:Hre; [| discriminate].
  unfold bind at 1.
  destruct (_save w2) as [[[] | e] w3] eqn:Hsave; [| discriminate].
  unfold ret. intros [= <-]. apply save_frame in Hsave.
  exists w1, w2. intros Hwf. split; [| tauto].
  unfold w1; simpl. now apply (wf_delete_all (k :: ks)).
Qed.

Lemma delete_false_inv doc_id_ w w' :
  delete_by_doc_id doc_id_ w = (Ok false, w') -> w' = w.
Proof.
  unfold delete_by_doc_id, bind at 1, get_self.
  destruct (map fst _) as [| k ks]; [unfold ret; now intros [= <-] |].
  unfold bind at 1. rewrite for_each_del. unfold bind at 1.
  destruct (_rebuild_index _) as [[[] | e] w2]; [| discriminate].
  unfold bind at 1. destruct (_save w2) as [[[] | e] w3]; discriminate.
Qed.

(** *** Chunk ids and the records a batch stores *)

Lemma append_cancel_l (s a b : string) :
  (s ++ a)%string = (s ++ b)%string -> a = b.
Proof. induction s as [| c s IH]; simpl; [auto | intros [= H]; auto]. Qed.

Lemma str_of_nat_inj i j : Py.str_of_nat i = Py.str_of_nat j -> i = j.
Proof.
  unfold Py.str_of_nat. intros H.
  apply Unsigned.to_uint_inj.
  assert (Hs : Some (Nat.to_uint i) = Some (Nat.to_uint j))
    by (rewrite <- !NilEmpty.usu; now rewrite H).
  now injection Hs.
Qed.

Lemma chunk_id_of_inj g i j : chunk_id_of g i = chunk_id_of g j -> i = j.
Proof.
  unfold chunk_id_of. intros H.
  apply append_cancel_l in H. apply (append_cancel_l "_chunk_") in H.
  now apply str_of_nat_inj.
Qed.

Lemma chunk_ids_NoDup g i n : NoDup (map (chunk_id_of g) (seq i n)).
Proof.
  apply Finite.Injective_map_NoDup; [| apply seq_NoDup].
  intros a b. apply chunk_id_of_inj.
Qed.

Lemma chunk_of_ids g md : forall ps docs,
  Forall2 (chunk_of g md) ps docs ->
  map id docs = map (fun p => chunk_id_of g (fst p)) ps.
Proof.
  induction 1 as [| p doc ps docs [Hid _] _ IH]; simpl; [reflexivity |].
  now rewrite Hid, IH.
Qed.

Lemma map_fst_combine_seq {A : Type} (l : list A) i :
  map fst (combine (seq i (length l)) l) = seq i (length l).
Proof.
  revert i. induction l as [| x l IH]; intros i; simpl; [reflexivity |].
  now rewrite IH.
Qed.

Lemma batch_ids g md texts i docs :
  Forall2 (chunk_of g md) (combine (seq i (length texts)) texts) docs ->
  map id docs = map (chunk_id_of g) (seq i (length texts)).
Proof.
  intros H. rewrite (chunk_of_ids H).
  transitivity
    (map (chunk_id_of g) (map fst (combine (seq i (length texts)) texts))).
  - now rewrite map_map.
  - now rewrite map_fst_combine_seq.
Qed.

Lemma store_all_get_other docs : forall d k,
  ~ In k (map id docs) -> Py.get k (store_all docs d) = Py.get k d.
Proof.
  induction docs as [| doc docs IH]; intros d k Hnin; simpl; [reflexivity |].
  simpl in Hnin. rewrite IH by tauto. apply get_set_other. tauto.
Qed.

Lemma store_all_get docs : forall d doc,
  NoDup (map id docs) -> In doc docs ->
  Py.get (id doc) (store_all docs d) = Some doc.
Proof.
  induction docs as [| doc0 docs IH]; intros d doc Hnd Hin; simpl; [contradiction |].
  simpl in Hnd. inversion Hnd as [| ? ? Hnin Hnd']; subst.
  destruct Hin as [-> | Hin].
  - rewrite store_all_get_other by assumption. apply get_set_same.
  - now apply IH.
Qed.

Lemma fresh_in_spec d k : fresh_in d k = true <-> ~ In k (Py.keys d).
Proof.
  unfold fresh_in. rewrite negb_true_iff, <- not_true_iff_false, existsb_exists.
  split; intros H.
  - intros Hin. apply H. exists k. now rewrite String.eqb_refl.
  - intros (x & Hx & Heq). apply String.eqb_eq in Heq. now subst.
Qed.

(** The keys after storing a batch: the old keys where they were, then the
    ids that were not there yet, in batch order. *)
Lemma store_all_keys docs : forall d,
  NoDup (map id docs) ->
  Py.keys (store_all docs d) = Py.keys d ++ filter (fresh_in d) (map id docs).
Proof.
  induction docs as [| doc docs IH]; intros d Hnd; simpl.
  - now rewrite app_nil_r.
  - inversion Hnd as [| ? ? Hnin Hnd']; subst. rewrite IH by assumption.
    destruct (fresh_in d (id doc)) eqn:Hfresh.
    + apply fresh_in_spec in Hfresh. rewrite keys_set_notin by assumption.
      rewrite <- app_assoc. simpl. do 2 f_equal.
      apply filter_ext_in. intros k Hk. unfold fresh_in.
      rewrite keys_set_notin by assumption.
      rewrite existsb_app. simpl. rewrite orb_false_r.
      destruct (String.eqb_spec k (id doc)) as [-> | _]; [contradiction |].
      now rewrite orb_false_r.
    + assert (Hin : In (id doc) (Py.keys d)).
      { destruct (in_dec string_dec (id doc) (Py.keys d)) as [H | H]; [exact H |].
        apply fresh_in_spec in H. congruence. }
      rewrite (keys_set_in _ doc _ Hin). f_equal.
      apply filter_ext. intros k. unfold fresh_in.
      now rewrite (keys_set_in _ doc _ Hin).
Qed.

Lemma nth_error_combine_seq {A : Type} (l : list A) : forall b i x,
  nth_error l i = Some x ->
  nth_error (combine (seq b (length l)) l) i = Some (b + i, x).
Proof.
  induction l as [| y l IH]; intros b [| i] x; simpl; try discriminate.
  - intros [= ->]. now rewrite Nat.add_0_r.
  - intros H. rewrite (IH (S b) i x H). do 2 f_equal. lia.
Qed.

Lemma Forall2_nth_error {A B : Type} (R : A -> B -> Prop) l l' :
  Forall2 R l l' ->
  forall i x, nth_error l i = Some x ->
  exists y, nth_error l' i = Some y /\ R x y.
Proof.
  induction 1 as [| a b l l' Hab _ IH]; intros [| i] x; simpl; try discriminate.
  - intros [= <-]. eauto.
  - apply IH.
Qed.

(** The loop over texts the encoder accepts: it completes, counts every
    text and stores one record per text. *)
Lemma add_loop_completes g md texts w :
  Forall (embedding_succeeds encoder) texts ->
  exists w1 docs,
    add_loop_ g md 0 texts 0 w = (Ok (length texts), w1)
    /\ loop_frame w w1
    /\ Forall2 (chunk_of g md) (combine (seq 0 (length texts)) texts) docs
    /\ documents (self w1) = store_all docs (documents (self w)).
Proof.
  intros Hok.
  destruct (add_loop_prefix g md [] 0 0 w Hok) as (w1 & docs & Heq & H).
  exists w1, docs. split; [| exact H].
  rewrite app_nil_r in Heq. rewrite Heq. reflexivity.
Qed.

(** *** Properties of [add] and [delete_by_doc_id] *)

(** C6 (amended). Immediately after every completed [add], and after every
    [delete_by_doc_id] that removed records, the id list of the index is the
    list of record ids, in record order, row [i] of the matrix is the
    embedding of record [i], and the index has as many rows as the store has
    records: both establish this from any record set.  A delete that finds
    no record of the group returns [False] and leaves the whole state as it
    found it, so also an index that was not aligned. *)
Theorem index_aligned_after_add_and_delete w :
  Py.wf (documents (self w)) ->
  (forall g texts md n w',
      add_ g texts md w = (Ok n, w') ->
      aligned (self w')
      /\ length (index_rows (self w')) = length (documents (self w')))
  /\ (forall g w',
         delete_by_doc_id g w = (Ok true, w') ->
         aligned (self w')
         /\ length (index_rows (self w')) = length (documents (self w')))
  /\ (forall g w',
         delete_by_doc_id g w = (Ok false, w') -> w' = w).
Proof.
  intros Hwf. split; [| split].
  - intros g texts md n w' Hadd.
    destruct (add_inv _ _ _ _ Hadd) as (w1 & w2 & Hloop & Hre & ->).
    apply add_loop_wf in Hloop; [| exact Hwf].
    apply rebuild_index_aligned in Hre; [| exact Hloop].
    destruct Hre as (Hal & _).
    simpl. split; [exact Hal | now apply aligned_lengths].
  - intros g w' Hdel.
    destruct (delete_true_inv _ _ Hdel) as (w1 & w2 & H).
    destruct (H Hwf) as (Hwf1 & Hre & Hself).
    apply rebuild_index_aligned in Hre; [| exact Hwf1].
    destruct Hre as (Hal & _).
    rewrite Hself. split; [exact Hal | now apply aligned_lengths].
  - intros g w' Hdel. now apply delete_false_inv in Hdel.
Qed.


(** C10 (amended). Adding to a group that already has records never
    duplicates a record, and it may fail.  Whenever [add] completes it
    returns the number of texts, the text at position [i] is stored under
    [g_chunk_i], whatever was stored there before, every other record is
    untouched, and the key order is the old keys in their places followed by
    the ids that were new.  However [add] ends, also by raising, the record
    set holds each id once.  And [add] completes when the encoder accepts
    every text, the embeddings of the resulting record set have one length
    and the file system carries out every operation. *)
Theorem add_to_existing_group_replaces w g texts md :
  Py.wf (documents (self w)) ->
  (forall n w',
      add_ g texts md w = (Ok n, w') ->
      n = length texts
      /\ (forall i text,
             nth_error texts i = Some text ->
             exists doc,
               Py.get (chunk_id_of g i) (documents (self w')) = Some doc
               /\ chunk_of g md (i, text) doc)
      /\ (forall k,
             ~ In k (map (chunk_id_of g) (seq 0 (length texts))) ->
             Py.get k (documents (self w')) = Py.get k (documents (self w)))
      /\ Py.keys (documents (self w'))
         = Py.keys (documents (self w))
           ++ filter (fresh_in (documents (self w)))
                (map (chunk_id_of g) (seq 0 (length texts))))
  /\ (forall r w',
         add_ g texts md w = (r, w') -> Py.wf (documents (self w')))
  /\ (Forall (embedding_succeeds encoder) texts ->
      (forall n w1,
          add_loop_ g md 0 texts 0 w = (Ok n, w1) ->
          uniform_dim (documents (self w1)) = true) ->
      (forall op fs0, os_error op fs0 = None) ->
      exists w', add_ g texts md w = (Ok (length texts), w')).
Proof.
  intros Hwf. split; [| split].
  - intros n w' Hadd.
    destruct (add_inv _ _ _ _ Hadd) as (w1 & w2 & Hloop & Hre & ->).
    destruct (add_loop_inv _ _ _ _ _ _ Hloop) as (Hn & docs & Hdocs & Hst).
    assert (Hwf1 : Py.wf (documents (self w1)))
      by (rewrite Hst; now apply wf_store_all).
    apply rebuild_index_aligned in Hre; [| exact Hwf1].
    destruct Hre as (_ & Hd & _).
    pose proof Hdocs as Hids. apply batch_ids in Hids.
    assert (Hnd : NoDup (map id docs))
      by (rewrite Hids; apply chunk_ids_NoDup).
    simpl self. rewrite Hd, Hst.
    split; [exact Hn | split; [| split]].
    + intros i text Hnth.
      apply (nth_error_combine_seq texts 0) in Hnth. simpl in Hnth.
      destruct (Forall2_nth_error Hdocs _ Hnth) as (doc & Hdoc & Hchunk).
      exists doc. split; [| exact Hchunk].
      destruct Hchunk as (Hid & _). simpl in Hid. rewrite <- Hid.
      apply store_all_get; [exact Hnd | eapply nth_error_In; eassumption].
    + intros k Hk. apply store_all_get_other. now rewrite Hids.
    + rewrite store_all_keys by exact Hnd. now rewrite Hids.
  - intros r w'. unfold add, bind at 1.
    destruct (add_loop_ g md 0 texts 0 w) as [[added | e] w1] eqn:Hloop;
      apply add_loop_wf in Hloop; try exact Hwf;
      [| now intros [= _ <-]].
    unfold bind at 1.
    destruct (_rebuild_index w1) as [[[] | e] w2] eqn:Hre;
      apply rebuild_index_documents in Hre; try exact Hloop;
      [| intros [= _ <-]; now rewrite Hre].
    unfold bind at 1.
    destruct (_save w2) as [r3 w3] eqn:Hsave.
    apply save_frame in Hsave. destruct Hsave as (Hs & _).
    destruct r3 as [[] | e]; unfold ret; intros [= _ <-];
      now rewrite Hs, Hre.
  - intros Hok Hdim Hacc.
    destruct (add_loop_completes g md w Hok)
      as (w1 & docs & Hloop & _ & _ & Hst).
    assert (Hwf1 : Py.wf (documents (self w1)))
      by (rewrite Hst; now apply wf_store_all).
    pose proof (Hdim _ _ Hloop) as Hu.
    destruct (@add_after_rebuild g texts md w _ w1 Hloop Hwf1 Hu)
      as (w2 & _ & _ & _ & _ & Hadd).
    rewrite Hadd, save_accepted by (intros op _; apply Hacc).
    eexists. reflexivity.
Qed.

(** *** The fallback embedding *)

Local Abbreviation fallback_ :=
  (_get_embedding np_random_seed np_random_randn md5_int None).

(** C9. Without a model, the embedding of a text is the vector drawn from
    the generator freshly seeded with the hash of that text: it is the same
    in every process state, so also after any other calls, and it has 384
    entries when [randn] returns as many values as it is asked for. *)
Theorem fallback_embedding_is_deterministic text w :
  fst (fallback_ text w)
  = Ok (fst (np_random_randn 384
               (np_random_seed (md5_int text mod 2 ^ 32)%Z)))
  /\ (forall w', fst (fallback_ text w') = fst (fallback_ text w))
  /\ (forall other, fst (fallback_ text (snd (fallback_ other w)))
                    = fst (fallback_ text w))
  /\ ((forall n r, length (fst (np_random_randn n r)) = n) ->
      exists v, fst (fallback_ text w) = Ok v /\ length v = 384).
Proof.
  assert (Heq : forall w0,
             fst (fallback_ text w0)
             = Ok (fst (np_random_randn 384
                          (np_random_seed (md5_int text mod 2 ^ 32)%Z)))).
  { intros w0. unfold _get_embedding.
    now destruct (np_random_randn 384 _) as [v r]. }
  repeat split.
  - apply Heq.
  - intros w'. now rewrite !Heq.
  - intros other. now rewrite !Heq.
  - intros Hlen. eexists. split; [apply Heq | apply Hlen].
Qed.

(** *** The snapshot file *)

Lemma json_load_dump data : json_load (json_dump data) = Ok data.
Proof.
  unfold json_load, json_dump.
  assert (H : json_elements (map Element data ++ [ArrayClose]) = Some data).
  { induction data as [| v data IH]; simpl; [reflexivity |]. now rewrite IH. }
  now rewrite H.
Qed.

Lemma json_elements_prefix data : forall n,
  n < length data + 1 ->
  json_elements (firstn n (map Element data ++ [ArrayClose])) = None.
Proof.
  induction data as [| v data IH]; intros [| n] Hn; simpl in *;
    try reflexivity; try lia.
  rewrite IH by lia. reflexivity.
Qed.

(** A text cut before its end does not decode. *)
Lemma json_load_prefix data n :
  n < length (json_dump data) ->
  json_load (firstn n (json_dump data)) = Raise JSONDecodeError.
Proof.
  unfold json_dump. simpl length. rewrite length_app, length_map. simpl.
  destruct n as [| n]; simpl; [reflexivity |].
  intros Hn. rewrite json_elements_prefix by lia. reflexivity.
Qed.

Lemma fs_run_writes p : forall toks fs0 c,
  Py.get p fs0 = Some c ->
  Py.get p (fs_run (map (Write p) toks) fs0) = Some (c ++ toks)
  /\ (forall p', p' <> p ->
        Py.get p' (fs_run (map (Write p) toks) fs0) = Py.get p' fs0)
  /\ Py.keys (fs_run (map (Write p) toks) fs0) = Py.keys fs0.
Proof.
  induction toks as [| t toks IH]; intros fs0 c Hc; simpl.
  - rewrite app_nil_r. auto.
  - rewrite Hc.
    pose proof (get_set_same p (c ++ [t]) fs0) as H0.
    apply IH in H0. destruct H0 as (Hg & Ho & Hk).
    unfold fs_run in *. rewrite Hg, Hk, <- app_assoc. simpl.
    split; [reflexivity | split].
    + intros p' Hp'. rewrite Ho by assumption.
      apply get_set_other. congruence.
    + apply keys_set_in. eapply get_some_in_keys. eassumption.
Qed.

(** The data file after the first [S n] file operations of a save holds
    the first [n] pieces of the text; no other file is touched. *)
Lemma save_ops_prefix s fs0 n :
  let fs1 := fs_run (firstn (S n) (_save_ops s)) fs0 in
  Py.get (data_file s) fs1
  = Some (firstn n (json_dump (map asdict (Py.values (documents s)))))
  /\ (forall p', p' <> data_file s -> Py.get p' fs1 = Py.get p' fs0).
Proof.
  unfold _save_ops. cbv zeta. rewrite firstn_cons, firstn_map.
  unfold fs_run. simpl fold_left.
  pose proof (get_set_same (data_file s) ([] : file) fs0) as H0.
  apply fs_run_writes
    with (toks := firstn n (json_dump (map asdict (Py.values (documents s)))))
    in H0.
  destruct H0 as (Hg & Ho & _).
  unfold fs_run in *. split; [exact Hg |].
  intros p' Hp'. rewrite Ho by assumption. apply get_set_other. congruence.
Qed.

(** C3 (amended). [_save] writes the entire current record set straight
    into the data file: every file operation it makes addresses that file,
    the first one truncates it, and no other path is written.  A completed
    save (and on a file system that carries out every operation the save
    completes) leaves there the text of all records, which loads back as
    exactly those records; a save interrupted after any of its operations
    but the last leaves a text that does not decode; and a save that raises
    is a save interrupted before one of its operations. *)
Theorem save_rewrites_data_file_in_place w :
  Forall (fun op => op_path op = data_file (self w)) (_save_ops (self w))
  /\ hd_error (_save_ops (self w)) = Some (OpenW (data_file (self w)))
  /\ ((forall op fs0, os_error op fs0 = None) ->
      exists w',
         _save w = (Ok tt, w')
         /\ self w' = self w
         /\ Py.get (data_file (self w)) (fs w')
            = Some (json_dump (map asdict (Py.values (documents (self w)))))
         /\ json_load (json_dump (map asdict (Py.values (documents (self w)))))
            = Ok (map asdict (Py.values (documents (self w))))
         /\ (forall p, p <> data_file (self w) ->
               Py.get p (fs w') = Py.get p (fs w)))
  /\ (forall n,
         0 < n < length (_save_ops (self w)) ->
         exists f,
           Py.get (data_file (self w)) (fs (_save_interrupted n w)) = Some f
           /\ json_load f = Raise JSONDecodeError)
  /\ (forall w',
         _save w = (Ok tt, w') ->
         w' = _save_interrupted (length (_save_ops (self w))) w)
  /\ (forall e w',
         _save w = (Raise e, w') ->
         exists n,
           n < length (_save_ops (self w)) /\ w' = _save_interrupted n w).
Proof.
  split; [| split; [| split; [| split; [| split]]]];
    [| | | | intros w' H; apply save_ok in H; subst w';
             unfold _save_interrupted; now rewrite firstn_all
           | intros e w'; apply save_raise].
  - unfold _save_ops. constructor; [reflexivity |].
    apply Forall_map, Forall_forall. reflexivity.
  - reflexivity.
  - intros Hacc. rewrite save_accepted by (intros op _; apply Hacc).
    eexists. split; [reflexivity |]. simpl.
    set (toks := json_dump (map asdict (Py.values (documents (self w))))).
    destruct (save_ops_prefix (self w) (fs w) (length toks)) as (Hg & Ho).
    assert (Hall : firstn (S (length toks)) (_save_ops (self w))
                   = _save_ops (self w)).
    { apply firstn_all2. unfold _save_ops. simpl. rewrite length_map.
      fold toks. lia. }
    rewrite Hall in Hg, Ho. fold toks in Hg. rewrite firstn_all in Hg.
    repeat split; auto. apply json_load_dump.
  - intros [| n] [Hpos Hlt]; [lia |].
    destruct (save_ops_prefix (self w) (fs w) n) as (Hg & _).
    eexists. split; [exact Hg |].
    apply json_load_prefix. unfold _save_ops in Hlt.
    rewrite length_cons, length_map in Hlt. lia.
Qed.

(** *** Start-up *)

(** The constructor raises when the directory cannot be created, and
    otherwise loads into the empty store. *)
Lemma init_stages path w :
  __init__ path w
  = match os_error (MakeDirs path) (fs w) with
    | Some e => (Raise e, with_self (empty_at path) w)
    | None => _load (with_self (empty_at path) w)
    end.
Proof.
  unfold __init__, bind at 1, modify_self at 1. unfold bind at 1, os_call at 1.
  simpl fs. now destruct (os_error (MakeDirs path) (fs w)).
Qed.

(** [_load] on the store the constructor starts from. *)
Lemma load_eq path w :
  _load (with_self (empty_at path) w)
  = match Py.get (os_path_join path "documents.json") (fs w) with
    | Some f =>
        match os_error (OpenR (os_path_join path "documents.json")) (fs w) with
        | Some e =>
            (Ok tt,
             with_stdout (stdout w ++ [LoadErrorLine e])
               (with_self (empty_at path) w))
        | None =>
            try_except (load_body f) (fun e => print (LoadErrorLine e))
              (with_self (empty_at path) w)
        end
    | None => (Ok tt, with_self (empty_at path) w)
    end.
Proof.
  unfold _load, bind at 1, get_self. simpl fs. simpl self.
  change (data_file (empty_at path))
    with (os_path_join path "documents.json").
  destruct (Py.get _ (fs w)) as [f |]; [| reflexivity].
  unfold try_except at 1, bind at 1, os_call at 1. simpl fs.
  now destruct (os_error (OpenR _) (fs w)).
Qed.


(** On a file system that carries out every operation the constructor is
    its loading. *)
Lemma init_eq path w :
  __init__ path w
  = match Py.get (os_path_join path "documents.json") (fs w) with
    | Some f =>
        try_except (load_body f) (fun e => print (LoadErrorLine e))
          (with_self (empty_at path) w)
    | None => (Ok tt, with_self (empty_at path) w)
    end.
Proof. rewrite init_stages, load_eq, !os_accepts. reflexivity. Qed.

End Properties.

(** ** Facts about the insertion sort *)

Section SortFacts.
Context {A : Type} (lt : A -> A -> bool).

Lemma insert_perm x l : Permutation (Py.insert lt x l) (x :: l).
Proof.
  induction l as [| y l IH]; simpl; [reflexivity |].
  destruct (lt y x); [| reflexivity].
  rewrite IH. apply perm_swap.
Qed.

Lemma stable_sort_perm l : Permutation (Py.stable_sort lt l) l.
Proof.
  induction l as [| x l IH]; simpl; [reflexivity |].
  rewrite insert_perm. now constructor.
Qed.

(** Inserting [x] keeps the neighbours related, when [x] relates as it
    should to the elements it passes and to the one it stops at. *)
Lemma insert_Sorted (R : A -> A -> Prop) x l :
  Sorted R l ->
  (forall y, In y l -> lt y x = true -> R y x) ->
  (forall y, In y l -> lt y x = false -> R x y) ->
  Sorted R (Py.insert lt x l).
Proof.
  induction l as [| y l IH]; intros Hs Hpass Hstop; simpl.
  - repeat constructor.
  - apply Sorted_inv in Hs. destruct Hs as [Hs Hhd].
    destruct (lt y x) eqn:Hyx.
    + constructor.
      * apply IH; [exact Hs | |]; intros z Hz; [apply Hpass | apply Hstop];
          now right.
      * destruct l as [| z l]; simpl.
        -- constructor. apply Hpass; [now left | exact Hyx].
        -- apply HdRel_inv in Hhd.
           destruct (lt z x); constructor; [exact Hhd |].
           apply Hpass; [now left | exact Hyx].
    + constructor; [constructor; assumption |].
      constructor. apply Hstop; [now left | exact Hyx].
Qed.

(** The sort puts the elements in ascending order of [lt], when [lt] is
    asymmetric. *)
Lemma stable_sort_Sorted l :
  (forall a b, lt a b = true -> lt b a = false) ->
  Sorted (fun a b => lt b a = false) (Py.stable_sort lt l).
Proof.
  intros Hasym. induction l as [| x l IH]; simpl; [constructor |].
  apply insert_Sorted; [exact IH | |]; intros y _ H; auto.
Qed.

End SortFacts.

Section SortedFacts.
Context {A : Type}.

Lemma Sorted_snoc (R : A -> A -> Prop) l x :
  Sorted R l ->
  (forall y, hd_error (rev l) = Some y -> R y x) ->
  Sorted R (l ++ [x]).
Proof.
  induction l as [| a l IH]; intros Hs Hlast; simpl.
  - repeat constructor.
  - apply Sorted_inv in Hs. destruct Hs as [Hs Hhd]. constructor.
    + apply IH; [exact Hs |]. intros y Hy. apply Hlast. simpl.
      destruct (rev l); [discriminate | exact Hy].
    + destruct l as [| b l]; simpl.
      * constructor. apply Hlast. reflexivity.
      * apply HdRel_inv in Hhd. now constructor.
Qed.

Lemma Sorted_rev (R : A -> A -> Prop) l :
  Sorted R l -> Sorted (fun a b => R b a) (rev l).
Proof.
  induction l as [| a l IH]; intros Hs; simpl; [constructor |].
  apply Sorted_inv in Hs. destruct Hs as [Hs Hhd].
  apply Sorted_snoc; [now apply IH |].
  rewrite rev_involutive. intros y Hy.
  destruct l as [| b l]; [discriminate |].
  injection Hy as <-. now apply HdRel_inv in Hhd.
Qed.

Lemma Sorted_firstn (R : A -> A -> Prop) n : forall l,
  Sorted R l -> Sorted R (firstn n l).
Proof.
  induction n as [| n IH]; intros [| a l] Hs; simpl; try constructor.
  - apply IH. now apply Sorted_inv in Hs.
  - apply Sorted_inv in Hs. destruct Hs as [_ Hhd].
    destruct l as [| b l]; destruct n; simpl; constructor.
    now apply HdRel_inv in Hhd.
Qed.

Lemma Sorted_map_in {B : Type} (R : A -> A -> Prop) (R' : B -> B -> Prop)
    (f : A -> B) l :
  (forall a b, In a l -> In b l -> R a b -> R' (f a) (f b)) ->
  Sorted R l -> Sorted R' (map f l).
Proof.
  induction l as [| a l IH]; intros Himp Hs; simpl; [constructor |].
  apply Sorted_inv in Hs. destruct Hs as [Hs Hhd]. constructor.
  - apply IH; [| exact Hs]. intros x y Hx Hy. apply Himp; now right.
  - destruct l as [| b l]; simpl; constructor.
    apply HdRel_inv in Hhd. apply Himp; simpl; auto.
Qed.

End SortedFacts.

(** ** Reading a document back *)

Lemma mval_lt_asym a b : mval_lt a b = true -> mval_lt b a = false.
Proof.
  destruct a as [x | x], b as [y | y]; simpl; try discriminate.
  - rewrite Z.ltb_lt, Z.ltb_ge. lia.
  - unfold String.ltb. rewrite (String.compare_antisym y x).
    destruct (String.compare x y); simpl; congruence.
Qed.

Lemma list_sort_ok {A : Type} (key : A -> mval) (l : list A) :
  (forall a b, In a l -> In b l -> same_type (key a) (key b) = true) ->
  list_sort key l
  = Ok (Py.stable_sort (fun a b => mval_lt (key a) (key b)) l).
Proof.
  intros Hsame. unfold list_sort. destruct l as [| x rest]; [reflexivity |].
  assert (H : forallb (fun y => same_type (key x) (key y)) rest = true).
  { apply forallb_forall. intros y Hy. apply Hsame; simpl; auto. }
  now rewrite H.
Qed.

Section Content.
Context {rng : Type}.
Implicit Types w : World rng.

Lemma get_document_content_eq g w :
  get_document_content g w
  = match members g (self w) with
    | [] => (Ok None, w)
    | first :: _ =>
        match list_sort index (map chunk_entry (members g (self w))) with
        | Ok sorted =>
            (Ok (Some (mkContent g
                         (Py.get_default "source" (MStr "Unknown")
                            (metadata first))
                         (length sorted)
                         (String.concat paragraph_separator
                            (map chunk_content sorted))
                         sorted)), w)
        | Raise e => (Raise e, w)
        end
    end.
Proof.
  unfold get_document_content, bind at 1, get_self, members, chunk_entry.
  destruct (filter _ (Py.values (documents (self w)))) as [| first rest];
    [reflexivity |].
  unfold bind, lift, ret. now destruct (list_sort _ _).
Qed.

(** C8. For a group with records whose chunk indices are of one type (the
    integers [add] writes), [get_document_content] returns the group's chunks
    in ascending order of chunk index, whatever their order in the store:
    the chunks are those of the member records, [full_content] is their
    contents joined by the paragraph separator in that order, and [chunks]
    counts the member records.  For a group without records it returns the
    not-found marker [None]; it raises in neither case. *)
Theorem get_document_content_orders_chunks g w :
  (members g (self w) = [] ->
   get_document_content g w = (Ok None, w))
  /\ (members g (self w) <> [] ->
      (forall a b,
          In a (members g (self w)) -> In b (members g (self w)) ->
          same_type (index (chunk_entry a)) (index (chunk_entry b)) = true) ->
      exists r,
        get_document_content g w = (Ok (Some r), w)
        /\ Sorted (fun a b => mval_le (index a) (index b)) (chunks_detail r)
        /\ Permutation (chunks_detail r)
             (map chunk_entry (members g (self w)))
        /\ full_content r
           = String.concat paragraph_separator
               (map chunk_content (chunks_detail r))
        /\ chunks r = length (members g (self w))
        /\ dc_doc_id r = g).
Proof.
  rewrite get_document_content_eq. split.
  - intros ->. reflexivity.
  - intros Hne Hsame.
    destruct (members g (self w)) as [| first rest] eqn:Hm; [congruence |].
    rewrite list_sort_ok.
    + eexists. split; [reflexivity |]. cbn [chunks_detail].
      split; [| split; [| split; [| split]]].
      * apply (stable_sort_Sorted
                 (fun a b : chunk => mval_lt (index a) (index b))).
        intros a b. apply mval_lt_asym.
      * apply stable_sort_perm.
      * reflexivity.
      * cbn [chunks].
        rewrite (Permutation_length (stable_sort_perm _ _)).
        now rewrite length_map.
      * reflexivity.
    + intros a b Ha Hb. apply in_map_iff in Ha, Hb.
      destruct Ha as (da & <- & Ha), Hb as (db & <- & Hb). now apply Hsame.
Qed.

End Content.

(** ** Facts about floats and numpy's order *)

Lemma SFcompare_refl x : x <> S754_nan -> SFcompare x x = Some Eq.
Proof.
  destruct x as [s | s | | s m e]; simpl; intros H; try congruence.
  - now destruct s.
  - rewrite Z.compare_refl, Pos.compare_cont_refl. now destruct s.
Qed.

Lemma SFcompare_antisym x y c :
  SFcompare x y = Some c -> SFcompare y x = Some (CompOpp c).
Proof.
  destruct x as [s1 | s1 | | s1 m1 e1], y as [s2 | s2 | | s2 m2 e2]; simpl;
    try discriminate;
    try (intros [= <-]; destruct s1; try destruct s2; reflexivity).
  intros [= <-]. rewrite (Z.compare_antisym e1 e2).
  destruct s1, s2; try reflexivity;
    destruct (e1 ?= e2)%Z; simpl; try reflexivity;
    rewrite ?CompOpp_involutive, ?Pos.compare_cont_antisym; reflexivity.
Qed.

Lemma is_nan_spec x : PrimFloat.is_nan x = true <-> Prim2SF x = S754_nan.
Proof.
  unfold PrimFloat.is_nan. rewrite eqb_spec. unfold SFeqb. split.
  - intros H. destruct (Prim2SF x) as [s | s | | s m e] eqn:E; try reflexivity;
      rewrite SFcompare_refl in H by discriminate; discriminate.
  - intros ->. reflexivity.
Qed.

Lemma np_lt_spec a b :
  Np.lt a b = true <->
  SFcompare (Prim2SF a) (Prim2SF b) = Some Lt
  \/ (Prim2SF a <> S754_nan /\ Prim2SF b = S754_nan).
Proof.
  unfold Np.lt. rewrite orb_true_iff, andb_true_iff, negb_true_iff.
  rewrite ltb_spec, is_nan_spec, <- not_true_iff_false, is_nan_spec.
  unfold SFltb. split; (intros [H | H]; [left | right; exact H]).
  - destruct (SFcompare _ _) as [[] |]; congruence.
  - now rewrite H.
Qed.

(** numpy's order on floats is asymmetric. *)
Lemma np_lt_asym a b : Np.lt a b = true -> Np.lt b a = false.
Proof.
  intros H. apply not_true_iff_false. intros H'.
  apply np_lt_spec in H, H'.
  destruct H as [H | [Ha Hb]], H' as [H' | [Hb' Ha']]; try congruence.
  - apply SFcompare_antisym in H. simpl in H. congruence.
  - rewrite Ha' in H. discriminate.
  - rewrite Hb in H'. discriminate.
Qed.

(** *** Zeros and NaN *)

Lemma Prim2SF_zero : Prim2SF 0%float = S754_zero false.
Proof. reflexivity. Qed.

Lemma is_zero_spec x :
  PrimFloat.is_zero x = true -> sf_zero (Prim2SF x) = true.
Proof.
  unfold PrimFloat.is_zero. rewrite eqb_spec.
  change (Prim2SF PrimFloat.zero) with (Prim2SF 0%float). rewrite Prim2SF_zero.
  unfold SFeqb. destruct (Prim2SF x) as [s | s | | s m e]; simpl;
    try reflexivity; try discriminate; destruct s; discriminate.
Qed.

Lemma mul_zero_l a b :
  sf_zero (Prim2SF a) = true -> sf_zero_or_nan (Prim2SF (a * b)) = true.
Proof.
  rewrite mul_spec. unfold SF64mul, SFmul.
  destruct (Prim2SF a), (Prim2SF b); simpl; congruence.
Qed.

Lemma mul_zero_r a b :
  sf_zero (Prim2SF b) = true -> sf_zero_or_nan (Prim2SF (a * b)) = true.
Proof.
  rewrite mul_spec. unfold SF64mul, SFmul.
  destruct (Prim2SF a), (Prim2SF b); simpl; congruence.
Qed.

Lemma mul_zero_zero a b :
  sf_zero (Prim2SF a) = true -> sf_zero (Prim2SF b) = true ->
  sf_zero (Prim2SF (a * b)) = true.
Proof.
  rewrite mul_spec. unfold SF64mul, SFmul.
  destruct (Prim2SF a), (Prim2SF b); simpl; congruence.
Qed.

Lemma add_zero_or_nan a b :
  sf_zero_or_nan (Prim2SF a) = true -> sf_zero_or_nan (Prim2SF b) = true ->
  sf_zero_or_nan (Prim2SF (a + b)) = true.
Proof.
  rewrite add_spec. unfold SF64add, SFadd.
  destruct (Prim2SF a) as [[] | | |], (Prim2SF b) as [[] | | |]; simpl;
    congruence.
Qed.

Lemma add_zero_zero a b :
  sf_zero (Prim2SF a) = true -> sf_zero (Prim2SF b) = true ->
  sf_zero (Prim2SF (a + b)) = true.
Proof.
  rewrite add_spec. unfold SF64add, SFadd.
  destruct (Prim2SF a) as [[] | | |], (Prim2SF b) as [[] | | |]; simpl;
    congruence.
Qed.

Lemma sqrt_zero a :
  sf_zero (Prim2SF a) = true -> sf_zero (Prim2SF (PrimFloat.sqrt a)) = true.
Proof.
  rewrite sqrt_spec. unfold SF64sqrt, SFsqrt.
  destruct (Prim2SF a); simpl; congruence.
Qed.

Lemma div_zero_or_nan a b :
  sf_zero_or_nan (Prim2SF a) = true -> sf_zero_or_nan (Prim2SF b) = true ->
  PrimFloat.is_nan (a / b) = true.
Proof.
  rewrite is_nan_spec, div_spec. unfold SF64div, SFdiv.
  destruct (Prim2SF a), (Prim2SF b); simpl; congruence.
Qed.

(** Added up from left to right, the norm of a zero vector is zero. *)
Lemma norm_zero v :
  zero_vector v -> sf_zero (Prim2SF (Double.norm v)) = true.
Proof.
  intros Hz. unfold Double.norm. apply sqrt_zero.
  assert (H : forall acc, sf_zero (Prim2SF acc) = true ->
                sf_zero (Prim2SF (fold_left (fun acc x => (acc + x * x)%float)
                                    v acc)) = true).
  { induction Hz as [| x v Hx _ IH]; intros acc Hacc; simpl; [exact Hacc |].
    apply IH. apply is_zero_spec in Hx.
    apply add_zero_zero; [exact Hacc | now apply mul_zero_zero]. }
  apply H. now rewrite Prim2SF_zero.
Qed.

(** Added up from left to right, a dot product in which one of the two
    vectors is zero is a zero or NaN. *)
Lemma dot_zero r q :
  zero_vector r \/ zero_vector q ->
  sf_zero_or_nan (Prim2SF (Double.dot r q)) = true.
Proof.
  intros Hz. unfold Double.dot.
  assert (Hp : Forall (fun p => sf_zero (Prim2SF (fst p)) = true
                                \/ sf_zero (Prim2SF (snd p)) = true)
                 (combine r q)).
  { apply Forall_forall. intros [x y] Hin. simpl.
    destruct Hz as [Hz | Hz]; [left | right]; apply is_zero_spec;
      unfold zero_vector in Hz; rewrite Forall_forall in Hz; apply Hz.
    - eapply in_combine_l. eassumption.
    - eapply in_combine_r. eassumption. }
  assert (H : forall acc, sf_zero_or_nan (Prim2SF acc) = true ->
                sf_zero_or_nan
                  (Prim2SF (fold_left
                              (fun acc p => (acc + fst p * snd p)%float)
                              (combine r q) acc)) = true).
  { induction Hp as [| p l Hp _ IH]; intros acc Hacc; simpl; [exact Hacc |].
    apply IH. apply add_zero_or_nan; [exact Hacc |].
    destruct Hp as [Hp | Hp]; [now apply mul_zero_l | now apply mul_zero_r]. }
  apply H. now rewrite Prim2SF_zero.
Qed.

(** The sums of the stand-in routines are the sums of zeros they should
    be. *)
Lemma double_zero_sums : zero_sums Double.numpy.
Proof.
  split; [| split].
  - exact norm_zero.
  - exact norm_zero.
  - intros r q _. exact (@dot_zero r q).
Qed.

Section Cosine.
Context {numpy : Np.Routines}.

(** The cosine similarity of a zero-norm pairing is NaN. *)
Lemma cosine_row_zero r q :
  zero_sums numpy ->
  length r = length q ->
  zero_vector r \/ zero_vector q -> PrimFloat.is_nan (cosine_row r q) = true.
Proof.
  intros (Hnorm & Hrow & Hdot) Hlen Hz. unfold cosine_row.
  apply div_zero_or_nan.
  - now apply Hdot.
  - destruct Hz as [Hz | Hz]; [apply mul_zero_l | apply mul_zero_r];
      [now apply Hrow | now apply Hnorm].
Qed.

Lemma cosine_similarities_rows E q sims :
  cosine_similarities E q = Ok sims ->
  sims = map (fun r => cosine_row r q) E.
Proof.
  unfold cosine_similarities, Np.matvec.
  destruct (forallb (fun r => Nat.eqb (length r) (length q)) E);
    [| discriminate].
  intros [= <-].
  unfold Np.row_norms, cosine_row. rewrite !map_map.
  induction E as [| r E IH]; simpl; [reflexivity |]. now rewrite IH.
Qed.

Lemma cosine_similarities_ok E q :
  Forall (fun r => length r = length q) E ->
  cosine_similarities E q = Ok (map (fun r => cosine_row r q) E).
Proof.
  intros Hdim.
  destruct (cosine_similarities E q) as [sims | e] eqn:Hc.
  - now rewrite (cosine_similarities_rows _ _ Hc).
  - unfold cosine_similarities, Np.matvec in Hc.
    assert (H : forallb (fun r => Nat.eqb (length r) (length q)) E = true).
    { apply forallb_forall. rewrite Forall_forall in Hdim.
      intros r Hr. apply Nat.eqb_eq. now apply Hdim. }
    rewrite H in Hc. discriminate.
Qed.

End Cosine.

(** ** Facts about [argsort] and the ranking *)

Lemma in_combine_seq {A : Type} (l : list A) : forall b i x,
  In (i, x) (combine (seq b (length l)) l) ->
  b <= i /\ nth_error l (i - b) = Some x.
Proof.
  induction l as [| y l IH]; intros b i x; simpl; [tauto |].
  intros [[= <- <-] | Hin].
  - rewrite Nat.sub_diag. auto.
  - apply IH in Hin. destruct Hin as [Hle Hnth].
    split; [lia |]. replace (i - b) with (S (i - S b)) by lia. exact Hnth.
Qed.

Lemma argsort_perm v : Permutation (Double.argsort v) (seq 0 (length v)).
Proof.
  unfold Double.argsort. rewrite <- (map_fst_combine_seq v 0) at 2.
  apply Permutation_map, stable_sort_perm.
Qed.

Lemma keyed_sort_Sorted (v : Np.vector) : forall b,
  Sorted (fun p q : nat * float =>
            Np.lt (snd q) (snd p) = false
            /\ (Np.lt (snd p) (snd q) = false -> fst p < fst q))
    (Py.stable_sort (fun p q => Np.lt (snd p) (snd q))
       (combine (seq b (length v)) v)).
Proof.
  induction v as [| x v IH]; intros b; simpl; [constructor |].
  apply insert_Sorted; [apply IH | |]; intros [j y] Hin Hlt; simpl in *.
  - split; [now apply np_lt_asym | congruence].
  - split; [exact Hlt |]. intros _.
    apply (Permutation_in _ (stable_sort_perm _ _)) in Hin.
    apply in_combine_seq in Hin. lia.
Qed.

(** The insertion sort lists the indices in ascending order of value,
    equal values in index order. *)
Lemma argsort_Sorted v : Sorted (rank_le v) (Double.argsort v).
Proof.
  unfold Double.argsort.
  eapply Sorted_map_in; [| apply (keyed_sort_Sorted v 0)].
  intros [i x] [j y] Hi Hj [Hle Htie]. simpl in *.
  apply (Permutation_in _ (stable_sort_perm _ _)) in Hi, Hj.
  apply in_combine_seq in Hi, Hj. rewrite Nat.sub_0_r in Hi, Hj.
  exists x, y. tauto.
Qed.

Lemma slice_to_firstn {A : Type} (k : Z) (l : list A) :
  exists m, Py.slice_to k l = firstn m l.
Proof. unfold Py.slice_to. destruct (0 <=? k)%Z; eauto. Qed.

(** The insertion sort is one of the sorts [argsort] may be. *)
Lemma double_argsort_sorts : sorts_ascending Double.argsort.
Proof.
  intros v. split; [apply argsort_perm |].
  rewrite <- (map_id (Double.argsort v)).
  apply Sorted_map_in with (R := rank_le v); [| apply argsort_Sorted].
  intros i j _ _ (x & y & Hx & Hy & Hle & _). exists x, y. auto.
Qed.

(** The ranking [search] iterates over is in descending order of value. *)
Lemma ranking_Sorted {numpy : Np.Routines} v k :
  sorts_ascending Np.argsort ->
  Sorted (fun i j => ascending v j i) (Py.slice_to k (rev (Np.argsort v))).
Proof.
  intros Hsort.
  destruct (slice_to_firstn k (rev (Np.argsort v))) as [m ->].
  apply Sorted_firstn, Sorted_rev, Hsort.
Qed.

(** The indices of the ranking are indices of the array. *)
Lemma ranking_in_range {numpy : Np.Routines} v k :
  sorts_ascending Np.argsort ->
  Forall (fun idx => idx < length v) (Py.slice_to k (rev (Np.argsort v))).
Proof.
  intros Hsort. apply Forall_forall. intros idx Hin.
  destruct (slice_to_firstn k (rev (Np.argsort v))) as [m Hm].
  rewrite Hm in Hin.
  assert (Hin' : In idx (rev (Np.argsort v))).
  { rewrite <- (firstn_skipn m (rev (Np.argsort v))).
    apply in_or_app. now left. }
  apply in_rev in Hin'.
  apply (Permutation_in _ (proj1 (Hsort v))) in Hin'.
  apply in_seq in Hin'. lia.
Qed.

Lemma ranking_nil {numpy : Np.Routines} k :
  sorts_ascending Np.argsort ->
  Py.slice_to k (rev (Np.argsort [])) = [].
Proof.
  intros Hsort. pose proof (ranking_in_range [] k Hsort) as Hr.
  destruct (Py.slice_to k (rev (Np.argsort []))) as [| i l];
    [reflexivity |].
  inversion Hr as [| ? ? Hi _]. simpl in Hi. lia.
Qed.

(** ** The result loop of [search], as a pure function *)

Lemma collect_pure {S A B : Type} (f : A -> M S B) (g : A -> result B) l :
  (forall x w, f x w = (g x, w)) ->
  forall w, collect l f w = (sequence (map g l), w).
Proof.
  intros Hf. induction l as [| x l IH]; intros w; simpl; [reflexivity |].
  unfold bind at 1. rewrite Hf. destruct (g x) as [y | e]; [| reflexivity].
  unfold bind at 1. rewrite IH. now destruct (sequence (map g l)).
Qed.

Lemma sequence_ok {A : Type} (l : list (result A)) : forall l0,
  sequence l = Ok l0 -> l = map Ok l0.
Proof.
  induction l as [| [a | e] l IH]; simpl; intros l0.
  - now intros [= <-].
  - destruct (sequence l) as [l1 | e]; [| discriminate].
    intros [= <-]. simpl. now rewrite (IH l1 eq_refl).
  - discriminate.
Qed.

Lemma sequence_map_ok {A : Type} (l : list A) : sequence (map Ok l) = Ok l.
Proof. induction l as [| a l IH]; simpl; [reflexivity | now rewrite IH]. Qed.

Lemma result_at_pure {rng : Type} s sims idx (w : World rng) :
  result_at s sims idx w = (result_of s sims idx, w).
Proof.
  unfold result_at, result_of.
  destruct (nth_error (doc_ids s) idx) as [k |]; [| reflexivity].
  destruct (Py.get k (documents s)) as [doc |]; [| reflexivity].
  now destruct (nth_error sims idx).
Qed.

(** In an aligned store the hit for index [idx] is built from record
    [idx]. *)
Lemma result_of_aligned s sims idx d x :
  Py.wf (documents s) -> aligned s ->
  nth_error (Py.values (documents s)) idx = Some d ->
  nth_error sims idx = Some x ->
  result_of s sims idx = Ok (mkHit (content d) (metadata d) x).
Proof.
  intros Hwf [Hids _] Hd Hx. unfold result_of. rewrite Hids, Hx.
  pose proof (get_of_keys Hwf) as Hk.
  apply (f_equal (fun l => nth_error l idx)) in Hk.
  rewrite !nth_error_map, Hd in Hk. simpl in Hk.
  destruct (nth_error (Py.keys (documents s)) idx) as [k |]; [| discriminate].
  simpl in Hk. injection Hk as Hk. now rewrite Hk.
Qed.

Lemma Forall2_Sorted {A B : Type} (P : A -> B -> Prop)
    (R : A -> A -> Prop) (R' : B -> B -> Prop) l l' :
  (forall a b a' b', P a a' -> P b b' -> R a b -> R' a' b') ->
  Forall2 P l l' -> Sorted R l -> Sorted R' l'.
Proof.
  intros Himp H. induction H as [| a a' l l' Ha Hl IH]; intros Hs;
    [constructor |].
  apply Sorted_inv in Hs. destruct Hs as [Hs Hhd]. constructor; [auto |].
  destruct Hl as [| b b' l l' Hb _]; constructor.
  apply HdRel_inv in Hhd. eauto.
Qed.

Lemma map_Ok_Forall2 {A B : Type} (f : A -> result B) l : forall l',
  map f l = map Ok l' -> Forall2 (fun a b => f a = Ok b) l l'.
Proof.
  induction l as [| a l IH]; intros [| b l']; simpl; try discriminate.
  - constructor.
  - intros [= Ha Hl]. constructor; auto.
Qed.

Lemma Forall2_map_Ok {A B : Type} (f : A -> result B) l l' :
  Forall2 (fun a b => f a = Ok b) l l' -> map f l = map Ok l'.
Proof. induction 1 as [| a b l l' Hab _ IH]; simpl; congruence. Qed.

Lemma nth_error_seq_all {A : Type} (l : list A) :
  map (nth_error l) (seq 0 (length l)) = map Some l.
Proof.
  induction l as [| x l IH]; simpl; [reflexivity |].
  f_equal. rewrite <- seq_shift, map_map. exact IH.
Qed.

Lemma map_Some_inj {A : Type} (l : list A) : forall l',
  map Some l = map Some l' -> l = l'.
Proof.
  induction l as [| a l IH]; intros [| b l']; simpl; try discriminate; auto.
  intros [= -> H]. f_equal. auto.
Qed.

Lemma slice_to_all {A : Type} (k : Z) (l : list A) :
  (Z.of_nat (length l) <= k)%Z -> Py.slice_to k l = l.
Proof.
  intros Hk. unfold Py.slice_to.
  destruct (Z.leb_spec 0 k); [| lia]. apply firstn_all2. lia.
Qed.

Lemma slice_to_length {A : Type} (k : Z) (l : list A) :
  (0 <= k)%Z -> length (Py.slice_to k l) = Nat.min (Z.to_nat k) (length l).
Proof.
  intros Hk. unfold Py.slice_to.
  destruct (Z.leb_spec 0 k); [| lia]. apply length_firstn.
Qed.

Lemma slice_to_incl {A : Type} (k : Z) (l : list A) :
  incl (Py.slice_to k l) l.
Proof.
  destruct (slice_to_firstn k l) as [m ->]. intros x Hx.
  rewrite <- (firstn_skipn m l). apply in_or_app. now left.
Qed.

(** ** Properties of [search] *)

Section Search.

Variable rng : Type.
Variable np_random_seed : Z -> rng.
Variable np_random_randn : nat -> rng -> list float * rng.
Variable md5_int : string -> Z.
Variable encoder : option (string -> result (list float)).
Context {numpy : Np.Routines}.

Local Abbreviation get_embedding_ :=
  (_get_embedding np_random_seed np_random_randn md5_int encoder).
Local Abbreviation search_ :=
  (search np_random_seed np_random_randn md5_int encoder).

Implicit Types (w : World rng) (s : SimpleVectorStore).

Lemma search_eq q k w :
  search_ q k w =
  match documents (self w), embeddings (self w) with
  | [], _ => (Ok [], w)
  | _ :: _, None => (Ok [], w)
  | _ :: _, Some E =>
      match get_embedding_ q w with
      | (Ok qe, w1) =>
          match cosine_similarities E qe with
          | Ok sims =>
              (sequence (map (result_of (self w) sims)
                           (Py.slice_to k (rev (Np.argsort sims)))), w1)
          | Raise e => (Raise e, w1)
          end
      | (Raise e, w1) => (Raise e, w1)
      end
  end.
Proof.
  unfold search, bind at 1, get_self.
  destruct (documents (self w)) as [| kv docs]; [reflexivity |].
  destruct (embeddings (self w)) as [E |]; [| reflexivity].
  unfold bind at 1. destruct (get_embedding_ q w) as [[qe | e] w1]; [| reflexivity].
  unfold bind at 1, lift.
  destruct (cosine_similarities E qe) as [sims | e]; [| reflexivity].
  apply collect_pure. intros idx w0. apply result_at_pure.
Qed.

(** The embedding of a text does not depend on the process state. *)
Lemma get_embedding_state_indep text w w2 :
  fst (get_embedding_ text w2) = fst (get_embedding_ text w).
Proof.
  unfold _get_embedding, get_embedding_model, bind at 1 3.
  destruct encoder as [model |]; [reflexivity |].
  unfold bind, print, ret. now destruct (np_random_randn 384 _).
Qed.

(** What numpy documents of [argsort], and what any order of summation
    gives for vectors of zeros. *)
Hypothesis argsort_sorts : sorts_ascending Np.argsort.
Hypothesis sums_of_zeros : zero_sums numpy.

(** [search] on an aligned store whose rows have the dimension of the
    query embedding: it returns one hit per index of the ranking, built
    from the record at that index. *)
Lemma search_aligned q k w qe w1 :
  Py.wf (documents (self w)) -> aligned (self w) ->
  get_embedding_ q w = (Ok qe, w1) ->
  Forall (fun r => length r = length qe) (index_rows (self w)) ->
  exists hits w',
    search_ q k w = (Ok hits, w')
    /\ Forall2
         (fun idx h =>
            exists d, nth_error (Py.values (documents (self w))) idx = Some d
                      /\ h = hit_of qe d)
         (Py.slice_to k (rev (Np.argsort (similarities_of (self w) qe))))
         hits.
Proof.
  intros Hwf Hal Hemb Hdim. rewrite search_eq. unfold similarities_of.
  destruct (documents (self w)) as [| kv docs] eqn:Hdocs.
  - exists [], w. split; [reflexivity |]. simpl.
    rewrite ranking_nil by exact argsort_sorts. constructor.
  - rewrite <- Hdocs in *. pose proof Hal as [_ Hrows].
    unfold index_rows in Hrows, Hdim.
    destruct (embeddings (self w)) as [E |];
      [| rewrite Hdocs in Hrows; discriminate].
    rewrite Hemb, (cosine_similarities_ok _ Hdim). subst E.
    rewrite map_map.
    set (sims := map (fun d => cosine_row (embedding d) qe)
                   (Py.values (documents (self w)))).
    set (top := Py.slice_to k (rev (Np.argsort sims))).
    assert (Htop : Forall (fun idx => idx < length sims) top)
      by (apply ranking_in_range, argsort_sorts).
    assert (H : exists hits,
               Forall2 (fun idx h => result_of (self w) sims idx = Ok h) top hits
               /\ Forall2
                    (fun idx h =>
                       exists d,
                         nth_error (Py.values (documents (self w))) idx = Some d
                         /\ h = hit_of qe d) top hits).
    { clear - Htop Hwf Hal. induction Htop as [| idx top Hidx _ IH].
      - exists []. split; constructor.
      - destruct IH as (hits & H1 & H2).
        unfold sims in Hidx. rewrite length_map in Hidx.
        destruct (nth_error (Py.values (documents (self w))) idx) as [d |] eqn:Hd;
          [| apply nth_error_None in Hd; lia].
        exists (hit_of qe d :: hits). split; constructor; eauto.
        apply result_of_aligned; auto.
        unfold sims. rewrite nth_error_map, Hd. reflexivity. }
    destruct H as (hits & H1 & H2).
    exists hits, w1. split; [| exact H2].
    rewrite (Forall2_map_Ok _ H1), sequence_map_ok. reflexivity.
Qed.

Lemma Permutation_map_Some {A : Type} (l l' : list A) :
  Permutation (map Some l) (map Some l') -> Permutation l l'.
Proof.
  intros H. apply Permutation_map_inv in H. destruct H as (l3 & Heq & Hp).
  apply map_Some_inj in Heq. subst l3. now symmetry.
Qed.

(** The hits of a ranking that covers every index are the hits of all
    records. *)
Lemma hits_of_full_ranking (qe : Np.vector) (vals : list Document) top hits :
  Permutation top (seq 0 (length vals)) ->
  Forall2 (fun idx h => exists d, nth_error vals idx = Some d
                                  /\ h = hit_of qe d) top hits ->
  Permutation hits (map (hit_of qe) vals).
Proof.
  intros Hperm Hhits. apply Permutation_map_Some.
  assert (H1 : map (fun idx => option_map (hit_of qe) (nth_error vals idx)) top
               = map Some hits).
  { clear Hperm.
    induction Hhits as [| idx h top hits (d & Hd & ->) _ IH]; simpl;
      [reflexivity |].
    rewrite Hd. simpl. f_equal. apply IH. }
  rewrite <- H1.
  rewrite (Permutation_map
             (fun idx => option_map (hit_of qe) (nth_error vals idx)) Hperm).
  rewrite <- (map_map (nth_error vals) (option_map (hit_of qe))).
  rewrite nth_error_seq_all, !map_map. reflexivity.
Qed.

(** Hits built along the ranking are in descending order of similarity. *)
Lemma hits_descending s qe k hits :
  Forall2 (fun idx h => exists d, nth_error (Py.values (documents s)) idx = Some d
                                  /\ h = hit_of qe d)
    (Py.slice_to k (rev (Np.argsort (similarities_of s qe)))) hits ->
  Sorted descending hits.
Proof.
  intros Hhits.
  eapply Forall2_Sorted;
    [| exact Hhits | apply ranking_Sorted, argsort_sorts].
  intros i j h1 h2 (d1 & Hd1 & ->) (d2 & Hd2 & ->) (x & y & Hx & Hy & Hle).
  unfold similarities_of in Hx, Hy. rewrite nth_error_map in Hx, Hy.
  rewrite Hd2 in Hx. rewrite Hd1 in Hy. simpl in Hx, Hy.
  injection Hx as <-. injection Hy as <-.
  unfold descending, hit_of. simpl. exact Hle.
Qed.

(** C7 (amended). On a store without records [search] returns the empty
    list, for every query and every [k], without embedding the query.  For
    [k >= 0], on an aligned store and a query whose embedding has the
    dimension of the index rows, [search] returns without error
    [min(k, record count)] hits in descending order of similarity; when [k]
    is at least the record count these are the hits of all the records.
    [np.argsort] is any function that sorts ([argsort_sorts]). *)
Theorem search_clamps_to_record_count q k w :
  (documents (self w) = [] -> search_ q k w = (Ok [], w))
  /\ (forall qe w1,
         (0 <= k)%Z ->
         Py.wf (documents (self w)) -> aligned (self w) ->
         get_embedding_ q w = (Ok qe, w1) ->
         Forall (fun r => length r = length qe) (index_rows (self w)) ->
         exists hits w',
           search_ q k w = (Ok hits, w')
           /\ length hits
              = Nat.min (Z.to_nat k) (length (documents (self w)))
           /\ Sorted descending hits
           /\ ((Z.of_nat (length (documents (self w))) <= k)%Z ->
               Permutation hits
                 (map (hit_of qe) (Py.values (documents (self w)))))).
Proof.
  split.
  - intros Hempty. rewrite search_eq, Hempty. reflexivity.
  - intros qe w1 Hk Hwf Hal Hemb Hdim.
    destruct (search_aligned q k w Hwf Hal Hemb Hdim) as (hits & w' & Hs & Hhits).
    assert (Hlen : length (rev (Np.argsort (similarities_of (self w) qe)))
                   = length (documents (self w))).
    { rewrite length_rev.
      rewrite (Permutation_length (proj1 (argsort_sorts _))), length_seq.
      unfold similarities_of, Py.values. now rewrite !length_map. }
    exists hits, w'. split; [exact Hs | split; [| split]].
    + rewrite <- (Forall2_length Hhits), slice_to_length by exact Hk.
      now rewrite Hlen.
    + eapply hits_descending. exact Hhits.
    + intros Hall. rewrite slice_to_all in Hhits by (rewrite Hlen; exact Hall).
      eapply hits_of_full_ranking; [| exact Hhits].
      rewrite <- Permutation_rev, (proj1 (argsort_sorts _)).
      unfold similarities_of. now rewrite length_map.
Qed.

(** C2 (amended). The hits [search] returns are in descending order of
    similarity (numpy's order, NaN first); they follow the reversed
    [argsort] of the similarities, which fixes no order among hits of equal
    similarity; [search] leaves the store as it is, and its result is a
    function of the store and the query alone: any two calls on the same
    store return the same sequence.  [np.argsort] is any function that sorts
    ([argsort_sorts]). *)
Theorem search_results_sorted_descending q k w hits w' :
  search_ q k w = (Ok hits, w') ->
  Sorted descending hits
  /\ (exists similarities,
         Forall2 (fun idx h => nth_error similarities idx = Some (similarity h))
           (Py.slice_to k (rev (Np.argsort similarities))) hits)
  /\ self w' = self w
  /\ (forall w2, self w2 = self w -> fst (search_ q k w2) = Ok hits).
Proof.
  intros Hs.
  assert (Hranked : exists similarities,
             Forall2 (fun idx h => nth_error similarities idx
                                   = Some (similarity h))
               (Py.slice_to k (rev (Np.argsort similarities))) hits).
  { rewrite search_eq in Hs.
    assert (Hnil : hits = [] -> exists similarities,
               Forall2 (fun idx h => nth_error similarities idx
                                     = Some (similarity h))
                 (Py.slice_to k (rev (Np.argsort similarities))) hits).
    { intros ->. exists [].
      rewrite ranking_nil by exact argsort_sorts. constructor. }
    destruct (documents (self w)) as [| kv docs];
      [injection Hs as <- _; now apply Hnil |].
    destruct (embeddings (self w)) as [E |];
      [| injection Hs as <- _; now apply Hnil].
    destruct (get_embedding_ q w) as [[qe | e] w1]; [| discriminate].
    destruct (cosine_similarities E qe) as [sims | e]; [| discriminate].
    injection Hs as Hseq _. apply sequence_ok in Hseq.
    apply map_Ok_Forall2 in Hseq.
    exists sims.
    eapply Forall2_impl; [| exact Hseq].
    intros idx h. unfold result_of.
    destruct (nth_error (doc_ids (self w)) idx); [| discriminate].
    destruct (Py.get _ _); [| discriminate].
    destruct (nth_error sims idx); [| discriminate].
    now intros [= <-]. }
  split; [| split; [exact Hranked | split]].
  - destruct Hranked as (sims & Hhits).
    eapply Forall2_Sorted;
      [| exact Hhits | apply (ranking_Sorted sims k argsort_sorts)].
    intros i j h1 h2 H1 H2 (x & y & Hx & Hy & Hle).
    unfold descending. congruence.
  - rewrite search_eq in Hs.
    destruct (documents (self w)) as [| kv docs];
      [now injection Hs as _ <- |].
    destruct (embeddings (self w)) as [E |];
      [| now injection Hs as _ <-].
    destruct (get_embedding_ q w) as [[qe | e] w1] eqn:Hemb; [| discriminate].
    apply get_embedding_frame in Hemb. destruct Hemb as (Hself & _).
    destruct (cosine_similarities E qe) as [sims | e]; [| discriminate].
    now injection Hs as _ <-.
  - intros w2 Hself.
    rewrite search_eq in Hs |- *. rewrite Hself.
    destruct (documents (self w)) as [| kv docs];
      [now injection Hs as <- _ |].
    destruct (embeddings (self w)) as [E |];
      [| now injection Hs as <- _].
    pose proof (get_embedding_state_indep q w w2) as Hind.
    destruct (get_embedding_ q w) as [[qe | e] w1]; [| discriminate].
    destruct (get_embedding_ q w2) as [r2 w3]. simpl in Hind. subst r2.
    destruct (cosine_similarities E qe) as [sims | e]; [| discriminate].
    injection Hs as Hseq _. simpl. exact Hseq.
Qed.

(** C1 (amended). On an aligned store, for a query whose embedding has the
    dimension of the index rows, [search] returns without raising also when
    a stored embedding or the query embedding is the zero vector; each hit
    carries the cosine similarity of its record, and for a zero-norm pairing
    that similarity is NaN (not 0).  [np.argsort] is any function that sorts
    ([argsort_sorts]), the sums of numpy any that are zero on zeros
    ([sums_of_zeros]). *)
Theorem search_zero_norm_similarity_is_nan q k w qe w1 :
  Py.wf (documents (self w)) -> aligned (self w) ->
  get_embedding_ q w = (Ok qe, w1) ->
  Forall (fun r => length r = length qe) (index_rows (self w)) ->
  exists hits w',
    search_ q k w = (Ok hits, w')
    /\ Forall2
         (fun idx h =>
            exists d,
              nth_error (Py.values (documents (self w))) idx = Some d
              /\ hit_content h = content d
              /\ similarity h = cosine_row (embedding d) qe
              /\ (zero_vector (embedding d) \/ zero_vector qe ->
                  PrimFloat.is_nan (similarity h) = true))
         (Py.slice_to k (rev (Np.argsort (similarities_of (self w) qe))))
         hits.
Proof.
  intros Hwf Hal Hemb Hdim.
  destruct (search_aligned q k w Hwf Hal Hemb Hdim) as (hits & w' & Hs & Hhits).
  exists hits, w'. split; [exact Hs |].
  eapply Forall2_impl; [| exact Hhits].
  intros idx h (d & Hd & ->). exists d. simpl.
  repeat split; auto.
  apply cosine_row_zero; [exact sums_of_zeros |].
  destruct Hal as [_ Hrows]. rewrite Hrows in Hdim.
  rewrite Forall_forall in Hdim. apply Hdim.
  apply in_map. eapply nth_error_In. exact Hd.
Qed.

End Search.

(** ** Deleting a group, in full *)

Lemma del_notin {V : Type} (k : string) (d : Py.dict V) :
  ~ In k (Py.keys d) -> Py.del k d = d.
Proof.
  induction d as [| [k0 v0] d IH]; simpl; [reflexivity |].
  intros Hnin. destruct (String.eqb_spec k k0) as [-> | _]; [tauto |].
  f_equal. apply IH. tauto.
Qed.

Lemma delete_all_cons_notin ks : forall k v rest,
  ~ In k ks ->
  delete_all ks ((k, v) :: rest) = (k, v) :: delete_all ks rest.
Proof.
  induction ks as [| k0 ks IH]; intros k v rest Hnin; simpl; [reflexivity |].
  simpl in Hnin. destruct (String.eqb_spec k0 k) as [-> | _]; [tauto |].
  apply IH. tauto.
Qed.

(** Deleting the keys of the records that satisfy [P] leaves the records
    that do not. *)
Lemma delete_all_filter (P : string * Document -> bool) docs :
  Py.wf docs ->
  delete_all (map fst (filter P docs)) docs
  = filter (fun kv => negb (P kv)) docs.
Proof.
  unfold Py.wf. induction docs as [| [k v] docs IH]; simpl; [reflexivity |].
  intros Hwf. inversion Hwf as [| ? ? Hnin Hnd]; subst.
  destruct (P (k, v)); simpl.
  - rewrite String.eqb_refl. now apply IH.
  - rewrite delete_all_cons_notin; [f_equal; now apply IH |].
    intros Hin. apply Hnin. apply in_map_iff in Hin.
    destruct Hin as ([k' v'] & Hk & Hin). simpl in Hk. subst k'.
    apply filter_In in Hin. destruct Hin as [Hin _].
    apply in_map_iff. now exists (k, v').
Qed.

Lemma members_values g s :
  members g s
  = map snd (filter (fun kv => String.eqb (doc_id (snd kv)) g) (documents s)).
Proof.
  unfold members, Py.values.
  induction (documents s) as [| [k v] docs IH]; simpl; [reflexivity |].
  destruct (String.eqb (doc_id v) g); simpl; now rewrite IH.
Qed.

Lemma members_nil_keys g s :
  members g s = [] <->
  map fst (filter (fun kv => String.eqb (doc_id (snd kv)) g) (documents s)) = [].
Proof.
  rewrite members_values.
  destruct (filter _ (documents s)); simpl; split; congruence.
Qed.

Lemma values_without_group g docs :
  Py.values (without_group g docs)
  = filter (fun d => negb (String.eqb (doc_id d) g)) (Py.values docs).
Proof.
  unfold without_group, Py.values.
  induction docs as [| [k v] docs IH]; simpl; [reflexivity |].
  destruct (String.eqb (doc_id v) g); simpl; now rewrite IH.
Qed.

Lemma filter_filter_nil {A : Type} (P : A -> bool) (l : list A) :
  filter P (filter (fun x => negb (P x)) l) = [].
Proof.
  induction l as [| x l IH]; simpl; [reflexivity |].
  destruct (P x) eqn:E; simpl; [exact IH |]. now rewrite E.
Qed.

Lemma filter_filter_other {A : Type} (P Q : A -> bool) (l : list A) :
  (forall x, P x = true -> Q x = false) ->
  filter P (filter (fun x => negb (Q x)) l) = filter P l.
Proof.
  intros H. induction l as [| x l IH]; simpl; [reflexivity |].
  destruct (Q x) eqn:EQ; simpl.
  - destruct (P x) eqn:EP; [| exact IH]. apply H in EP. congruence.
  - now rewrite IH.
Qed.

Lemma wf_without_group g docs : Py.wf docs -> Py.wf (without_group g docs).
Proof.
  unfold Py.wf, without_group, Py.keys.
  induction docs as [| [k v] docs IH]; simpl; [auto |].
  intros Hwf. inversion Hwf as [| ? ? Hnin Hnd]; subst.
  destruct (negb _); simpl; [| now apply IH].
  constructor; [| now apply IH].
  intros Hin. apply Hnin. apply in_map_iff in Hin.
  destruct Hin as (kv & Hk & Hin). apply filter_In in Hin.
  apply in_map_iff. exists kv. tauto.
Qed.

(** [np.array] accepts rows exactly when any two of them have one length. *)
Lemma array_ok_iff rows :
  is_ok (Np.array rows) = true <->
  (forall a b, In a rows -> In b rows -> length a = length b).
Proof.
  destruct rows as [| r rest]; simpl; [tauto |].
  destruct (forallb (fun r' => Nat.eqb (length r') (length r)) rest) eqn:E;
    simpl.
  - rewrite forallb_forall in E. split; [| reflexivity]. intros _ a b Ha Hb.
    assert (H : forall x, r = x \/ In x rest -> length x = length r).
    { intros x [<- | Hx]; [reflexivity |]. now apply Nat.eqb_eq, E. }
    rewrite (H a Ha), (H b Hb). reflexivity.
  - split; [discriminate |]. intros H.
    assert (E' : forallb (fun r' => Nat.eqb (length r') (length r)) rest = true).
    { apply forallb_forall. intros x Hx. apply Nat.eqb_eq. apply H; auto. }
    congruence.
Qed.

Lemma uniform_dim_without_group g docs :
  uniform_dim docs = true -> uniform_dim (without_group g docs) = true.
Proof.
  unfold uniform_dim. rewrite !array_ok_iff. intros H a b Ha Hb.
  rewrite values_without_group in Ha, Hb.
  apply in_map_iff in Ha, Hb.
  destruct Ha as (da & <- & Ha), Hb as (db & <- & Hb).
  apply filter_In in Ha, Hb. apply H; apply in_map; tauto.
Qed.

Section Deleting.
Context {rng : Type} {os : OS}.
Implicit Types (w : World rng).

(** [_rebuild_index] completes on a record set [np.array] accepts. *)
Lemma rebuild_index_ok w :
  Py.wf (documents (self w)) ->
  uniform_dim (documents (self w)) = true ->
  exists w',
    _rebuild_index w = (Ok tt, w')
    /\ aligned (self w')
    /\ documents (self w') = documents (self w)
    /\ persist_path (self w') = persist_path (self w)
    /\ fs w' = fs w /\ stdout w' = stdout w.
Proof.
  intros Hwf Hdim. rewrite (rebuild_index_eq _ Hwf). unfold uniform_dim in Hdim.
  destruct (documents (self w)) as [| kv docs] eqn:Hdocs.
  - eexists. split; [reflexivity |]. unfold aligned, index_rows. simpl. auto.
  - cbv zeta. destruct (Np.array _) as [E | e] eqn:HE; [| discriminate].
    apply array_ok_eq in HE. subst E.
    eexists. split; [reflexivity |]. unfold aligned, index_rows. simpl. auto 7.
Qed.

(** [_rebuild_index] leaves the path of the store alone, however it ends. *)
Lemma rebuild_index_path w r w' :
  Py.wf (documents (self w)) ->
  _rebuild_index w = (r, w') ->
  persist_path (self w') = persist_path (self w).
Proof.
  intros Hwf. rewrite rebuild_index_eq by exact Hwf.
  destruct (documents (self w)) as [| kv docs].
  - now intros [= _ <-].
  - cbv zeta. destruct (Np.array _); now intros [= _ <-].
Qed.

(** After a save the data file holds the text of the whole record set. *)
Lemma save_file (s : SimpleVectorStore) (fs0 : Py.dict file) :
  Py.get (data_file s) (fs_run (_save_ops s) fs0)
  = Some (snapshot_text (documents s)).
Proof.
  unfold snapshot_text.
  set (toks := json_dump (map asdict (Py.values (documents s)))).
  destruct (save_ops_prefix s fs0 (length toks)) as [Hg _].
  fold toks in Hg. rewrite firstn_all in Hg.
  rewrite firstn_all2 in Hg; [exact Hg |].
  unfold _save_ops. fold toks. simpl. rewrite length_map. lia.
Qed.

Lemma delete_eq g w :
  Py.wf (documents (self w)) ->
  delete_by_doc_id g w
  = match members g (self w) with
    | [] => (Ok false, w)
    | _ :: _ =>
        match _rebuild_index
                (with_self (with_documents
                              (without_group g (documents (self w))) (self w))
                   w) with
        | (Ok _, w2) =>
            match _save w2 with
            | (Ok _, w3) => (Ok true, w3)
            | (Raise e, w3) => (Raise e, w3)
            end
        | (Raise e, w2) => (Raise e, w2)
        end
    end.
Proof.
  intros Hwf. unfold delete_by_doc_id, bind at 1, get_self.
  pose proof (members_nil_keys g (self w)) as Hnil.
  pose proof (delete_all_filter
                (fun kv => String.eqb (doc_id (snd kv)) g) Hwf) as Hdel.
  destruct (map fst (filter _ (documents (self w)))) as [| k ks] eqn:Hks.
  - rewrite (proj2 Hnil eq_refl). reflexivity.
  - destruct (members g (self w)) as [| m ms];
      [destruct Hnil as [Hnil _]; discriminate (Hnil eq_refl) |].
    unfold bind at 1. rewrite for_each_del, Hdel. fold (without_group g (documents (self w))).
    unfold bind at 1.
    destruct (_rebuild_index _) as [[[] | e] w2]; [| reflexivity].
    unfold bind, ret. now destruct (_save w2) as [[[] | e] w3].
Qed.

Lemma members_without_same g (s : SimpleVectorStore) docs :
  documents s = without_group g docs -> members g s = [].
Proof.
  intros H. unfold members. rewrite H, values_without_group.
  apply (filter_filter_nil (fun d => String.eqb (doc_id d) g)).
Qed.

Lemma members_without_other g g' (s s0 : SimpleVectorStore) :
  g' <> g ->
  documents s = without_group g (documents s0) ->
  members g' s = members g' s0.
Proof.
  intros Hne H. unfold members. rewrite H, values_without_group.
  apply (filter_filter_other (fun d => String.eqb (doc_id d) g')
           (fun d => String.eqb (doc_id d) g)).
  intros d Hd. apply String.eqb_eq in Hd. apply String.eqb_neq. congruence.
Qed.

(** A delete that returned [True] left the record set without the group. *)
Lemma delete_true_documents g w w' :
  Py.wf (documents (self w)) ->
  delete_by_doc_id g w = (Ok true, w') ->
  documents (self w') = without_group g (documents (self w))
  /\ persist_path (self w') = persist_path (self w)
  /\ aligned (self w')
  /\ Py.get (data_file (self w)) (fs w')
     = Some (snapshot_text (documents (self w'))).
Proof.
  intros Hwf. rewrite delete_eq by exact Hwf.
  destruct (members g (self w)) as [| m ms]; [discriminate |].
  destruct (_rebuild_index _) as [[[] | e] w2] eqn:Hre; [| discriminate].
  destruct (_save w2) as [[[] | e] w3] eqn:Hsave; [| discriminate].
  apply save_ok in Hsave. subst w3.
  intros [= <-]. simpl.
  assert (Hp : persist_path (self w2) = persist_path (self w)).
  { apply rebuild_index_path in Hre; [exact Hre |].
    simpl. now apply wf_without_group. }
  apply rebuild_index_aligned in Hre; [| now apply wf_without_group].
  destruct Hre as (Hal & Hd & _). simpl in Hd.
  split; [exact Hd | split; [exact Hp | split; [exact Hal |]]].
  replace (data_file (self w)) with (data_file (self w2))
    by (unfold data_file; now rewrite Hp).
  apply save_file.
Qed.

(** The file system carries out every operation. *)
Hypothesis os_accepts : forall op fs0, os_error op fs0 = None.

(** X1. [delete_by_doc_id] removes all the records of the group and only
    them: when the group has no record it returns [False] and changes
    nothing; when it has some (and the embeddings of the record set have one
    length) it returns [True], the record set is the old one without the
    records of the group, every other group keeps its records in their
    order, the index is aligned and the snapshot holds the new record
    set.  The file system carries out every operation ([os_accepts]). *)
Theorem delete_removes_exactly_the_group g w :
  Py.wf (documents (self w)) ->
  (members g (self w) = [] -> delete_by_doc_id g w = (Ok false, w))
  /\ (members g (self w) <> [] ->
      uniform_dim (documents (self w)) = true ->
      exists w',
        delete_by_doc_id g w = (Ok true, w')
        /\ documents (self w') = without_group g (documents (self w))
        /\ members g (self w') = []
        /\ (forall g', g' <> g -> members g' (self w') = members g' (self w))
        /\ aligned (self w')
        /\ Py.get (data_file (self w)) (fs w')
           = Some (snapshot_text (documents (self w')))).
Proof.
  intros Hwf. split.
  - intros Hnil. rewrite delete_eq by exact Hwf. now rewrite Hnil.
  - intros Hne Hdim.
    assert (Hex : exists w', delete_by_doc_id g w = (Ok true, w')).
    { rewrite delete_eq by exact Hwf.
      destruct (members g (self w)) as [| m ms]; [congruence |].
      destruct (rebuild_index_ok
                  (with_self (with_documents
                                (without_group g (documents (self w))) (self w))
                     w)) as (w2 & Hre & _).
      - simpl. now apply wf_without_group.
      - simpl. now apply uniform_dim_without_group.
      - rewrite Hre, save_accepted by (intros op _; apply os_accepts).
        eauto. }
    destruct Hex as (w' & Hdel). exists w'.
    pose proof Hdel as H0. apply delete_true_documents in H0; [| exact Hwf].
    destruct H0 as (Hd & _ & Hal & Hfile).
    split; [exact Hdel | split; [exact Hd | split; [| split; [| split]]]];
      auto.
    + eapply members_without_same. exact Hd.
    + intros g' Hne'. eapply members_without_other; eassumption.
Qed.

(** X2. Deleting a group twice: after a delete that returned [True], the
    same delete returns [False] and leaves store, files and output as they
    are. *)
Theorem delete_twice_returns_false g w w' :
  Py.wf (documents (self w)) ->
  delete_by_doc_id g w = (Ok true, w') ->
  delete_by_doc_id g w' = (Ok false, w').
Proof.
  intros Hwf Hdel.
  pose proof Hdel as H0. apply delete_true_documents in H0; [| exact Hwf].
  destruct H0 as (Hd & _).
  assert (Hwf' : Py.wf (documents (self w')))
    by (rewrite Hd; now apply wf_without_group).
  rewrite delete_eq by exact Hwf'.
  erewrite members_without_same by exact Hd. reflexivity.
Qed.

(** X3. After a group is deleted its content is not found, and the content
    of every other group reads as before. *)
Theorem delete_then_content_not_found g w w' :
  Py.wf (documents (self w)) ->
  delete_by_doc_id g w = (Ok true, w') ->
  get_document_content g w' = (Ok None, w')
  /\ (forall g', g' <> g ->
        fst (get_document_content g' w') = fst (get_document_content g' w)).
Proof.
  intros Hwf Hdel.
  pose proof Hdel as H0. apply delete_true_documents in H0; [| exact Hwf].
  destruct H0 as (Hd & _).
  split.
  - rewrite get_document_content_eq.
    erewrite members_without_same by exact Hd. reflexivity.
  - intros g' Hne. rewrite !get_document_content_eq.
    erewrite (members_without_other (g := g)) by (exact Hne || exact Hd).
    destruct (members g' (self w)) as [| first rest]; [reflexivity |].
    now destruct (list_sort _ _).
Qed.


End Deleting.

(** ** What [search] reads and what it leaves alone *)

Lemma get_some_In {V : Type} (k : string) (v : V) (d : Py.dict V) :
  Py.get k d = Some v -> In (k, v) d.
Proof.
  induction d as [| [k0 v0] d IH]; simpl; [discriminate |].
  destruct (String.eqb_spec k k0) as [-> | _].
  - intros [= ->]. now left.
  - intros H. right. now apply IH.
Qed.

Lemma Forall2_Forall_r {A B : Type} (P : A -> B -> Prop) (Q : B -> Prop)
    l l' :
  (forall a b, P a b -> Q b) -> Forall2 P l l' -> Forall Q l'.
Proof. intros H. induction 1; constructor; eauto. Qed.

(** A hit [result_of] builds carries the content and metadata of a stored
    record. *)
Lemma result_of_from_store s sims idx h :
  result_of s sims idx = Ok h ->
  exists d,
    In d (Py.values (documents s))
    /\ hit_content h = content d /\ hit_metadata h = metadata d.
Proof.
  unfold result_of.
  destruct (nth_error (doc_ids s) idx) as [k |]; [| discriminate].
  destruct (Py.get k (documents s)) as [d |] eqn:Hd; [| discriminate].
  destruct (nth_error sims idx); [| discriminate].
  intros [= <-]. exists d. simpl. repeat split.
  apply get_some_In in Hd. unfold Py.values.
  apply in_map_iff. now exists (k, d).
Qed.

Lemma slice_to_length_le {A : Type} (k : Z) (l : list A) :
  length (Py.slice_to k l) <= length l.
Proof.
  destruct (slice_to_firstn k l) as [m ->]. rewrite length_firstn. lia.
Qed.

Section Searching.

Variable rng : Type.
Variable np_random_seed : Z -> rng.
Variable np_random_randn : nat -> rng -> list float * rng.
Variable md5_int : string -> Z.
Variable encoder : option (string -> result (list float)).
Context {numpy : Np.Routines} {os : OS}.

Local Abbreviation get_embedding_ :=
  (_get_embedding np_random_seed np_random_randn md5_int encoder).
Local Abbreviation search_ :=
  (search np_random_seed np_random_randn md5_int encoder).

Implicit Types (w : World rng).

(** The hits of a completed [search], from any store. *)
Lemma search_hits q k w hits w' :
  search_ q k w = (Ok hits, w') ->
  Forall (fun h =>
            exists d,
              In d (Py.values (documents (self w)))
              /\ hit_content h = content d /\ hit_metadata h = metadata d)
    hits.
Proof.
  rewrite search_eq.
  destruct (documents (self w)) as [| kv docs] eqn:Hdocs;
    [intros [= <- _]; constructor |].
  destruct (embeddings (self w)) as [E |];
    [| intros [= <- _]; constructor].
  destruct (get_embedding_ q w) as [[qe | e] w1]; [| discriminate].
  destruct (cosine_similarities E qe) as [sims | e]; [| discriminate].
  intros [= Hseq _]. apply sequence_ok, map_Ok_Forall2 in Hseq.
  rewrite <- Hdocs. eapply Forall2_Forall_r; [| exact Hseq].
  intros idx h. apply result_of_from_store.
Qed.

(** X4. [search] reads only: however it ends, the store, the files and
    the clock are as before; when a model is loaded, or the store has no
    records or no index, the whole process state is.  Without a model a
    search over an indexed store prints the warning that the package is
    missing (and reseeds numpy's global generator). *)
Theorem search_reads_only q k w r w' :
  search np_random_seed np_random_randn md5_int encoder q k w = (r, w') ->
  self w' = self w /\ fs w' = fs w /\ clock w' = clock w
  /\ (encoder <> None -> w' = w)
  /\ (documents (self w) = [] \/ embeddings (self w) = None -> w' = w)
  /\ (encoder = None ->
      documents (self w) <> [] -> embeddings (self w) <> None ->
      stdout w' = stdout w ++ [InstallWarningLine]).
Proof.
  rewrite search_eq.
  assert (Hsame : (r, w') = (r, w) ->
            self w' = self w /\ fs w' = fs w /\ clock w' = clock w
            /\ (encoder <> None -> w' = w)
            /\ (documents (self w) = [] \/ embeddings (self w) = None ->
                w' = w)).
  { intros [= ->]. auto 6. }
  destruct (documents (self w)) as [| kv docs].
  { intros [= <- <-]. destruct (Hsame eq_refl) as (H1 & H2 & H3 & H4 & H5).
    repeat split; auto. congruence. }
  destruct (embeddings (self w)) as [E |].
  2: { intros [= <- <-]. destruct (Hsame eq_refl) as (H1 & H2 & H3 & H4 & H5).
       repeat split; auto. congruence. }
  destruct (get_embedding_ q w) as [re w1] eqn:Hemb.
  assert (Hw1 : self w1 = self w /\ fs w1 = fs w /\ clock w1 = clock w
                /\ (encoder <> None -> w1 = w)
                /\ (encoder = None ->
                    stdout w1 = stdout w ++ [InstallWarningLine])).
  { pose proof Hemb as Hfr. apply get_embedding_frame in Hfr.
    destruct Hfr as (H1 & H2 & H3 & H4). repeat split; auto.
    - intros Hne. unfold _get_embedding, get_embedding_model, bind in Hemb.
      destruct encoder as [model |]; [| congruence].
      unfold ret, lift in Hemb. congruence.
    - intros Hnone. now rewrite Hnone in H3. }
  assert (Hend : w' = w1 ->
            self w' = self w /\ fs w' = fs w /\ clock w' = clock w
            /\ (encoder <> None -> w' = w)
            /\ (kv :: docs = [] \/ Some E = None -> w' = w)
            /\ (encoder = None ->
                kv :: docs <> [] -> Some E <> None ->
                stdout w' = stdout w ++ [InstallWarningLine])).
  { intros ->. destruct Hw1 as (H1 & H2 & H3 & H4 & H5).
    repeat split; auto. intros [H | H]; discriminate. }
  destruct re as [qe | e]; [| intros [= _ <-]; now apply Hend].
  destruct (cosine_similarities E qe); intros [= _ <-]; now apply Hend.
Qed.

(** What numpy documents of [argsort]. *)
Hypothesis argsort_sorts : sorts_ascending Np.argsort.

(** X5. [search] returns only what is stored and no more than asked: every
    hit carries the content and the metadata of a record of the store, there
    are at most as many hits as index rows, and for [k >= 0] at most [k].
    [np.argsort] is any function that sorts ([argsort_sorts]). *)
Theorem search_returns_stored_records q k w hits w' :
  search_ q k w = (Ok hits, w') ->
  Forall (fun h =>
            exists d,
              In d (Py.values (documents (self w)))
              /\ hit_content h = content d /\ hit_metadata h = metadata d)
    hits
  /\ length hits <= length (index_rows (self w))
  /\ ((0 <= k)%Z -> length hits <= Z.to_nat k).
Proof.
  intros Hs. split; [eapply search_hits; exact Hs |].
  rewrite search_eq in Hs. unfold index_rows.
  destruct (documents (self w)) as [| kv docs];
    [injection Hs as <- _; simpl; split; lia |].
  destruct (embeddings (self w)) as [E |];
    [| injection Hs as <- _; simpl; split; lia].
  destruct (get_embedding_ q w) as [[qe | e] w1]; [| discriminate].
  destruct (cosine_similarities E qe) as [sims | e] eqn:Hc; [| discriminate].
  injection Hs as Hseq _. apply sequence_ok, map_Ok_Forall2 in Hseq.
  pose proof (Forall2_length Hseq) as Hlen.
  apply cosine_similarities_rows in Hc.
  assert (Hall : length (rev (Np.argsort sims)) = length E).
  { rewrite length_rev.
    rewrite (Permutation_length (proj1 (argsort_sorts sims))), length_seq.
    subst sims. now rewrite length_map. }
  split.
  - rewrite <- Hlen, <- Hall. apply slice_to_length_le.
  - intros Hk. rewrite <- Hlen, slice_to_length by exact Hk. lia.
Qed.

(** X6. After a group is deleted no search returns one of its records:
    every hit of a later search carries the content and metadata of a record
    of another group. *)
Theorem delete_then_search_excludes_group g q k w w1 hits w2 :
  Py.wf (documents (self w)) ->
  delete_by_doc_id g w = (Ok true, w1) ->
  search_ q k w1 = (Ok hits, w2) ->
  Forall (fun h =>
            exists d,
              In d (Py.values (documents (self w)))
              /\ doc_id d <> g
              /\ hit_content h = content d /\ hit_metadata h = metadata d)
    hits.
Proof.
  intros Hwf Hdel Hs. apply search_hits in Hs. rename Hs into Hhits.
  apply delete_true_documents in Hdel; [| exact Hwf].
  destruct Hdel as (Hd & _).
  eapply Forall_impl; [| exact Hhits].
  intros h (d & Hin & Hc & Hm). exists d.
  rewrite Hd, values_without_group in Hin. apply filter_In in Hin.
  destruct Hin as [Hin Hg]. apply negb_true_iff, String.eqb_neq in Hg. auto.
Qed.

(** X7. The failures of [search] on a store with an index: when the
    encoder raises on the query, [search] raises the same exception in the
    unchanged state; when a row of the index has another length than the
    query embedding, it raises [ValueError]. *)
Theorem search_failures q k w E :
  documents (self w) <> [] ->
  embeddings (self w) = Some E ->
  (forall e, embedding_raises encoder q e -> search_ q k w = (Raise e, w))
  /\ (forall qe w1 r,
         get_embedding_ q w = (Ok qe, w1) ->
         In r E -> length r <> length qe ->
         search_ q k w = (Raise ValueError, w1)).
Proof.
  intros Hne HE. rewrite search_eq, HE.
  destruct (documents (self w)) as [| kv docs]; [congruence |]. split.
  - intros e Hraise.
    now rewrite (get_embedding_raises np_random_seed np_random_randn md5_int
                   w Hraise).
  - intros qe w1 r Hemb Hin Hlen. rewrite Hemb.
    unfold cosine_similarities, Np.matvec.
    assert (Hf : forallb (fun r0 => Nat.eqb (length r0) (length qe)) E = false).
    { apply not_true_iff_false. intros Hall.
      rewrite forallb_forall in Hall. apply Hall in Hin.
      now apply Nat.eqb_eq in Hin. }
    now rewrite Hf.
Qed.

End Searching.

(** ** The list of sources *)

Lemma set_notin_app {V : Type} (k : string) (v : V) (d : Py.dict V) :
  ~ In k (Py.keys d) -> Py.set k v d = d ++ [(k, v)].
Proof.
  induction d as [| [k0 v0] d IH]; simpl; [reflexivity |].
  intros Hnin. destruct (String.eqb_spec k k0) as [-> | _]; [tauto |].
  f_equal. apply IH. tauto.
Qed.

Lemma set_set {V : Type} (k : string) (v1 v2 : V) (d : Py.dict V) :
  Py.set k v2 (Py.set k v1 d) = Py.set k v2 d.
Proof.
  induction d as [| [k0 v0] d IH]; simpl.
  - now rewrite String.eqb_refl.
  - destruct (String.eqb k k0) eqn:E; simpl.
    + now rewrite String.eqb_refl.
    + rewrite E. now f_equal.
Qed.

Lemma in_set_wf {V : Type} (k : string) (v : V) (d : Py.dict V) kv :
  Py.wf d -> In kv (Py.set k v d) ->
  kv = (k, v) \/ (In kv d /\ fst kv <> k).
Proof.
  unfold Py.wf. induction d as [| [k0 v0] d IH]; simpl.
  - intros _ [<- | []]. now left.
  - intros Hwf. inversion Hwf as [| ? ? Hnin Hnd]; subst.
    destruct (String.eqb_spec k k0) as [-> | Hne]; simpl.
    + intros [<- | Hin]; [now left | right]. split; [now right |].
      intros Heq. apply Hnin. rewrite <- Heq.
      apply in_map_iff. now exists kv.
    + intros [<- | Hin]; [right; split; [now left | simpl; congruence] |].
      destruct (IH Hnd Hin) as [-> | [Hin' Hk]]; [now left | right; auto].
Qed.

Lemma sum_after_set {V : Type} (f : V -> nat) (k : string) (e e' : V)
    (d : Py.dict V) :
  Py.get k d = Some e ->
  list_sum (map f (Py.values (Py.set k e' d))) + f e
  = list_sum (map f (Py.values d)) + f e'.
Proof.
  unfold Py.values.
  induction d as [| [k0 v0] d IH]; simpl; [discriminate |].
  destruct (String.eqb_spec k k0) as [-> | _]; simpl.
  - intros [= ->]. lia.
  - intros H. apply IH in H. lia.
Qed.

Lemma filter_none_of_uncovered (sources : Py.dict source_entry) counted g :
  (forall d, In d counted -> In (doc_id d) (Py.keys sources)) ->
  ~ In g (Py.keys sources) ->
  filter (fun d => String.eqb (doc_id d) g) counted = [].
Proof.
  intros Hcov Hnin. induction counted as [| d l IH]; simpl; [reflexivity |].
  destruct (String.eqb_spec (doc_id d) g) as [Heq | _].
  - exfalso. apply Hnin. rewrite <- Heq. apply Hcov. now left.
  - apply IH. intros d' Hd'. apply Hcov. now right.
Qed.

(** Counting one more record keeps the source list right. *)
Lemma count_source_step sources counted doc :
  sources_count sources counted ->
  exists sources',
    count_source sources doc = Ok sources'
    /\ sources_count sources' (counted ++ [doc]).
Proof.
  intros (Hwf & Hent & Hcov & Hsum). unfold count_source. cbv zeta.
  set (g := doc_id doc).
  assert (Hother : forall kv : string * source_entry, fst kv <> g ->
            filter (fun d => String.eqb (doc_id d) (fst kv)) (counted ++ [doc])
            = filter (fun d => String.eqb (doc_id d) (fst kv)) counted).
  { intros kv Hne. rewrite filter_app. simpl. fold g.
    destruct (String.eqb_spec g (fst kv)); [congruence | apply app_nil_r]. }
  destruct (Py.get g sources) as [e |] eqn:Hget.
  - rewrite Hget. eexists. split; [reflexivity |].
    pose proof (get_some_In _ _ Hget) as Hin.
    pose proof (get_some_in_keys _ _ Hget) as Hkey.
    split; [now apply wf_set | split; [| split]].
    + apply Forall_forall. intros kv Hkv.
      apply in_set_wf in Hkv; [| exact Hwf].
      rewrite Forall_forall in Hent.
      destruct Hkv as [-> | [Hkv Hne]].
      * destruct (Hent _ Hin) as (Hid & first & rest & Hf & Hname & Hn).
        simpl in *. split; [exact Hid |].
        exists first, (rest ++ [doc]). simpl. rewrite filter_app, Hf.
        simpl. fold g.
        rewrite String.eqb_refl. repeat split; auto.
        rewrite Hn. simpl. rewrite length_app. simpl. lia.
      * destruct (Hent _ Hkv) as (Hid & first & rest & Hf & Hname & Hn).
        split; [exact Hid |]. exists first, rest. rewrite Hother by exact Hne.
        auto.
    + intros d Hd. rewrite keys_set_in by exact Hkey.
      apply in_app_or in Hd. destruct Hd as [Hd | [<- | []]]; auto.
    + pose proof (sum_after_set source_chunks g
                    (mkSource (source_id e) (source_name e)
                       (S (source_chunks e))) _ Hget) as Hs.
      simpl in Hs. rewrite length_app. simpl. lia.
  - apply get_none_notin_keys in Hget.
    rewrite get_set_same. eexists. split; [reflexivity |].
    rewrite set_set, set_notin_app by exact Hget.
    split; [| split; [| split]].
    + rewrite <- set_notin_app by exact Hget. now apply wf_set.
    + apply Forall_app. split.
      * apply Forall_forall. intros kv Hkv. rewrite Forall_forall in Hent.
        destruct (Hent _ Hkv) as (Hid & first & rest & Hf & Hname & Hn).
        split; [exact Hid |]. exists first, rest.
        rewrite Hother; [auto |].
        intros Heq. apply Hget. rewrite <- Heq.
        apply in_map_iff. now exists kv.
      * repeat constructor. simpl. exists doc, [].
        rewrite filter_app.
        rewrite (@filter_none_of_uncovered sources counted g Hcov Hget).
        simpl. fold g.
        rewrite String.eqb_refl. auto.
    + intros d Hd. unfold Py.keys. rewrite map_app. apply in_or_app.
      apply in_app_or in Hd. destruct Hd as [Hd | [<- | []]]; [left | right].
      * now apply Hcov.
      * now left.
    + unfold Py.values in *. rewrite !map_app, list_sum_app, length_app.
      simpl. lia.
Qed.

Lemma count_sources_steps docs : forall sources counted,
  sources_count sources counted ->
  exists sources',
    count_sources docs sources = Ok sources'
    /\ sources_count sources' (counted ++ docs).
Proof.
  induction docs as [| doc docs IH]; intros sources counted Hinv; simpl.
  - exists sources. now rewrite app_nil_r.
  - destruct (count_source_step doc Hinv) as (s1 & -> & Hinv1).
    destruct (IH _ _ Hinv1) as (s2 & Hs2 & Hinv2).
    exists s2. now rewrite <- app_assoc in Hinv2.
Qed.

Section SourceList.
Context {rng : Type}.

(** X8. [get_all_sources] never raises and lists every group exactly
    once: each entry has records, names itself by the source of its group's
    first record and counts the records of its group; every record's group
    is listed; and the counts add up to the number of records. *)
Theorem get_all_sources_counts_groups (w : World rng) :
  exists sources,
    get_all_sources w = (Ok sources, w)
    /\ NoDup (map source_id sources)
    /\ Forall
         (fun e =>
            exists first rest,
              members (source_id e) (self w) = first :: rest
              /\ source_name e
                 = Py.get_default "source" (MStr "Unknown") (metadata first)
              /\ source_chunks e = length (first :: rest))
         sources
    /\ (forall d, In d (Py.values (documents (self w))) ->
          In (doc_id d) (map source_id sources))
    /\ list_sum (map source_chunks sources) = length (documents (self w)).
Proof.
  assert (H0 : sources_count [] []).
  { repeat split; [constructor | constructor | intros d []]. }
  destruct (count_sources_steps (Py.values (documents (self w))) H0)
    as (acc & Hacc & Hwf & Hent & Hcov & Hsum).
  simpl in Hent, Hcov, Hsum.
  assert (Hids : map source_id (Py.values acc) = Py.keys acc).
  { unfold Py.values, Py.keys. rewrite map_map. apply map_ext_in.
    intros kv Hkv. rewrite Forall_forall in Hent. now apply Hent. }
  exists (Py.values acc). split; [| split; [| split; [| split]]].
  - unfold get_all_sources, bind at 1, get_self.
    unfold bind, lift, ret. now rewrite Hacc.
  - rewrite Hids. exact Hwf.
  - unfold Py.values. apply Forall_map. eapply Forall_impl; [| exact Hent].
    intros kv (Hid & first & rest & Hf & Hname & Hn).
    exists first, rest. unfold members. rewrite Hid. auto.
  - rewrite Hids. exact Hcov.
  - rewrite Hsum. unfold Py.values. apply length_map.
Qed.

End SourceList.

(** ** Restarting on the snapshot a change wrote *)

Lemma store_all_append : forall docs d0,
  Py.wf (d0 ++ docs) -> keyed_by_id docs ->
  store_all (Py.values docs) d0 = d0 ++ docs.
Proof.
  induction docs as [| [k v] docs IH]; intros d0 Hwf Hk.
  - simpl. now rewrite app_nil_r.
  - inversion Hk as [| ? ? Hkv Hk']; subst. simpl in Hkv. subst k.
    change (store_all (Py.values docs) (Py.set (id v) v d0)
            = d0 ++ (id v, v) :: docs).
    assert (Hnin : ~ In (id v) (Py.keys d0)).
    { unfold Py.wf, Py.keys in Hwf. rewrite map_app in Hwf. simpl in Hwf.
      apply NoDup_remove_2 in Hwf. intros Hin. apply Hwf.
      apply in_or_app. now left. }
    rewrite set_notin_app by exact Hnin.
    replace (d0 ++ (id v, v) :: docs) with ((d0 ++ [(id v, v)]) ++ docs)
      by (now rewrite <- app_assoc).
    apply IH; [| exact Hk'].
    now rewrite <- app_assoc.
Qed.

Lemma keyed_set (doc : Document) (d : Py.dict Document) :
  keyed_by_id d -> keyed_by_id (Py.set (id doc) doc d).
Proof.
  unfold keyed_by_id. induction d as [| [k v] d IH]; simpl; intros H.
  - now repeat constructor.
  - inversion H as [| ? ? Hkv Hd]; subst.
    destruct (String.eqb (id doc) k); constructor; auto.
Qed.

Lemma keyed_without_group g d :
  keyed_by_id d -> keyed_by_id (without_group g d).
Proof.
  unfold keyed_by_id, without_group. rewrite !Forall_forall.
  intros H kv Hkv. apply filter_In in Hkv. now apply H.
Qed.

Section Restarting.

Variable rng : Type.
Variable np_random_seed : Z -> rng.
Variable np_random_randn : nat -> rng -> list float * rng.
Variable md5_int : string -> Z.
Variable encoder : option (string -> result (list float)).
Variable isoformat : nat -> string.
Context {numpy : Np.Routines} {os : OS}.
Implicit Types (w : World rng).

(** The file system carries out every operation. *)
Hypothesis os_accepts : forall op fs0, os_error op fs0 = None.

Local Abbreviation get_embedding_ :=
  (_get_embedding np_random_seed np_random_randn md5_int encoder).
Local Abbreviation add_loop_ :=
  (add_loop np_random_seed np_random_randn md5_int encoder isoformat).
Local Abbreviation add_ :=
  (add np_random_seed np_random_randn md5_int encoder isoformat).

Lemma with_self_self w : with_self (self w) w = w.
Proof. now destruct w. Qed.

(** The loop of [_load] stores the decoded records one after the other. *)
Lemma for_each_load vs : forall w,
  for_each (map asdict vs)
    (fun doc_data =>
       doc <- lift (Document_of doc_data) ;;
       modify_self
         (fun s => with_documents (Py.set (id doc) doc (documents s)) s)) w
  = (Ok tt,
     with_self (with_documents (store_all vs (documents (self w))) (self w)) w).
Proof.
  induction vs as [| v vs IH]; intros w; simpl.
  - unfold ret, with_self, with_documents. now destruct w as [[] ? ? ? ?].
  - unfold bind at 1. unfold bind at 1, lift at 1. simpl Document_of.
    unfold modify_self at 1. now rewrite IH.
Qed.

(** Start-up on the snapshot of a record set: the records are stored as
    they were and the index is rebuilt; a failure of the rebuild is
    printed. *)
Lemma init_on_snapshot path docs w :
  Py.wf docs -> keyed_by_id docs ->
  Py.get (os_path_join path "documents.json") (fs w)
  = Some (snapshot_text docs) ->
  __init__ path w
  = try_except (@_rebuild_index rng) (fun e => print (LoadErrorLine e))
      (with_self (mkStore path docs None []) w).
Proof.
  intros Hwf Hk Hf. rewrite (init_eq os_accepts), Hf.
  unfold try_except, load_body, snapshot_text.
  unfold bind at 1, lift at 1. rewrite json_load_dump.
  unfold bind at 1. rewrite for_each_load. simpl.
  rewrite (@store_all_append docs []) by assumption. reflexivity.
Qed.

(** X9. Start-up on a snapshot: when the data file holds the text of a
    record set whose records are stored under their own ids, the constructor
    ends with exactly these records, in their order, and an aligned index,
    and prints nothing, provided the embeddings have one length; when they
    have not, the records are loaded all the same, the failure of the
    rebuild is printed and the store is left without a matrix.  The file
    system carries out every operation ([os_accepts]). *)
Theorem init_loads_snapshot path docs w :
  Py.wf docs -> keyed_by_id docs ->
  Py.get (os_path_join path "documents.json") (fs w)
  = Some (snapshot_text docs) ->
  exists w',
    __init__ path w = (Ok tt, w')
    /\ documents (self w') = docs
    /\ persist_path (self w') = path
    /\ fs w' = fs w
    /\ (uniform_dim docs = true ->
        aligned (self w') /\ stdout w' = stdout w)
    /\ (uniform_dim docs = false ->
        embeddings (self w') = None
        /\ doc_ids (self w') = Py.keys docs
        /\ stdout w' = stdout w ++ [LoadErrorLine ValueError]).
Proof.
  intros Hwf Hk Hf. rewrite (@init_on_snapshot path docs w Hwf Hk Hf).
  unfold try_except. rewrite rebuild_index_eq by exact Hwf.
  unfold uniform_dim. simpl.
  destruct docs as [| kv docs].
  - eexists. split; [reflexivity |]. simpl.
    repeat split; auto; try discriminate.
  - cbv zeta. destruct (Np.array _) as [E | e] eqn:HE.
    + apply array_ok_eq in HE. subst E.
      eexists. split; [reflexivity |]. simpl.
      repeat split; auto; discriminate.
    + assert (e = ValueError) as ->.
      { unfold Np.array in HE. simpl in HE.
        destruct (forallb _ _); [discriminate | now injection HE]. }
      eexists. split; [reflexivity |]. simpl.
      repeat split; auto; discriminate.
Qed.

(** [_rebuild_index] builds the same store from the same records. *)
Lemma rebuild_index_self w w2 (v : World rng) :
  Py.wf (documents (self w)) ->
  _rebuild_index w = (Ok tt, w2) ->
  documents (self v) = documents (self w) ->
  persist_path (self v) = persist_path (self w) ->
  _rebuild_index v = (Ok tt, with_self (self w2) v)
  /\ documents (self w2) = documents (self w)
  /\ persist_path (self w2) = persist_path (self w).
Proof.
  intros Hwf Hre Hd Hp.
  assert (Hwfv : Py.wf (documents (self v))) by (now rewrite Hd).
  rewrite (rebuild_index_eq _ Hwf) in Hre.
  rewrite (rebuild_index_eq _ Hwfv), Hd, Hp.
  destruct (documents (self w)) as [| kv docs].
  - injection Hre as <-. simpl. auto.
  - cbv zeta in Hre |- *. destruct (Np.array _) as [E | e]; [| discriminate].
    injection Hre as <-. simpl. auto.
Qed.

(** A world whose store came out of [_rebuild_index] and whose data file
    holds the text of its records starts up as itself. *)
Lemma restart_after_rebuild w0 w2 w' :
  Py.wf (documents (self w0)) -> keyed_by_id (documents (self w0)) ->
  _rebuild_index w0 = (Ok tt, w2) ->
  self w' = self w2 ->
  Py.get (data_file (self w2)) (fs w')
  = Some (snapshot_text (documents (self w2))) ->
  __init__ (persist_path (self w0)) w' = (Ok tt, w').
Proof.
  intros Hwf Hk Hre Hself Hfile.
  destruct (@rebuild_index_self w0 w2
              (with_self (mkStore (persist_path (self w0))
                            (documents (self w0)) None []) w')
              Hwf Hre eq_refl eq_refl) as (Hv & Hd2 & Hp2).
  unfold data_file in Hfile. rewrite Hp2, Hd2 in Hfile.
  rewrite (@init_on_snapshot _ _ _ Hwf Hk Hfile).
  unfold try_except. rewrite Hv, <- Hself.
  destruct w' as [s' ? ? ? ?]. reflexivity.
Qed.

(** However the loop of [add] ends, the records stay stored under their
    ids and the path of the store stays what it was. *)
Lemma add_loop_keyed g md texts : forall i added w r w1,
  add_loop_ g md i texts added w = (r, w1) ->
  keyed_by_id (documents (self w)) ->
  keyed_by_id (documents (self w1))
  /\ persist_path (self w1) = persist_path (self w).
Proof.
  induction texts as [| text texts IH]; intros i added w r w1; simpl.
  - unfold ret. intros [= _ <-]. auto.
  - unfold bind at 1.
    destruct (get_embedding_ text w) as [[v | e] w0] eqn:Hemb.
    + pose proof Hemb as Hfr. apply get_embedding_frame in Hfr.
      destruct Hfr as (Hs & _).
      unfold bind at 1, datetime_now at 1. unfold bind at 1, modify_self at 1.
      intros Hloop Hk. apply IH in Hloop.
      * simpl in Hloop. now rewrite Hs in Hloop.
      * simpl. rewrite Hs.
        apply (keyed_set
                 (mkDocument (chunk_id_of g i) g text v
                    (Py.set "chunk_index" (MInt (Z.of_nat i)) md)
                    (isoformat (clock w0)))).
        exact Hk.
    + pose proof Hemb as Hfr. apply get_embedding_frame in Hfr.
      destruct Hfr as (Hs & _).
      intros [= _ <-]. now rewrite Hs.
Qed.

(** X10. What a completed [add] stored survives a restart: the
    constructor, run on the path of the store in the state [add] left,
    reads the snapshot back into the very same store (records, matrix and
    id list), prints nothing and touches no file.  The file system carries
    out every operation ([os_accepts]). *)
Theorem add_then_restart_restores g texts md w n w' :
  Py.wf (documents (self w)) -> keyed_by_id (documents (self w)) ->
  add_ g texts md w = (Ok n, w') ->
  __init__ (persist_path (self w)) w' = (Ok tt, w').
Proof.
  intros Hwf Hk Hadd.
  apply add_inv in Hadd. destruct Hadd as (w1 & w2 & Hloop & Hre & ->).
  pose proof Hloop as Hwf1. apply add_loop_wf in Hwf1; [| exact Hwf].
  pose proof Hloop as Hk1. apply add_loop_keyed in Hk1; [| exact Hk].
  destruct Hk1 as (Hk1 & Hp1).
  rewrite <- Hp1.
  apply (@restart_after_rebuild w1 w2); auto.
  simpl. apply save_file.
Qed.

(** X11. What a delete left survives a restart: after a delete that
    returned [True], the constructor run on the path of the store reads the
    snapshot back into the very same store and changes nothing else.  The
    file system carries out every operation ([os_accepts]). *)
Theorem delete_then_restart_restores g w w' :
  Py.wf (documents (self w)) -> keyed_by_id (documents (self w)) ->
  delete_by_doc_id g w = (Ok true, w') ->
  __init__ (persist_path (self w)) w' = (Ok tt, w').
Proof.
  intros Hwf Hk. rewrite delete_eq by exact Hwf.
  destruct (members g (self w)) as [| m ms]; [discriminate |].
  destruct (_rebuild_index _) as [[[] | e] w2] eqn:Hre; [| discriminate].
  destruct (_save w2) as [[[] | e] w3] eqn:Hsave; [| discriminate].
  apply save_ok in Hsave. subst w3.
  intros [= <-].
  change (persist_path (self w))
    with (persist_path
            (self (with_self
                     (with_documents (without_group g (documents (self w)))
                        (self w)) w))).
  eapply restart_after_rebuild; [| | exact Hre | reflexivity |].
  - simpl. now apply wf_without_group.
  - simpl. now apply keyed_without_group.
  - simpl. apply save_file.
Qed.

End Restarting.


(** ** Reading back what [add] stored *)

Lemma store_all_fresh docs : forall d,
  NoDup (map id docs) ->
  Forall (fun k => ~ In k (Py.keys d)) (map id docs) ->
  store_all docs d = d ++ map (fun doc => (id doc, doc)) docs.
Proof.
  induction docs as [| doc docs IH]; intros d Hnd Hfresh; simpl.
  - now rewrite app_nil_r.
  - inversion Hnd as [| ? ? Hnin Hnd']; subst.
    inversion Hfresh as [| ? ? Hdoc Hrest]; subst.
    change (store_all docs (Py.set (id doc) doc d)
            = d ++ (id doc, doc) :: map (fun doc => (id doc, doc)) docs).
    rewrite set_notin_app by exact Hdoc.
    rewrite IH; [now rewrite <- app_assoc | exact Hnd' |].
    rewrite Forall_forall in *. intros k Hk Hin.
    unfold Py.keys in Hin. rewrite map_app in Hin.
    apply in_app_or in Hin. destruct Hin as [Hin | [<- | []]].
    + now apply (Hrest k).
    + now apply Hnin.
Qed.

(** A list already in ascending order is left as it is by the sort. *)
Lemma stable_sort_sorted {A : Type} (lt : A -> A -> bool) (l : list A) :
  Sorted (fun a b => lt b a = false) l -> Py.stable_sort lt l = l.
Proof.
  unfold Py.stable_sort.
  induction 1 as [| x l Hl IH Hhd]; simpl; [reflexivity |].
  rewrite IH.
  destruct Hhd as [| y l' Hyx]; simpl; [reflexivity |].
  now rewrite Hyx.
Qed.

Lemma sorted_by_index (l : list chunk) : forall i n,
  map index l = map (fun j => MInt (Z.of_nat j)) (seq i n) ->
  Sorted (fun a b => mval_lt (index b) (index a) = false) l.
Proof.
  induction l as [| c l IH]; intros i [| n] H; simpl in H;
    try discriminate; [constructor |].
  injection H as Hc Hl. constructor; [now apply (IH (S i) n) |].
  destruct l as [| c' l']; [constructor |].
  destruct n as [| n']; [discriminate |]. simpl in Hl.
  injection Hl as Hc' _. constructor. rewrite Hc, Hc'. simpl.
  apply Z.ltb_ge. lia.
Qed.

(** The fields of the records a batch stores, read off in batch order. *)
Lemma batch_fields g md texts : forall i docs,
  Forall2 (chunk_of g md) (combine (seq i (length texts)) texts) docs ->
  map content docs = texts
  /\ map (fun d => index (chunk_entry d)) docs
     = map (fun j => MInt (Z.of_nat j)) (seq i (length texts))
  /\ Forall (fun d => doc_id d = g) docs
  /\ Forall (fun d =>
               Py.get_default "source" (MStr "Unknown") (metadata d)
               = Py.get_default "source" (MStr "Unknown") md) docs.
Proof.
  induction texts as [| text texts IH]; intros i docs H; simpl in H.
  - inversion H; subst. simpl. auto.
  - inversion H as [| p doc ps docs' Hdoc Hrest]; subst.
    destruct Hdoc as (_ & Hg & Hc & Hmd). simpl in Hc, Hmd.
    destruct (IH _ _ Hrest) as (H1 & H2 & H3 & H4).
    cbn [map length seq]. rewrite H1, H2, Hc.
    split; [reflexivity | split; [| split]].
    + f_equal. unfold chunk_entry. cbn [index].
      unfold Py.get_default. now rewrite Hmd, get_set_same.
    + now constructor.
    + constructor; [| exact H4].
      unfold Py.get_default. rewrite Hmd.
      rewrite get_set_other by discriminate. reflexivity.
Qed.

Section Adding.

Variable rng : Type.
Variable np_random_seed : Z -> rng.
Variable np_random_randn : nat -> rng -> list float * rng.
Variable md5_int : string -> Z.
Variable encoder : option (string -> result (list float)).
Variable isoformat : nat -> string.
Context {numpy : Np.Routines} {os : OS}.
Implicit Types (w : World rng).

(** The file system carries out every operation. *)
Hypothesis os_accepts : forall op fs0, os_error op fs0 = None.

Local Abbreviation add_loop_ :=
  (add_loop np_random_seed np_random_randn md5_int encoder isoformat).
Local Abbreviation add_ :=
  (add np_random_seed np_random_randn md5_int encoder isoformat).

(** X12. A new group reads back as it was added: when the group has no
    record and none of the batch's chunk ids is taken, after a completed
    [add] of at least one text [get_document_content] returns the texts in
    the order given, numbered from 0, their join by the paragraph separator
    as the full content, their number as the chunk count, and the source of
    the metadata as the name.  The file system carries out every operation
    ([os_accepts]). *)
Theorem add_then_content_reads_back g texts md w :
  Py.wf (documents (self w)) ->
  members g (self w) = [] ->
  forallb (fun i => fresh_in (documents (self w)) (chunk_id_of g i))
    (seq 0 (length texts)) = true ->
  texts <> [] ->
  Forall (embedding_succeeds encoder) texts ->
  (forall n w1,
      add_loop_ g md 0 texts 0 w = (Ok n, w1) ->
      uniform_dim (documents (self w1)) = true) ->
  exists w' r,
    add_ g texts md w = (Ok (length texts), w')
    /\ get_document_content g w' = (Ok (Some r), w')
    /\ map chunk_content (chunks_detail r) = texts
    /\ map index (chunks_detail r)
       = map (fun i => MInt (Z.of_nat i)) (seq 0 (length texts))
    /\ full_content r = String.concat paragraph_separator texts
    /\ chunks r = length texts
    /\ name r = Py.get_default "source" (MStr "Unknown") md.
Proof.
  intros Hwf Hnone Hfresh Hne Hok Hdim.
  destruct (add_loop_completes np_random_seed np_random_randn md5_int
              isoformat g md w Hok)
    as (w1 & docs & Hloop & _ & HF2 & Hdocs).
  pose proof HF2 as Hids. apply batch_ids in Hids.
  assert (Hnd : NoDup (map id docs))
    by (rewrite Hids; apply chunk_ids_NoDup).
  assert (Happ : documents (self w1)
                 = documents (self w) ++ map (fun doc => (id doc, doc)) docs).
  { rewrite Hdocs. apply store_all_fresh; [exact Hnd |].
    rewrite Hids. apply Forall_map, Forall_forall. intros i Hi.
    apply fresh_in_spec. rewrite forallb_forall in Hfresh. now apply Hfresh. }
  assert (Hwf1 : Py.wf (documents (self w1)))
    by (rewrite Hdocs; now apply wf_store_all).
  pose proof (Hdim _ _ Hloop) as Hu.
  eapply (add_after_loop np_random_seed np_random_randn md5_int encoder
            isoformat os_accepts) in Hu; [| exact Hloop | exact Hwf1].
  destruct Hu as (w' & Hadd & Hd' & _).
  pose proof HF2 as Hfields. apply batch_fields in Hfields.
  destruct Hfields as (Hcontent & Hindex & Hgroup & Hsource).
  assert (Hmem : members g (self w') = docs).
  { unfold members in *. rewrite Hd', Happ. unfold Py.values in *.
    rewrite map_app, filter_app, Hnone, map_map. simpl. rewrite map_id.
    apply forallb_filter_id. apply forallb_forall. intros d Hd.
    rewrite Forall_forall in Hgroup. apply String.eqb_eq. now apply Hgroup. }
  assert (Hlen : length docs = length texts)
    by (rewrite <- Hcontent; now rewrite length_map).
  exists w'. rewrite get_document_content_eq, Hmem.
  destruct docs as [| first rest] eqn:Hd;
    [destruct texts; [congruence | discriminate] |].
  rewrite <- Hd in *.
  assert (Hidx : map index (map chunk_entry docs)
                 = map (fun j => MInt (Z.of_nat j)) (seq 0 (length texts)))
    by (now rewrite map_map).
  rewrite list_sort_ok.
  - rewrite stable_sort_sorted by (eapply sorted_by_index; exact Hidx).
    eexists. split; [exact Hadd | split; [reflexivity |]].
    cbn [chunks_detail full_content chunks name].
    assert (Hcc : map chunk_content (map chunk_entry docs) = texts)
      by (rewrite map_map; exact Hcontent).
    rewrite Hcc, Hidx, length_map, Hlen.
    repeat split; auto.
    rewrite Forall_forall in Hsource. apply Hsource. rewrite Hd. now left.
  - intros a b Ha Hb.
    assert (Hint : forall c, In c (map chunk_entry docs) ->
                     exists z, index c = MInt z).
    { intros c Hc. apply (in_map index) in Hc. rewrite Hidx in Hc.
      apply in_map_iff in Hc. destruct Hc as (j & <- & _). eauto. }
    destruct (Hint a Ha) as (za & ->), (Hint b Hb) as (zb & ->). reflexivity.
Qed.

(** X13. A batch whose embeddings do not have the length of the stored
    ones: when the encoder accepts every text and the embeddings of the
    resulting record set differ in length, [add] raises [ValueError] after
    it has stored the records and rewritten the id list; the matrix is the
    old one and nothing is written to the data file. *)
Theorem add_with_other_dimension_raises g texts md w :
  Py.wf (documents (self w)) ->
  Forall (embedding_succeeds encoder) texts ->
  (forall n w1,
      add_loop_ g md 0 texts 0 w = (Ok n, w1) ->
      uniform_dim (documents (self w1)) = false) ->
  exists w' docs,
    add_ g texts md w = (Raise ValueError, w')
    /\ length docs = length texts
    /\ documents (self w') = store_all docs (documents (self w))
    /\ doc_ids (self w') = Py.keys (documents (self w'))
    /\ embeddings (self w') = embeddings (self w)
    /\ fs w' = fs w.
Proof.
  intros Hwf Hok Hdim.
  destruct (add_loop_completes np_random_seed np_random_randn md5_int
              isoformat g md w Hok)
    as (w1 & docs & Hloop & Hfr & HF2 & Hdocs).
  destruct Hfr as (Hfs & _ & Hemb & _).
  assert (Hwf1 : Py.wf (documents (self w1)))
    by (rewrite Hdocs; now apply wf_store_all).
  specialize (Hdim _ _ Hloop). unfold uniform_dim in Hdim.
  assert (Hlen : length docs = length texts).
  { apply Forall2_length in HF2. rewrite <- HF2, length_combine, length_seq.
    apply Nat.min_id. }
  unfold add, bind at 1. rewrite Hloop. unfold bind at 1.
  rewrite rebuild_index_eq by exact Hwf1.
  destruct (documents (self w1)) as [| kv rest] eqn:Hd1; [discriminate |].
  cbv zeta. destruct (Np.array _) as [E | e] eqn:HE; [discriminate |].
  assert (e = ValueError) as ->.
  { unfold Np.array in HE. simpl in HE.
    destruct (forallb _ _); [discriminate | now injection HE]. }
  eexists. exists docs. split; [reflexivity |]. simpl.
  rewrite <- Hdocs. auto.
Qed.

End Adding.


(** ** The chunker *)

Section StripFacts.
Context {char : Type} (isspace : char -> bool).

Local Abbreviation lstrip := (Str.lstrip isspace).
Local Abbreviation rstrip := (Str.rstrip isspace).
Local Abbreviation strip := (Str.strip isspace).
Local Abbreviation blank := (forallb isspace).
Local Abbreviation has_text_ := (has_text isspace).

Lemma has_text_app (a b : list char) :
  has_text_ (a ++ b) = has_text_ a || has_text_ b.
Proof. apply existsb_app. Qed.

Lemma has_text_rev (s : list char) : has_text_ (rev s) = has_text_ s.
Proof.
  induction s as [| c s IH]; [reflexivity |].
  simpl rev. rewrite has_text_app, IH. simpl.
  rewrite orb_false_r. apply orb_comm.
Qed.

Lemma no_text_blank (s : list char) :
  has_text_ s = false <-> blank s = true.
Proof.
  induction s as [| c s IH]; simpl; [tauto |].
  rewrite orb_false_iff, andb_true_iff, IH, negb_false_iff. tauto.
Qed.

Lemma has_text_nonempty (s : list char) : has_text_ s = true -> s <> [].
Proof. now destruct s. Qed.

(** [lstrip] drops a blank prefix and nothing else. *)
Lemma lstrip_suffix (s : list char) :
  exists pre, s = pre ++ lstrip s /\ blank pre = true.
Proof.
  induction s as [| c s (pre & Hs & Hpre)]; simpl.
  - now exists [].
  - destruct (isspace c) eqn:Hc.
    + exists (c :: pre). simpl. rewrite Hc, Hpre. now rewrite <- Hs.
    + now exists [].
Qed.

Lemma lstrip_head (s : list char) x t :
  lstrip s = x :: t -> isspace x = false.
Proof.
  induction s as [| c s IH]; simpl; [discriminate |].
  destruct (isspace c) eqn:Hc; [exact IH |]. now intros [= <- _].
Qed.

Lemma lstrip_app_blank (a s : list char) :
  blank a = true -> lstrip (a ++ s) = lstrip s.
Proof.
  induction a as [| c a IH]; simpl; [reflexivity |].
  destruct (isspace c); [exact IH | discriminate].
Qed.

Lemma lstrip_app_text (s b : list char) :
  has_text_ s = true -> lstrip (s ++ b) = lstrip s ++ b.
Proof.
  induction s as [| c s IH]; simpl; [discriminate |].
  destruct (isspace c); simpl; [exact IH | reflexivity].
Qed.

Lemma has_text_lstrip (s : list char) : has_text_ (lstrip s) = has_text_ s.
Proof.
  destruct (lstrip_suffix s) as (pre & Hs & Hpre).
  rewrite Hs at 2. rewrite has_text_app.
  apply no_text_blank in Hpre. now rewrite Hpre.
Qed.

Lemma length_lstrip (s : list char) : length (lstrip s) <= length s.
Proof.
  destruct (lstrip_suffix s) as (pre & Hs & _).
  rewrite Hs at 2. rewrite length_app. lia.
Qed.

Lemma rstrip_prefix (s : list char) :
  exists post, s = rstrip s ++ post /\ blank post = true.
Proof.
  destruct (lstrip_suffix (rev s)) as (pre & Hs & Hpre).
  exists (rev pre). split.
  - unfold Str.rstrip. rewrite <- rev_app_distr, <- Hs.
    now rewrite rev_involutive.
  - apply no_text_blank. rewrite has_text_rev. now apply no_text_blank.
Qed.

Lemma rstrip_app_blank (s b : list char) :
  blank b = true -> rstrip (s ++ b) = rstrip s.
Proof.
  intros Hb. unfold Str.rstrip. rewrite rev_app_distr.
  rewrite lstrip_app_blank; [reflexivity |].
  apply no_text_blank. rewrite has_text_rev. now apply no_text_blank.
Qed.

Lemma rstrip_app_text (a s : list char) :
  has_text_ s = true -> rstrip (a ++ s) = a ++ rstrip s.
Proof.
  intros Hs. unfold Str.rstrip. rewrite rev_app_distr.
  rewrite lstrip_app_text by (now rewrite has_text_rev).
  now rewrite rev_app_distr, rev_involutive.
Qed.

Lemma has_text_rstrip (s : list char) : has_text_ (rstrip s) = has_text_ s.
Proof.
  unfold Str.rstrip. now rewrite has_text_rev, has_text_lstrip, has_text_rev.
Qed.

Lemma length_rstrip (s : list char) : length (rstrip s) <= length s.
Proof.
  unfold Str.rstrip. rewrite length_rev.
  etransitivity; [apply length_lstrip |]. now rewrite length_rev.
Qed.

Lemma has_text_strip (s : list char) : has_text_ (strip s) = has_text_ s.
Proof. unfold Str.strip. now rewrite has_text_lstrip, has_text_rstrip. Qed.

Lemma length_strip (s : list char) : length (strip s) <= length s.
Proof.
  unfold Str.strip. etransitivity; [apply length_lstrip | apply length_rstrip].
Qed.

Lemma strip_blank (s : list char) : blank s = true -> strip s = [].
Proof.
  intros Hs. apply no_text_blank in Hs. rewrite <- has_text_strip in Hs.
  destruct (strip s) as [| x t] eqn:Hst; [reflexivity |].
  unfold Str.strip in Hst. pose proof (lstrip_head _ Hst) as Hx.
  simpl in Hs. now rewrite Hx in Hs.
Qed.

(** What [strip] returns is empty or trimmed. *)
Lemma strip_trimmed (s : list char) :
  strip s <> [] -> trimmed isspace (strip s) = true.
Proof.
  intros Hne. unfold trimmed.
  destruct (strip s) as [| x t] eqn:Hst; [congruence |].
  unfold Str.strip in Hst. pose proof (lstrip_head _ Hst) as Hx.
  destruct (lstrip_suffix (rstrip s)) as (pre & Hr & _).
  rewrite Hst in Hr.
  assert (Hrev : lstrip (rev s) = rev (x :: t) ++ rev pre).
  { rewrite <- rev_app_distr, <- Hr. unfold Str.rstrip.
    now rewrite rev_involutive. }
  destruct (rev (x :: t)) as [| y t'] eqn:Hy.
  - apply (f_equal (@length char)) in Hy. rewrite length_rev in Hy.
    discriminate.
  - simpl in Hrev. apply lstrip_head in Hrev. now rewrite Hx, Hrev.
Qed.

(** A sentence with text inside a string is, stripped, inside the stripped
    string. *)
Lemma strip_occurs (s c : list char) :
  has_text_ s = true -> occurs_in s c -> occurs_in (strip s) (strip c).
Proof.
  intros Hs (a & b & ->).
  assert (Hr : exists b1, rstrip (a ++ s ++ b) = a ++ rstrip s ++ b1).
  { destruct (has_text_ b) eqn:Hb.
    - destruct (rstrip_prefix s) as (post & Hpost & _).
      exists (post ++ rstrip b).
      rewrite app_assoc, rstrip_app_text by exact Hb.
      rewrite <- app_assoc. rewrite Hpost at 1. now rewrite <- app_assoc.
    - exists []. apply no_text_blank in Hb.
      rewrite app_assoc, rstrip_app_blank by exact Hb.
      rewrite rstrip_app_text by exact Hs. now rewrite app_nil_r. }
  destruct Hr as (b1 & Hr). unfold Str.strip. rewrite Hr.
  assert (Hrs : has_text_ (rstrip s) = true) by (now rewrite has_text_rstrip).
  destruct (has_text_ a) eqn:Ha.
  - destruct (lstrip_suffix (rstrip s)) as (pre & Hpre & _).
    exists (lstrip a ++ pre), b1.
    rewrite lstrip_app_text by exact Ha.
    rewrite Hpre at 1. now rewrite <- !app_assoc.
  - exists [], b1. apply no_text_blank in Ha.
    rewrite lstrip_app_blank by exact Ha.
    now rewrite lstrip_app_text by exact Hrs.
Qed.

(** [strip] drops whitespace only. *)
Lemma strip_keeps (s : list char) c :
  In c s -> isspace c = false -> In c (strip s).
Proof.
  intros Hin Hc. unfold Str.strip.
  assert (Hblank : forall l, blank l = true -> ~ In c l).
  { intros l Hl Hcl. rewrite forallb_forall in Hl.
    apply Hl in Hcl. congruence. }
  destruct (rstrip_prefix s) as (post & Hs & Hpost).
  destruct (lstrip_suffix (rstrip s)) as (pre & Hr & Hpre).
  rewrite Hs in Hin. apply in_app_or in Hin.
  destruct Hin as [Hin | Hin]; [| now apply Hblank in Hin].
  rewrite Hr in Hin. apply in_app_or in Hin.
  destruct Hin as [Hin | Hin]; [now apply Hblank in Hin | exact Hin].
Qed.

End StripFacts.


Lemma removelast_cons_Forall {A : Type} (P : A -> Prop) (x : A) (l : list A) :
  Forall P (removelast (x :: l)) ->
  Forall P (removelast l) /\ (l <> [] -> P x).
Proof.
  destruct l as [| y l]; simpl.
  - intros _. split; [constructor | congruence].
  - intros H. inversion H; subst. split; [assumption | auto].
Qed.

Section SplitFacts.

Variable char : Type.
Variable isspace : char -> bool.
Variable is_sentence_end : char -> bool.

Local Abbreviation split_from_ := (split_from isspace is_sentence_end).
Local Abbreviation split_ := (split_sentences isspace is_sentence_end).
Local Abbreviation has_text_ := (has_text isspace).
Local Abbreviation text_of_ := (text_of isspace).

Lemma split_from_nonempty text : forall piece after_end in_gap,
  split_from_ text piece after_end in_gap <> [].
Proof.
  induction text as [| c rest IH]; intros piece ae gap; simpl;
    [discriminate |].
  destruct gap; [destruct (isspace c); apply IH |].
  destruct (isspace c && ae); [discriminate | apply IH].
Qed.

Lemma text_of_app (a b : list char) :
  text_of_ (a ++ b) = text_of_ a ++ text_of_ b.
Proof. apply filter_app. Qed.

Lemma text_of_middle (a b : list char) c :
  isspace c = true -> text_of_ (a ++ c :: b) = text_of_ (a ++ b).
Proof.
  intros Hc. rewrite !text_of_app. f_equal.
  unfold text_of. simpl. now rewrite Hc.
Qed.

Lemma split_from_text text : forall piece after_end in_gap,
  (in_gap = true -> piece = []) ->
  text_of_ (concat (split_from_ text piece after_end in_gap))
  = text_of_ (rev piece ++ text).
Proof.
  induction text as [| c rest IH]; intros piece ae gap Hgap;
    cbn [split_from].
  - simpl. now rewrite !app_nil_r.
  - destruct gap.
    + rewrite (Hgap eq_refl). cbn [rev].
      destruct (isspace c) eqn:Hc.
      * rewrite IH by reflexivity. symmetry. now apply text_of_middle.
      * rewrite IH by discriminate. reflexivity.
    + destruct (isspace c && ae) eqn:Hsplit.
      * apply andb_true_iff in Hsplit. destruct Hsplit as [Hc _].
        cbn [concat]. rewrite text_of_app, IH by reflexivity.
        rewrite text_of_middle by exact Hc. cbn [rev app].
        symmetry. apply text_of_app.
      * rewrite IH by discriminate. cbn [rev]. now rewrite <- app_assoc.
Qed.

(** The split into sentences loses whitespace only. *)
Lemma split_sentences_text (text : list char) :
  text_of_ (concat (split_ text)) = text_of_ text.
Proof.
  unfold split_sentences. now rewrite split_from_text by discriminate.
Qed.

(** A character that is not whitespace is in one of the sentences. *)
Lemma split_sentences_keeps (text : list char) c :
  In c text -> isspace c = false ->
  exists s, In s (split_ text) /\ In c s.
Proof.
  intros Hin Hc.
  assert (H : In c (text_of_ (concat (split_ text)))).
  { rewrite split_sentences_text. apply filter_In. now rewrite Hc. }
  apply filter_In in H. destruct H as [H _].
  apply in_concat in H. destruct H as (s & Hs & Hcs). eauto.
Qed.

(** The pieces, each counted with one separating character, are no longer
    than the text. *)
Lemma split_from_length text : forall piece after_end in_gap,
  list_sum (map (fun s => S (length s))
              (split_from_ text piece after_end in_gap))
  <= S (length text + length piece).
Proof.
  induction text as [| c rest IH]; intros piece ae gap; simpl.
  - rewrite length_rev. lia.
  - destruct gap.
    + destruct (isspace c).
      * specialize (IH [] false true). simpl in IH. lia.
      * specialize (IH [c] (is_sentence_end c) false). simpl in IH. lia.
    + destruct (isspace c && ae).
      * simpl. rewrite length_rev.
        specialize (IH [] false true). simpl in IH. lia.
      * specialize (IH (c :: piece) (is_sentence_end c) false).
        simpl in IH. lia.
Qed.

Hypothesis end_not_space :
  forall c, is_sentence_end c = true -> isspace c = false.

(** Every piece but the last ends with a sentence end, so it has text. *)
Lemma split_from_has_text text : forall piece after_end in_gap,
  (after_end = true -> has_text_ piece = true) ->
  Forall (fun s => has_text_ s = true)
    (removelast (split_from_ text piece after_end in_gap)).
Proof.
  induction text as [| c rest IH]; intros piece ae gap Hae;
    [constructor |].
  cbn [split_from].
  destruct gap.
  - destruct (isspace c) eqn:Hc.
    + apply IH. discriminate.
    + apply IH. intros _. unfold has_text. simpl. now rewrite Hc.
  - destruct (isspace c && ae) eqn:Hsplit.
    + apply andb_true_iff in Hsplit. destruct Hsplit as [_ ->].
      pose proof (split_from_nonempty rest [] false true) as Hne.
      specialize (IH [] false true).
      destruct (split_from_ rest [] false true) as [| p ps];
        [congruence |].
      cbn [removelast]. constructor.
      * rewrite has_text_rev. now apply Hae.
      * apply IH. discriminate.
    + apply IH. intros Hend. apply end_not_space in Hend.
      unfold has_text. simpl. now rewrite Hend.
Qed.

(** A text of whitespace only is one piece. *)
Lemma split_from_blank text : forall piece,
  forallb isspace text = true ->
  split_from_ text piece false false = [rev piece ++ text].
Proof.
  induction text as [| c rest IH]; intros piece Hb; simpl.
  - now rewrite app_nil_r.
  - simpl in Hb. apply andb_true_iff in Hb. destruct Hb as [Hc Hrest].
    rewrite Hc. simpl.
    assert (Hend : is_sentence_end c = false).
    { destruct (is_sentence_end c) eqn:He; [| reflexivity].
      apply end_not_space in He. congruence. }
    rewrite Hend, IH by exact Hrest. simpl. now rewrite <- app_assoc.
Qed.

End SplitFacts.

Section ChunkerFacts.

Variable char : Type.
Variable isspace : char -> bool.
Variable is_sentence_end : char -> bool.
Variable space : char.
Variable CHUNK_SIZE : Z.
Variable CHUNK_OVERLAP : Z.

Local Abbreviation chunk_loop_ := (chunk_loop isspace space).
Local Abbreviation chunk_text_ :=
  (chunk_text isspace is_sentence_end space CHUNK_SIZE CHUNK_OVERLAP).
Local Abbreviation split_ := (split_sentences isspace is_sentence_end).
Local Abbreviation has_text_ := (has_text isspace).
Local Abbreviation strip := (Str.strip isspace).

(** What [chunk_text] returns, from what the loop returns. *)
Lemma chunk_text_eq text chunk_size overlap :
  chunk_text_ text chunk_size overlap
  = let r := chunk_loop_ (int_or chunk_size CHUNK_SIZE)
               (int_or overlap CHUNK_OVERLAP) (split_ text) [] [] in
    match strip (snd r) with
    | [] => fst r
    | _ :: _ => fst r ++ [strip (snd r)]
    end.
Proof.
  unfold chunk_text. cbv zeta.
  now destruct (chunk_loop_ _ _ _ _ _) as [chunks cur].
Qed.

(** *** No sentence is lost *)

Lemma occurs_has_text (s c : list char) :
  has_text_ s = true -> occurs_in s c -> has_text_ c = true.
Proof.
  intros Hs (pre & post & ->). rewrite !has_text_app, Hs.
  now rewrite orb_true_r.
Qed.

Lemma chunk_loop_keeps cs ov : forall ss chunks cur,
  let r := chunk_loop_ cs ov ss chunks cur in
  incl chunks (fst r)
  /\ forall s,
       In s ss \/ occurs_in s cur -> has_text_ s = true ->
       (exists c, In c (fst r) /\ occurs_in (strip s) c)
       \/ occurs_in s (snd r).
Proof.
  induction ss as [| s0 rest IH]; intros chunks cur; cbv zeta.
  - simpl. split; [apply incl_refl |]. intros s [[] | Hs] _. now right.
  - cbn [chunk_loop].
    destruct (_ <=? cs)%Z.
    + destruct (IH chunks (cur ++ s0 ++ [space])) as (Hincl & Hkeep).
      split; [exact Hincl |]. intros s Hs Htext. apply Hkeep; [| exact Htext].
      destruct Hs as [[<- | Hs] | Hs].
      * right. exists cur, [space]. reflexivity.
      * now left.
      * right. destruct Hs as (pre & post & ->).
        exists pre, (post ++ s0 ++ [space]). now rewrite <- !app_assoc.
    + cbv zeta.
      match goal with
      | |- context [chunk_loop_ cs ov rest ?cs' ?cur'] =>
          destruct (IH cs' cur') as (Hincl & Hkeep);
          set (chunks' := cs') in *; set (cur1 := cur') in *
      end.
      assert (Hsub : incl chunks chunks').
      { unfold chunks'. destruct cur; [apply incl_refl |].
        apply incl_appl, incl_refl. }
      split; [eapply incl_tran; eassumption |].
      intros s Hs Htext.
      destruct Hs as [[<- | Hs] | Hs].
      * apply Hkeep; [| exact Htext]. right. unfold cur1.
        eexists _, [space]. reflexivity.
      * apply Hkeep; [now left | exact Htext].
      * left. exists (strip cur). split.
        -- apply Hincl. unfold chunks'.
           pose proof (occurs_has_text Htext Hs) as Hcur.
           destruct cur; [discriminate |].
           apply in_or_app. right. now left.
        -- now apply strip_occurs.
Qed.

(** A sentence with text ends up, stripped, inside a chunk the loop
    appended or inside what the chunk left over strips to. *)
Lemma chunk_loop_keeps_sentence cs ov ss s :
  In s ss -> has_text_ s = true ->
  let r := chunk_loop_ cs ov ss [] [] in
  (exists c, In c (fst r) /\ occurs_in (strip s) c)
  \/ (strip (snd r) <> [] /\ occurs_in (strip s) (strip (snd r))).
Proof.
  intros Hs Htext. cbv zeta.
  destruct (chunk_loop_keeps cs ov ss [] []) as (_ & Hkeep).
  destruct (Hkeep s (or_introl Hs) Htext) as [Hc | Hocc]; [now left | right].
  split; [| now apply strip_occurs].
  apply has_text_nonempty with (isspace := isspace).
  rewrite has_text_strip. eapply occurs_has_text; eassumption.
Qed.

(** X15. No sentence is lost: every sentence of the text that is not
    blank occurs, stripped of the whitespace around it, in one piece inside
    some chunk, whatever the chunk size and the overlap. *)
Theorem chunk_text_keeps_every_sentence text chunk_size overlap s :
  In s (split_sentences isspace is_sentence_end text) ->
  has_text isspace s = true ->
  exists c,
    In c (chunk_text isspace is_sentence_end space CHUNK_SIZE CHUNK_OVERLAP
            text chunk_size overlap)
    /\ occurs_in (Str.strip isspace s) c.
Proof.
  intros Hs Htext. rewrite chunk_text_eq. cbv zeta.
  set (r := chunk_loop_ (int_or chunk_size CHUNK_SIZE)
              (int_or overlap CHUNK_OVERLAP) (split_ text) [] []).
  destruct (chunk_loop_keeps_sentence (int_or chunk_size CHUNK_SIZE)
              (int_or overlap CHUNK_OVERLAP) (split_ text) s Hs Htext)
    as [(c & Hc & Hocc) | (Hne & Hocc)]; fold r in Hc || fold r in Hne, Hocc.
  - exists c. split; [| exact Hocc].
    destruct (strip (snd r)); [exact Hc | apply in_or_app; now left].
  - exists (strip (snd r)). split; [| exact Hocc].
    destruct (strip (snd r)); [congruence |].
    apply in_or_app. right. now left.
Qed.

(** X14. No character is lost but whitespace: every character of the
    text that is not whitespace is in some chunk, whatever the chunk size
    and the overlap. *)
Theorem chunk_text_keeps_every_character text chunk_size overlap x :
  In x text -> isspace x = false ->
  exists c,
    In c (chunk_text isspace is_sentence_end space CHUNK_SIZE CHUNK_OVERLAP
            text chunk_size overlap)
    /\ In x c.
Proof.
  intros Hin Hx.
  destruct (split_sentences_keeps isspace is_sentence_end text x Hin Hx)
    as (s & Hs & Hxs).
  assert (Htext : has_text_ s = true).
  { apply existsb_exists. exists x. now rewrite Hx. }
  assert (Hkept : forall c, occurs_in (strip s) c -> In x c).
  { intros c (pre & post & ->).
    apply in_or_app. right. apply in_or_app. left. now apply strip_keeps. }
  rewrite chunk_text_eq. cbv zeta.
  set (r := chunk_loop_ (int_or chunk_size CHUNK_SIZE)
              (int_or overlap CHUNK_OVERLAP) (split_ text) [] []).
  destruct (chunk_loop_keeps_sentence (int_or chunk_size CHUNK_SIZE)
              (int_or overlap CHUNK_OVERLAP) (split_ text) s Hs Htext)
    as [(c & Hc & Hocc) | (Hne & Hocc)]; fold r in Hc || fold r in Hne, Hocc.
  - exists c. split; [| now apply Hkept].
    destruct (strip (snd r)); [exact Hc | apply in_or_app; now left].
  - exists (strip (snd r)). split; [| now apply Hkept].
    destruct (strip (snd r)); [congruence |].
    apply in_or_app. right. now left.
Qed.

(** *** Never more chunks than sentences *)

Lemma chunk_loop_count cs ov : forall ss chunks cur,
  let r := chunk_loop_ cs ov ss chunks cur in
  length (fst r) + pending (snd r)
  <= length chunks + pending cur + length ss.
Proof.
  induction ss as [| s0 rest IH]; intros chunks cur; cbv zeta.
  - simpl. lia.
  - cbn [chunk_loop].
    destruct (_ <=? cs)%Z.
    + specialize (IH chunks (cur ++ s0 ++ [space])). cbv zeta in IH.
      assert (Hp : pending (cur ++ s0 ++ [space]) = 1).
      { destruct cur; [destruct s0 |]; reflexivity. }
      simpl length. lia.
    + cbv zeta.
      match goal with
      | |- context [chunk_loop_ cs ov rest ?cs' ?cur'] =>
          specialize (IH cs' cur'); cbv zeta in IH;
          assert (Hp : pending cur' = 1);
          [| assert (Hc : length cs' = length chunks + pending cur)]
      end.
      * destruct (_ <? _)%Z.
        -- destruct (Str.slice_from _ _); [destruct s0 |]; reflexivity.
        -- destruct cur; [destruct s0 |]; reflexivity.
      * destruct cur; simpl; [lia |]. rewrite length_app. simpl. lia.
      * simpl length. lia.
Qed.

(** X16. [chunk_text] never returns more chunks than the text has
    sentences. *)
Theorem chunk_text_count text chunk_size overlap :
  length (chunk_text isspace is_sentence_end space CHUNK_SIZE CHUNK_OVERLAP
            text chunk_size overlap)
  <= length (split_sentences isspace is_sentence_end text).
Proof.
  rewrite chunk_text_eq. cbv zeta.
  pose proof (chunk_loop_count (int_or chunk_size CHUNK_SIZE)
                (int_or overlap CHUNK_OVERLAP) (split_ text) [] []) as H.
  cbv zeta in H. simpl in H.
  destruct (strip _) eqn:Hst; [lia |].
  rewrite length_app. simpl.
  destruct (snd _) eqn:Hcur; [discriminate | simpl in H; lia].
Qed.

(** *** A text that fits in one chunk *)

Lemma chunk_loop_all_fit cs ov : forall ss chunks cur,
  (Z.of_nat (length cur)
   + Z.of_nat (list_sum (map (fun s => S (length s)) ss)) <= cs + 1)%Z ->
  chunk_loop_ cs ov ss chunks cur = (chunks, cur ++ spaced space ss).
Proof.
  induction ss as [| s0 rest IH]; intros chunks cur Hfit.
  - simpl. unfold spaced. simpl. now rewrite app_nil_r.
  - cbn [chunk_loop]. cbn [map] in Hfit.
    change (list_sum (S (length s0) :: ?l))
      with (S (length s0) + list_sum l) in Hfit.
    assert (Htest : (Z.of_nat (length cur) + Z.of_nat (length s0) <=? cs)%Z
                    = true) by (apply Z.leb_le; lia).
    rewrite Htest, IH.
    + unfold spaced. simpl. now rewrite <- !app_assoc.
    + rewrite !length_app. simpl. lia.
Qed.

(** X17. A text no longer than the chunk size gives at most one chunk:
    its sentences, a single space between them, stripped; none when that
    is blank. *)
Theorem chunk_text_of_short_text text chunk_size overlap :
  (Z.of_nat (length text) <= int_or chunk_size CHUNK_SIZE)%Z ->
  chunk_text isspace is_sentence_end space CHUNK_SIZE CHUNK_OVERLAP
    text chunk_size overlap
  = match Str.strip isspace
            (spaced space (split_sentences isspace is_sentence_end text)) with
    | [] => []
    | c :: t => [c :: t]
    end.
Proof.
  intros Hlen. rewrite chunk_text_eq. cbv zeta.
  rewrite chunk_loop_all_fit.
  - simpl. now destruct (strip _).
  - pose proof (split_from_length isspace is_sentence_end text [] false false)
      as H.
    unfold split_sentences. cbn [length] in *. lia.
Qed.

(** *** Chunks are trimmed and bounded *)

Hypothesis space_isspace : isspace space = true.

Lemma strip_with_space (body : list char) :
  strip (body ++ [space]) = strip body.
Proof.
  unfold Str.strip. rewrite rstrip_app_blank; [reflexivity |].
  simpl. now rewrite space_isspace.
Qed.

Lemma chunk_loop_trimmed cs ov : forall ss chunks cur,
  Forall (fun s => has_text_ s = true) (removelast ss) ->
  Forall (fun c => trimmed isspace c = true) chunks ->
  (ss <> [] -> cur <> [] -> has_text_ cur = true) ->
  Forall (fun c => trimmed isspace c = true)
    (fst (chunk_loop_ cs ov ss chunks cur)).
Proof.
  induction ss as [| s0 rest IH]; intros chunks cur Hss Hchunks Hcur.
  - exact Hchunks.
  - cbn [chunk_loop].
    apply removelast_cons_Forall in Hss. destruct Hss as (Hrest & Hs0).
    destruct (_ <=? cs)%Z.
    + apply IH; [exact Hrest | exact Hchunks |].
      intros Hne _. rewrite !has_text_app, (Hs0 Hne).
      now rewrite orb_true_r.
    + cbv zeta. apply IH; [exact Hrest | |].
      * destruct cur as [| c cur0] eqn:Hc; [exact Hchunks |].
        apply Forall_app. split; [exact Hchunks |].
        constructor; [| constructor].
        apply strip_trimmed.
        apply has_text_nonempty with (isspace := isspace).
        rewrite has_text_strip. apply Hcur; discriminate.
      * intros Hne _. rewrite !has_text_app, (Hs0 Hne).
        now rewrite orb_true_r.
Qed.

Lemma overlap_text_length ov (cur : list char) :
  (0 < ov)%Z ->
  (Z.of_nat (length (if (ov <? Z.of_nat (length cur))%Z
                     then Str.slice_from (- ov) cur else cur)) <= ov)%Z.
Proof.
  intros Hov. destruct (ov <? _)%Z eqn:Hlt.
  - apply Z.ltb_lt in Hlt. unfold Str.slice_from. cbv zeta.
    assert (Hneg : (- ov <? 0)%Z = true) by (apply Z.ltb_lt; lia).
    rewrite Hneg, length_skipn. lia.
  - apply Z.ltb_ge in Hlt. exact Hlt.
Qed.

Lemma chunk_loop_size cs ov : (0 < ov)%Z -> forall ss chunks cur,
  Forall (fun s => (Z.of_nat (length s) + ov <= cs)%Z) ss ->
  Forall (fun c => (Z.of_nat (length c) <= cs)%Z) chunks ->
  fills space cs cur ->
  let r := chunk_loop_ cs ov ss chunks cur in
  Forall (fun c => (Z.of_nat (length c) <= cs)%Z) (fst r)
  /\ fills space cs (snd r).
Proof.
  intros Hov.
  induction ss as [| s0 rest IH]; intros chunks cur Hss Hchunks Hcur;
    cbv zeta.
  - simpl. auto.
  - cbn [chunk_loop]. inversion Hss as [| ? ? Hs0 Hrest]; subst.
    destruct (_ <=? cs)%Z eqn:Htest.
    + apply Z.leb_le in Htest. apply IH; [exact Hrest | exact Hchunks |].
      right. exists (cur ++ s0). split; [now rewrite <- app_assoc |].
      rewrite length_app. lia.
    + cbv zeta. apply IH; [exact Hrest | |].
      * destruct cur as [| c cur0] eqn:Hc; [exact Hchunks |].
        apply Forall_app. split; [exact Hchunks |].
        constructor; [| constructor].
        destruct Hcur as [Hnil | (body & Hbody & Hlen)]; [discriminate |].
        rewrite Hbody, strip_with_space.
        pose proof (length_strip isspace body). lia.
      * right.
        match goal with
        | |- exists body, ?o ++ _ ++ _ = _ /\ _ => exists (o ++ s0)
        end.
        split; [now rewrite <- app_assoc |].
        rewrite length_app.
        pose proof (overlap_text_length cur Hov). lia.
Qed.

Hypothesis end_not_space :
  forall c, is_sentence_end c = true -> isspace c = false.

(** X18. Every chunk [chunk_text] returns is not empty and neither begins
    nor ends with whitespace. *)
Theorem chunk_text_chunks_are_trimmed text chunk_size overlap :
  Forall (fun c => trimmed isspace c = true)
    (chunk_text isspace is_sentence_end space CHUNK_SIZE CHUNK_OVERLAP
       text chunk_size overlap).
Proof.
  rewrite chunk_text_eq. cbv zeta.
  assert (Hloop : Forall (fun c => trimmed isspace c = true)
                    (fst (chunk_loop_ (int_or chunk_size CHUNK_SIZE)
                            (int_or overlap CHUNK_OVERLAP) (split_ text)
                            [] []))).
  { apply chunk_loop_trimmed; [| constructor | congruence].
    apply split_from_has_text; [exact end_not_space | discriminate]. }
  destruct (strip _) eqn:Hst; [exact Hloop |].
  apply Forall_app. split; [exact Hloop |].
  constructor; [| constructor]. rewrite <- Hst.
  apply strip_trimmed. congruence.
Qed.

(** X19. With a positive overlap, when every sentence of the text
    together with the overlap fits in the chunk size, no chunk is longer
    than the chunk size. *)
Theorem chunk_text_chunks_fit text chunk_size overlap :
  let size := int_or chunk_size CHUNK_SIZE in
  let lap := int_or overlap CHUNK_OVERLAP in
  (0 < lap)%Z ->
  Forall (fun s => (Z.of_nat (length s) + lap <= size)%Z)
    (split_sentences isspace is_sentence_end text) ->
  Forall (fun c => (Z.of_nat (length c) <= size)%Z)
    (chunk_text isspace is_sentence_end space CHUNK_SIZE CHUNK_OVERLAP
       text chunk_size overlap).
Proof.
  cbv zeta. intros Hov Hss. rewrite chunk_text_eq. cbv zeta.
  destruct (@chunk_loop_size (int_or chunk_size CHUNK_SIZE)
              (int_or overlap CHUNK_OVERLAP) Hov (split_ text) [] [] Hss
              (Forall_nil _) (or_introl eq_refl))
    as (Hchunks & Hcur).
  destruct (strip _) eqn:Hst; [exact Hchunks |].
  apply Forall_app. split; [exact Hchunks |].
  constructor; [| constructor]. rewrite <- Hst.
  destruct Hcur as [Hnil | (body & Hbody & Hlen)].
  - rewrite Hnil in *. discriminate.
  - rewrite Hbody, strip_with_space.
    pose proof (length_strip isspace body). lia.
Qed.

(** X20. A text of whitespace only gives no chunk, whatever the chunk
    size and the overlap. *)
Theorem chunk_text_of_blank_text text chunk_size overlap :
  forallb isspace text = true ->
  chunk_text isspace is_sentence_end space CHUNK_SIZE CHUNK_OVERLAP
    text chunk_size overlap = [].
Proof.
  intros Hblank. rewrite chunk_text_eq. cbv zeta.
  unfold split_sentences.
  rewrite split_from_blank by assumption. simpl rev. simpl app.
  cbn [chunk_loop]. simpl length at 1.
  assert (Hcur : forall o : list char, o = [] ->
            strip (o ++ text ++ [space]) = []).
  { intros o ->. cbn [app].
    apply strip_blank. rewrite forallb_app, Hblank. simpl.
    now rewrite space_isspace. }
  destruct (_ <=? _)%Z; cbv zeta; cbn [fst snd].
  - now rewrite (Hcur [] eq_refl).
  - rewrite Hcur; [reflexivity |].
    destruct (_ <? _)%Z; [| reflexivity].
    unfold Str.slice_from. apply skipn_nil.
Qed.

End ChunkerFacts.


(** ** The store on concrete inputs *)

Local Open Scope string_scope.

(** The examples run on the stand-ins for numpy and the operating system. *)
#[local] Existing Instances Double.numpy Double.os.

(** The scenario of the specification: two chunks are added, listed under
    their ids, deleted as a group, and gone for the next delete and the next
    search. *)
Example scenario_add_then_delete :
  let w0 := Double.world_of Double.empty_store [] in
  let r1 := Double.add "doc1" ["Cats are small."; "Dogs are loud."]
              [("source", MStr "pets.txt")] w0 in
  let r2 := delete_by_doc_id "doc1" (snd r1) in
  let r3 := delete_by_doc_id "doc1" (snd r2) in
  fst r1 = Ok 2
  /\ doc_ids (self (snd r1)) = ["doc1_chunk_0"; "doc1_chunk_1"]
  /\ fst r2 = Ok true
  /\ fst r3 = Ok false
  /\ fst (Double.search "small feline" 1 (snd r2)) = Ok []
  /\ Py.get "data/documents.json" (fs (snd r2)) = Some [ArrayOpen; ArrayClose].
Proof. vm_compute. repeat split. Qed.

(** A store written by [add] and loaded again by the constructor holds the
    same records and the same index. *)
Example scenario_round_trip :
  let w0 := Double.world_of Double.empty_store [] in
  let w1 := snd (Double.add "doc1" ["east"; "north"] [] w0) in
  let w2 := snd (__init__ "data" (Double.world_of Double.empty_store (fs w1))) in
  self w2 = self w1.
Proof. vm_compute. reflexivity. Qed.

(** C1, counterexample: a store loaded from a snapshot that holds a record
    with a zero embedding ranks that record first and reports NaN, not 0, as
    its similarity. *)
Lemma search_zero_vector_reports_nan :
  let w0 := Double.world_of Double.empty_store
              (Double.snapshot_of [Double.doc_east; Double.doc_zero]) in
  let w := snd (__init__ "data" w0) in
  match fst (Double.search "east" 2 w) with
  | Ok (h :: _) =>
      hit_content h = "gamma"
      /\ PrimFloat.is_nan (similarity h) = true
      /\ (similarity h =? 0)%float = false
  | _ => False
  end.
Proof. vm_compute. repeat split. Qed.

(** C2, counterexample: of two records with equal similarity the one
    inserted second is returned first. *)
Lemma search_ties_in_reverse_insertion_order :
  let w := snd (Double.add "g" ["x"; "y"] []
                  (Double.world_of Double.empty_store [])) in
  map content (Py.values (documents (self w))) = ["x"; "y"]
  /\ match fst (Double.search "east" 2 w) with
     | Ok [h1; h2] =>
         hit_content h1 = "y" /\ hit_content h2 = "x"
         /\ (similarity h1 =? similarity h2)%float = true
     | _ => False
     end.
Proof. vm_compute. repeat split. Qed.

(** C3, counterexample: a save interrupted right after its first file
    operation has emptied the data file in place; the snapshot that loaded
    before no longer decodes, and no other file exists. *)
Lemma save_interrupted_loses_snapshot :
  let w := Double.world_of (Double.store_of [Double.doc_east; Double.doc_north])
             (Double.snapshot_of [Double.doc_east]) in
  (exists f, Py.get "data/documents.json" (fs w) = Some f
             /\ json_load f = Ok [JDocument Double.doc_east])
  /\ (exists f, Py.get "data/documents.json" (fs (_save_interrupted 1 w)) = Some f
                /\ json_load f = Raise JSONDecodeError)
  /\ Py.keys (fs (_save_interrupted 1 w)) = ["data/documents.json"].
Proof.
  cbv zeta. split; [| split].
  - eexists. split; reflexivity.
  - eexists. split; reflexivity.
  - reflexivity.
Qed.



(** C7, counterexample: with [k = -1] on a store of two records [search]
    returns one hit, which is neither [min(k, 2)] nor none. *)
Lemma search_negative_k_returns_all_but_last :
  let w := Double.world_of (Double.store_of [Double.doc_east; Double.doc_north]) [] in
  match fst (Double.search "east" (-1) w) with
  | Ok hits =>
      length hits = 1
      /\ Z.of_nat (length hits)
         <> Z.min (-1) (Z.of_nat (length (documents (self w))))
  | Raise _ => False
  end.
Proof. vm_compute. split; [reflexivity | discriminate]. Qed.

(** C6, counterexample: after an [add] that failed on its second text, a
    delete of a group the store does not hold completes, returning [False],
    and leaves one record in the store and no row in the index. *)
Lemma delete_of_unknown_group_leaves_index_behind :
  let w := snd (Double.add "g" ["x"; "boom"; "y"] []
                  (Double.world_of Double.empty_store [])) in
  let r := delete_by_doc_id "other" w in
  fst r = Ok false
  /\ Py.keys (documents (self (snd r))) = ["g_chunk_0"]
  /\ doc_ids (self (snd r)) = []
  /\ length (index_rows (self (snd r))) = 0.
Proof. vm_compute. repeat split. Qed.

(** C10, counterexample: a second [add] to a group of three records, with
    a text the encoder rejects in second place, raises; the first text has
    replaced chunk 0 by then, and the index still holds the old rows. *)
Lemma add_to_existing_group_fails :
  let w := snd (Double.add "g" ["x"; "y"; "z"] []
                  (Double.world_of Double.empty_store [])) in
  let r := Double.add "g" ["p"; "boom"] [] w in
  map content (Py.values (documents (self w))) = ["x"; "y"; "z"]
  /\ fst r = Raise EncoderError
  /\ map content (Py.values (documents (self (snd r)))) = ["p"; "y"; "z"]
  /\ embeddings (self (snd r)) = embeddings (self w).
Proof. vm_compute. repeat split. Qed.

(** On a file system that lets no file be opened for writing, [add] raises
    after the record is stored and the index rebuilt; nothing is written. *)
Example scenario_add_on_read_only_files :
  let w := Double.world_of Double.empty_store [] in
  let r := add (os := Double.read_only)
             Double.np_random_seed Double.np_random_randn Double.md5_int
             (Some Double.model) Double.isoformat "g" ["x"] [] w in
  fst r = Raise OSError
  /\ Py.keys (documents (self (snd r))) = ["g_chunk_0"]
  /\ doc_ids (self (snd r)) = ["g_chunk_0"]
  /\ fs (snd r) = [].
Proof. vm_compute. repeat split. Qed.

(** Without the encoder every embedding prints the warning of
    [get_embedding_model]: a search over a store of two records prints it
    once. *)
Example scenario_search_without_encoder :
  let w := Double.world_of
             (Double.store_of [Double.doc_east; Double.doc_north]) [] in
  let r := search Double.np_random_seed Double.np_random_randn Double.md5_int
             None "east" 1 w in
  stdout w = [] /\ stdout (snd r) = [InstallWarningLine].
Proof. vm_compute. repeat split. Qed.


Ltac nodup_strings :=
  repeat (constructor; [simpl; intuition discriminate |]); constructor.

Ltac accepted_by_model :=
  repeat constructor; intros ? [= <-]; reflexivity.

(** C6, instance: after adding two chunks to the empty store the index is
    aligned with the record set. *)
Lemma index_aligned_after_add_and_delete_witness :
  let w := Double.world_of Double.empty_store [] in
  Py.wf (documents (self w))
  /\ aligned (self (snd (Double.add "g" ["x"; "y"] [] w))).
Proof.
  cbv zeta.
  assert (Hwf : Py.wf (documents
                         (self (Double.world_of Double.empty_store []))))
    by constructor.
  split; [exact Hwf |].
  refine (proj1
            (proj1
               (@index_aligned_after_add_and_delete _
                  Double.np_random_seed Double.np_random_randn Double.md5_int
                  (Some Double.model) Double.isoformat _ _ Hwf)
               "g" ["x"; "y"] [] 2
               (snd (Double.add "g" ["x"; "y"] []
                       (Double.world_of Double.empty_store [])))
               _)).
  vm_compute. reflexivity.
Defined.


(** C10, instance: adding one text to a group of three replaces chunk 0
    and returns 1; the record set keeps three records. *)
Lemma add_to_existing_group_replaces_witness :
  let w := snd (Double.add "g" ["x"; "y"; "z"] []
                  (Double.world_of Double.empty_store [])) in
  exists w',
    Double.add "g" ["p"] [] w = (Ok 1, w')
    /\ Py.keys (documents (self w'))
       = ["g_chunk_0"; "g_chunk_1"; "g_chunk_2"]
    /\ exists doc,
         Py.get "g_chunk_0" (documents (self w')) = Some doc
         /\ content doc = "p".
Proof.
  cbv zeta.
  set (w := snd (Double.add "g" ["x"; "y"; "z"] []
                   (Double.world_of Double.empty_store []))).
  assert (Hwf : Py.wf (documents (self w))) by (vm_compute; nodup_strings).
  assert (Hok : Forall (embedding_succeeds (Some Double.model)) ["p"])
    by accepted_by_model.
  assert (Hdim : forall n w1,
             add_loop Double.np_random_seed Double.np_random_randn
               Double.md5_int (Some Double.model) Double.isoformat
               "g" [] 0 ["p"] 0 w = (Ok n, w1) ->
             uniform_dim (documents (self w1)) = true).
  { intros n w1 H. vm_compute in H. injection H as <- <-. reflexivity. }
  destruct (@add_to_existing_group_replaces _
              Double.np_random_seed Double.np_random_randn Double.md5_int
              (Some Double.model) Double.isoformat Double.os
              w "g" ["p"] [] Hwf)
    as (Hdone & _ & Hex).
  destruct (Hex Hok Hdim (fun _ _ => eq_refl)) as (w' & Hadd).
  destruct (Hdone _ _ Hadd) as (_ & Hget & _ & Hkeys).
  exists w'. split; [exact Hadd | split; [exact Hkeys |]].
  destruct (Hget 0 "p" eq_refl) as (doc & Hdoc & _ & _ & Hcontent & _).
  exists doc. split; [exact Hdoc | exact Hcontent].
Defined.

(** C9, instance: with the stand-in generator the fallback embedding of a
    text has 384 entries. *)
Lemma fallback_embedding_is_deterministic_witness :
  exists v,
    fst (Double.fallback_embedding "hello"
           (Double.world_of Double.empty_store [])) = Ok v
    /\ length v = 384.
Proof.
  refine (proj2 (proj2 (proj2
            (@fallback_embedding_is_deterministic _
               Double.np_random_seed Double.np_random_randn Double.md5_int
               "hello" (Double.world_of Double.empty_store [])))) _).
  intros n r. simpl. apply repeat_length.
Defined.

(** C3, instance: a save of two records interrupted after two file
    operations leaves a data file that does not decode. *)
Lemma save_rewrites_data_file_in_place_witness :
  let w := Double.world_of (Double.store_of [Double.doc_east; Double.doc_north])
             (Double.snapshot_of [Double.doc_east]) in
  exists f,
    Py.get (data_file (self w)) (fs (_save_interrupted 2 w)) = Some f
    /\ json_load f = Raise JSONDecodeError.
Proof.
  cbv zeta.
  refine (proj1 (proj2 (proj2 (proj2
            (@save_rewrites_data_file_in_place _ _
               (Double.world_of
                  (Double.store_of [Double.doc_east; Double.doc_north])
                  (Double.snapshot_of [Double.doc_east])))))) 2 _).
  simpl. lia.
Defined.


(** C8, instance: a group stored with chunk 1 before chunk 0 is read back
    in chunk order, and an unknown group gives [None]. *)
Lemma get_document_content_orders_chunks_witness :
  let w := Double.world_of
             (Double.store_of [Double.doc_north; Double.doc_east]) [] in
  get_document_content "nobody" w = (Ok None, w)
  /\ exists r,
       get_document_content "g" w = (Ok (Some r), w)
       /\ Sorted (fun a b => mval_le (index a) (index b)) (chunks_detail r)
       /\ chunks r = 2.
Proof.
  cbv zeta.
  set (w := Double.world_of
              (Double.store_of [Double.doc_north; Double.doc_east]) []).
  split.
  - refine (proj1 (@get_document_content_orders_chunks _ "nobody" w) _).
    reflexivity.
  - assert (Hne : members "g" (self w) <> []) by (vm_compute; discriminate).
    assert (Hsame : forall a b,
               In a (members "g" (self w)) -> In b (members "g" (self w)) ->
               same_type (index (chunk_entry a)) (index (chunk_entry b))
               = true).
    { intros a b Ha Hb. vm_compute in Ha, Hb.
      destruct Ha as [<- | [<- | []]], Hb as [<- | [<- | []]]; reflexivity. }
    destruct (proj2 (@get_document_content_orders_chunks _ "g" w) Hne Hsame)
      as (r & Hget & Hsorted & _ & _ & Hcount & _).
    exists r. split; [exact Hget | split; [exact Hsorted | exact Hcount]].
Defined.

(** C7, instance: with [k = 5] on a store of two records [search] returns
    both. *)
Lemma search_clamps_to_record_count_witness :
  let w := Double.world_of
             (Double.store_of [Double.doc_east; Double.doc_north]) [] in
  exists hits w',
    Double.search "east" 5 w = (Ok hits, w') /\ length hits = 2.
Proof.
  cbv zeta.
  set (w := Double.world_of
              (Double.store_of [Double.doc_east; Double.doc_north]) []).
  assert (Hwf : Py.wf (documents (self w))) by (vm_compute; nodup_strings).
  assert (Hal : aligned (self w)) by (split; reflexivity).
  assert (Hemb : _get_embedding Double.np_random_seed Double.np_random_randn
                   Double.md5_int (Some Double.model) "east" w
                 = (Ok [1%float; 0%float], w)) by reflexivity.
  assert (Hdim : Forall (fun r => length r = length [1%float; 0%float])
                   (index_rows (self w)))
    by (repeat constructor).
  destruct (proj2 (@search_clamps_to_record_count _
                     Double.np_random_seed Double.np_random_randn
                     Double.md5_int (Some Double.model) Double.numpy
                     double_argsort_sorts "east" 5%Z w)
              _ _ ltac:(lia) Hwf Hal Hemb Hdim)
    as (hits & w' & Hs & Hlen & _).
  exists hits, w'. split; [exact Hs | exact Hlen].
Defined.

(** C2, instance: the two hits of a concrete search are in descending
    order. *)
Lemma search_results_sorted_descending_witness :
  let w := snd (Double.add "g" ["east"; "north"] []
                  (Double.world_of Double.empty_store [])) in
  Sorted descending
    match fst (Double.search "east" 2 w) with
    | Ok hits => hits
    | Raise _ => []
    end.
Proof.
  cbv zeta.
  set (w := snd (Double.add "g" ["east"; "north"] []
                   (Double.world_of Double.empty_store []))).
  refine (proj1
            (@search_results_sorted_descending _
               Double.np_random_seed Double.np_random_randn Double.md5_int
               (Some Double.model) Double.numpy double_argsort_sorts "east" 2%Z w _
               (snd (Double.search "east" 2 w)) _)).
  vm_compute. reflexivity.
Defined.

(** C1, instance: a search over a store that holds a zero embedding
    returns. *)
Lemma search_zero_norm_similarity_is_nan_witness :
  let w := Double.world_of
             (Double.store_of [Double.doc_east; Double.doc_zero]) [] in
  exists hits w', Double.search "east" 2 w = (Ok hits, w').
Proof.
  cbv zeta.
  set (w := Double.world_of
              (Double.store_of [Double.doc_east; Double.doc_zero]) []).
  assert (Hwf : Py.wf (documents (self w))) by (vm_compute; nodup_strings).
  assert (Hal : aligned (self w)) by (split; reflexivity).
  assert (Hemb : _get_embedding Double.np_random_seed Double.np_random_randn
                   Double.md5_int (Some Double.model) "east" w
                 = (Ok [1%float; 0%float], w)) by reflexivity.
  assert (Hdim : Forall (fun r => length r = length [1%float; 0%float])
                   (index_rows (self w)))
    by (repeat constructor).
  destruct (@search_zero_norm_similarity_is_nan _
              Double.np_random_seed Double.np_random_randn Double.md5_int
              (Some Double.model) Double.numpy double_argsort_sorts double_zero_sums
              "east" 2%Z w _ _ Hwf Hal Hemb Hdim)
    as (hits & w' & Hs & _).
  exists hits, w'. exact Hs.
Defined.

(** ** Instances of the further properties *)

Lemma plain_end_not_space :
  forall c, Plain.is_sentence_end c = true -> Plain.isspace c = false.
Proof.
  intros c H. unfold Plain.is_sentence_end in H.
  apply orb_true_iff in H. destruct H as [H | H];
    [apply orb_true_iff in H; destruct H as [H | H] |];
    apply Ascii.eqb_eq in H; subst c; reflexivity.
Qed.

(** X1, instance: deleting group [g] from a store of three records leaves
    the record of the other group. *)
Lemma delete_removes_exactly_the_group_witness :
  let w := Double.world_of
             (Double.store_of
                [Double.doc_east; Double.doc_north; Double.doc_zero]) [] in
  exists w',
    delete_by_doc_id "g" w = (Ok true, w')
    /\ Py.keys (documents (self w')) = ["h_chunk_0"].
Proof.
  cbv zeta.
  set (w := Double.world_of
              (Double.store_of
                 [Double.doc_east; Double.doc_north; Double.doc_zero]) []).
  assert (Hwf : Py.wf (documents (self w))) by (vm_compute; nodup_strings).
  assert (Hne : members "g" (self w) <> []) by (vm_compute; discriminate).
  assert (Hdim : uniform_dim (documents (self w)) = true) by reflexivity.
  destruct (proj2 (@delete_removes_exactly_the_group _ Double.os
                     (fun _ _ => eq_refl) "g" w Hwf) Hne Hdim)
    as (w' & Hdel & Hd & _).
  exists w'. split; [exact Hdel |]. rewrite Hd. reflexivity.
Defined.

(** X2, instance: the second delete of a group returns [False]. *)
Lemma delete_twice_returns_false_witness :
  let w := Double.world_of
             (Double.store_of [Double.doc_east; Double.doc_zero]) [] in
  let w' := snd (delete_by_doc_id "g" w) in
  delete_by_doc_id "g" w' = (Ok false, w').
Proof.
  cbv zeta.
  set (w := Double.world_of
              (Double.store_of [Double.doc_east; Double.doc_zero]) []).
  assert (Hwf : Py.wf (documents (self w))) by (vm_compute; nodup_strings).
  refine (@delete_twice_returns_false _ _ "g" w
            (snd (delete_by_doc_id "g" w)) Hwf _).
  vm_compute. reflexivity.
Defined.

(** X3, instance: the content of a deleted group is not found. *)
Lemma delete_then_content_not_found_witness :
  let w := Double.world_of
             (Double.store_of [Double.doc_east; Double.doc_zero]) [] in
  let w' := snd (delete_by_doc_id "g" w) in
  get_document_content "g" w' = (Ok None, w').
Proof.
  cbv zeta.
  set (w := Double.world_of
              (Double.store_of [Double.doc_east; Double.doc_zero]) []).
  assert (Hwf : Py.wf (documents (self w))) by (vm_compute; nodup_strings).
  refine (proj1 (@delete_then_content_not_found _ _ "g" w
                   (snd (delete_by_doc_id "g" w)) Hwf _)).
  vm_compute. reflexivity.
Defined.

(** X4, instance: with an encoder a search leaves the whole state as it
    was, the output included. *)
Lemma search_reads_only_witness :
  let w := Double.world_of
             (Double.store_of [Double.doc_east; Double.doc_north]) [] in
  snd (Double.search "east" 1 w) = w.
Proof.
  cbv zeta.
  set (w := Double.world_of
              (Double.store_of [Double.doc_east; Double.doc_north]) []).
  refine (proj1 (proj2 (proj2 (proj2
            (@search_reads_only _
               Double.np_random_seed Double.np_random_randn Double.md5_int
               (Some Double.model) _ "east" 1%Z w
               (fst (Double.search "east" 1 w))
               (snd (Double.search "east" 1 w)) _)))) _).
  - apply surjective_pairing.
  - discriminate.
Defined.

(** X5, instance: a search for one result over two records returns at
    most one hit. *)
Lemma search_returns_stored_records_witness :
  let w := Double.world_of
             (Double.store_of [Double.doc_east; Double.doc_north]) [] in
  match fst (Double.search "east" 1 w) with
  | Ok hits => length hits <= 1
  | Raise _ => False
  end.
Proof.
  cbv zeta.
  set (w := Double.world_of
              (Double.store_of [Double.doc_east; Double.doc_north]) []).
  destruct (Double.search "east" 1 w) as [[hits | e] w'] eqn:Hs;
    [| vm_compute in Hs; discriminate].
  refine (proj2 (proj2
            (@search_returns_stored_records _
               Double.np_random_seed Double.np_random_randn Double.md5_int
               (Some Double.model) Double.numpy double_argsort_sorts
               "east" 1%Z w hits w' Hs)) _).
  lia.
Defined.

(** X6, instance: after group [g] is deleted a search returns records of
    the other group only. *)
Lemma delete_then_search_excludes_group_witness :
  let w := Double.world_of
             (Double.store_of
                [Double.doc_east; Double.doc_north; Double.doc_zero]) [] in
  let w1 := snd (delete_by_doc_id "g" w) in
  match fst (Double.search "east" 5 w1) with
  | Ok hits =>
      Forall
        (fun h =>
           exists d,
             In d (Py.values (documents (self w)))
             /\ doc_id d <> "g"
             /\ hit_content h = content d /\ hit_metadata h = metadata d)
        hits
  | Raise _ => False
  end.
Proof.
  cbv zeta.
  set (w := Double.world_of
              (Double.store_of
                 [Double.doc_east; Double.doc_north; Double.doc_zero]) []).
  set (w1 := snd (delete_by_doc_id "g" w)).
  assert (Hwf : Py.wf (documents (self w))) by (vm_compute; nodup_strings).
  assert (Hdel : delete_by_doc_id "g" w = (Ok true, w1))
    by (vm_compute; reflexivity).
  destruct (Double.search "east" 5 w1) as [[hits | e] w2] eqn:Hs;
    [| vm_compute in Hs; discriminate].
  exact (@delete_then_search_excludes_group _
           Double.np_random_seed Double.np_random_randn Double.md5_int
           (Some Double.model) _ _ "g" "east" 5%Z w w1 hits w2 Hwf Hdel Hs).
Defined.

(** X7, instance: a query the encoder rejects makes [search] raise the
    encoder's exception. *)
Lemma search_failures_witness :
  let w := Double.world_of
             (Double.store_of [Double.doc_east; Double.doc_north]) [] in
  Double.search "boom" 1 w = (Raise EncoderError, w).
Proof.
  cbv zeta.
  set (w := Double.world_of
              (Double.store_of [Double.doc_east; Double.doc_north]) []).
  refine (proj1
            (@search_failures _
               Double.np_random_seed Double.np_random_randn Double.md5_int
               (Some Double.model) _ "boom" 1%Z w
               (map embedding [Double.doc_east; Double.doc_north]) _ _)
            EncoderError _).
  - vm_compute. discriminate.
  - reflexivity.
  - exists Double.model. split; reflexivity.
Defined.

(** X9, instance: the constructor loads a snapshot of two records. *)
Lemma init_loads_snapshot_witness :
  let w := Double.world_of Double.empty_store
             (Double.snapshot_of [Double.doc_east; Double.doc_north]) in
  exists w',
    __init__ "data" w = (Ok tt, w')
    /\ Py.keys (documents (self w')) = ["g_chunk_0"; "g_chunk_1"].
Proof.
  cbv zeta.
  set (w := Double.world_of Double.empty_store
              (Double.snapshot_of [Double.doc_east; Double.doc_north])).
  set (docs := documents
                 (Double.store_of [Double.doc_east; Double.doc_north])).
  assert (Hwf : Py.wf docs) by (vm_compute; nodup_strings).
  assert (Hk : keyed_by_id docs) by (repeat constructor).
  assert (Hf : Py.get (os_path_join "data" "documents.json") (fs w)
               = Some (snapshot_text docs)) by reflexivity.
  destruct (@init_loads_snapshot _ Double.os (fun _ _ => eq_refl)
              "data" docs w Hwf Hk Hf)
    as (w' & Hinit & Hd & _).
  exists w'. split; [exact Hinit |]. rewrite Hd. reflexivity.
Defined.

(** X10, instance: the constructor run after an [add] of two texts finds
    the store as [add] left it. *)
Lemma add_then_restart_restores_witness :
  let w := Double.world_of Double.empty_store [] in
  let w' := snd (Double.add "doc1" ["east"; "north"] [] w) in
  __init__ "data" w' = (Ok tt, w').
Proof.
  cbv zeta.
  set (w := Double.world_of Double.empty_store []).
  assert (Hwf : Py.wf (documents (self w))) by constructor.
  assert (Hk : keyed_by_id (documents (self w))) by constructor.
  refine (@add_then_restart_restores _
            Double.np_random_seed Double.np_random_randn Double.md5_int
            (Some Double.model) Double.isoformat
            Double.os (fun _ _ => eq_refl)
            "doc1" ["east"; "north"] [] w 2
            (snd (Double.add "doc1" ["east"; "north"] [] w)) Hwf Hk _).
  vm_compute. reflexivity.
Defined.

(** X11, instance: the constructor run after a delete finds the store as
    the delete left it. *)
Lemma delete_then_restart_restores_witness :
  let w := Double.world_of
             (Double.store_of [Double.doc_east; Double.doc_zero]) [] in
  let w' := snd (delete_by_doc_id "g" w) in
  __init__ "data" w' = (Ok tt, w').
Proof.
  cbv zeta.
  set (w := Double.world_of
              (Double.store_of [Double.doc_east; Double.doc_zero]) []).
  assert (Hwf : Py.wf (documents (self w))) by (vm_compute; nodup_strings).
  assert (Hk : keyed_by_id (documents (self w))) by (repeat constructor).
  refine (@delete_then_restart_restores _ Double.os (fun _ _ => eq_refl)
            "g" w
            (snd (delete_by_doc_id "g" w)) Hwf Hk _).
  vm_compute. reflexivity.
Defined.

(** X12, instance: two texts added as a new group read back in order,
    joined by the paragraph separator. *)
Lemma add_then_content_reads_back_witness :
  let w := Double.world_of Double.empty_store [] in
  exists w' r,
    Double.add "doc1" ["Cats are small."; "Dogs are loud."]
      [("source", MStr "pets.txt")] w = (Ok 2, w')
    /\ get_document_content "doc1" w' = (Ok (Some r), w')
    /\ full_content r
       = String.concat paragraph_separator
           ["Cats are small."; "Dogs are loud."]
    /\ name r = MStr "pets.txt".
Proof.
  cbv zeta.
  set (w := Double.world_of Double.empty_store []).
  assert (Hwf : Py.wf (documents (self w))) by constructor.
  assert (Hok : Forall (embedding_succeeds (Some Double.model))
                  ["Cats are small."; "Dogs are loud."])
    by accepted_by_model.
  assert (Hne : ["Cats are small."; "Dogs are loud."] <> [])
    by discriminate.
  assert (Hdim : forall n w1,
             add_loop Double.np_random_seed Double.np_random_randn
               Double.md5_int (Some Double.model) Double.isoformat
               "doc1" [("source", MStr "pets.txt")] 0
               ["Cats are small."; "Dogs are loud."] 0 w = (Ok n, w1) ->
             uniform_dim (documents (self w1)) = true).
  { intros n w1 H. vm_compute in H. injection H as <- <-. reflexivity. }
  destruct (@add_then_content_reads_back _
              Double.np_random_seed Double.np_random_randn Double.md5_int
              (Some Double.model) Double.isoformat
              Double.os (fun _ _ => eq_refl)
              "doc1" ["Cats are small."; "Dogs are loud."]
              [("source", MStr "pets.txt")] w
              Hwf eq_refl eq_refl Hne Hok Hdim)
    as (w' & r & Hadd & Hget & _ & _ & Hfull & _ & Hname).
  exists w', r. repeat split; assumption.
Defined.

(** X13, instance: adding a text with an embedding of two entries to a
    store whose record has three raises [ValueError] and leaves the matrix
    as it was. *)
Lemma add_with_other_dimension_raises_witness :
  let w := Double.world_of (Double.store_of [Plain.doc_three]) [] in
  exists w',
    Double.add "g" ["x"] [] w = (Raise ValueError, w')
    /\ embeddings (self w') = embeddings (self w)
    /\ fs w' = fs w.
Proof.
  cbv zeta.
  set (w := Double.world_of (Double.store_of [Plain.doc_three]) []).
  assert (Hwf : Py.wf (documents (self w))) by (vm_compute; nodup_strings).
  assert (Hok : Forall (embedding_succeeds (Some Double.model)) ["x"])
    by accepted_by_model.
  assert (Hdim : forall n w1,
             add_loop Double.np_random_seed Double.np_random_randn
               Double.md5_int (Some Double.model) Double.isoformat
               "g" [] 0 ["x"] 0 w = (Ok n, w1) ->
             uniform_dim (documents (self w1)) = false).
  { intros n w1 H. vm_compute in H. injection H as <- <-. reflexivity. }
  destruct (@add_with_other_dimension_raises _
              Double.np_random_seed Double.np_random_randn Double.md5_int
              (Some Double.model) Double.isoformat _ "g" ["x"] [] w
              Hwf Hok Hdim)
    as (w' & docs & Hadd & _ & _ & _ & Hemb & Hfs).
  exists w'. repeat split; assumption.
Defined.

(** X14, instance: the letter Y of a text of two sentences is in a
    chunk. *)
Lemma chunk_text_keeps_every_character_witness :
  exists c,
    In c (chunk_text Plain.isspace Plain.is_sentence_end Plain.space
            Plain.CHUNK_SIZE Plain.CHUNK_OVERLAP
            (list_ascii_of_string "Hi. Yo!") (Some 4%Z) (Some 1%Z))
    /\ In "Y"%char c.
Proof.
  refine (@chunk_text_keeps_every_character ascii
            Plain.isspace Plain.is_sentence_end Plain.space
            Plain.CHUNK_SIZE Plain.CHUNK_OVERLAP
            (list_ascii_of_string "Hi. Yo!") (Some 4%Z) (Some 1%Z)
            "Y"%char _ _).
  - simpl. do 4 right. left. reflexivity.
  - reflexivity.
Defined.

(** X15, instance: the second sentence of a text is inside a chunk. *)
Lemma chunk_text_keeps_every_sentence_witness :
  exists c,
    In c (chunk_text Plain.isspace Plain.is_sentence_end Plain.space
            Plain.CHUNK_SIZE Plain.CHUNK_OVERLAP
            (list_ascii_of_string "Hi. Yo!") (Some 4%Z) (Some 1%Z))
    /\ occurs_in
         (Str.strip Plain.isspace (list_ascii_of_string "Yo!")) c.
Proof.
  refine (@chunk_text_keeps_every_sentence ascii
            Plain.isspace Plain.is_sentence_end Plain.space
            Plain.CHUNK_SIZE Plain.CHUNK_OVERLAP
            (list_ascii_of_string "Hi. Yo!") (Some 4%Z) (Some 1%Z)
            (list_ascii_of_string "Yo!") _ _).
  - vm_compute. right. left. reflexivity.
  - reflexivity.
Defined.

(** X17, instance: a text of eight characters gives, with the default
    sizes, one chunk. *)
Lemma chunk_text_of_short_text_witness :
  Plain.chunk_text "Hi.  Yo!" None None = ["Hi. Yo!"].
Proof.
  unfold Plain.chunk_text.
  rewrite (@chunk_text_of_short_text ascii
             Plain.isspace Plain.is_sentence_end Plain.space
             Plain.CHUNK_SIZE Plain.CHUNK_OVERLAP
             (list_ascii_of_string "Hi.  Yo!") None None).
  - reflexivity.
  - vm_compute. discriminate.
Defined.

(** X18, instance: the chunks of a text of two sentences are trimmed. *)
Lemma chunk_text_chunks_are_trimmed_witness :
  Forall (fun c => trimmed Plain.isspace c = true)
    (chunk_text Plain.isspace Plain.is_sentence_end Plain.space
       Plain.CHUNK_SIZE Plain.CHUNK_OVERLAP
       (list_ascii_of_string "Hi. Yo!") (Some 4%Z) (Some 1%Z)).
Proof.
  exact (@chunk_text_chunks_are_trimmed ascii
           Plain.isspace Plain.is_sentence_end Plain.space
           Plain.CHUNK_SIZE Plain.CHUNK_OVERLAP plain_end_not_space
           (list_ascii_of_string "Hi. Yo!") (Some 4%Z) (Some 1%Z)).
Defined.

(** X19, instance: with chunk size 4 and overlap 1 the chunks of two
    sentences of three characters have at most four. *)
Lemma chunk_text_chunks_fit_witness :
  Forall (fun c => (Z.of_nat (length c) <= 4)%Z)
    (chunk_text Plain.isspace Plain.is_sentence_end Plain.space
       Plain.CHUNK_SIZE Plain.CHUNK_OVERLAP
       (list_ascii_of_string "Hi. Yo!") (Some 4%Z) (Some 1%Z)).
Proof.
  refine (@chunk_text_chunks_fit ascii
            Plain.isspace Plain.is_sentence_end Plain.space
            Plain.CHUNK_SIZE Plain.CHUNK_OVERLAP eq_refl
            (list_ascii_of_string "Hi. Yo!") (Some 4%Z) (Some 1%Z) _ _).
  - reflexivity.
  - repeat constructor; vm_compute; discriminate.
Defined.

(** X20, instance: a text of two spaces and a newline gives no chunk. *)
Lemma chunk_text_of_blank_text_witness :
  chunk_text Plain.isspace Plain.is_sentence_end Plain.space
    Plain.CHUNK_SIZE Plain.CHUNK_OVERLAP
    [" "%char; " "%char; "010"%char] None None = [].
Proof.
  refine (@chunk_text_of_blank_text ascii
            Plain.isspace Plain.is_sentence_end Plain.space
            Plain.CHUNK_SIZE Plain.CHUNK_OVERLAP eq_refl plain_end_not_space
            [" "%char; " "%char; "010"%char] None None _).
  reflexivity.
Defined.
